(** * web-ifc loader: a shallow embedding of [IfcLoader] (web-ifc.h) and of
    [IfcAPI.WriteLine] (web-ifc-api.ts), with the properties checked on it. *)

From Stdlib Require Import ZArith Lia List String Ascii Bool DecimalString.
From stdpp Require Import base option list gmap strings.

Local Open Scope Z_scope.

(** ** Outcomes of loader operations

    The C++ code has no error values.  What can go wrong is modelled by a
    fault: a read outside the tape, a failed [assert], an index outside a
    [std::vector], and the exhaustion of the iteration budget of the model's
    loops (the C++ loops are [while (true)]). *)

Inductive Fault : Type :=
  | ReadPastEnd
  | AssertFailed
  | OutOfBounds
  | OutOfFuel.

Inductive Res (A : Type) : Type :=
  | Ok (a : A)
  | Err (e : Fault).

Arguments Ok {A} a.
Arguments Err {A} e.

(** State passing with faults, over a state type [S]. *)
Definition SE (S A : Type) : Type := S -> Res (A * S).

Definition ret {S A : Type} (a : A) : SE S A := fun s => Ok (a, s).

Definition bind {S A B : Type} (m : SE S A) (k : A -> SE S B) : SE S B :=
  fun s => match m s with
           | Ok (a, s') => k a s'
           | Err e => Err e
           end.

Definition fail {S A : Type} (e : Fault) : SE S A := fun _ => Err e.

Definition get {S : Type} : SE S S := fun s => Ok (s, s).

Definition put {S : Type} (s : S) : SE S unit := fun _ => Ok (tt, s).

Notation "'let*' x ':=' m 'in' k" := (bind m (fun x => k))
  (at level 10, x pattern, m at level 100, k at level 200).
Notation "m ';;' k" := (bind m (fun _ => k))
  (at level 100, k at level 200, right associativity).

(** A [for] loop over a vector. *)
Fixpoint forM_ {S A : Type} (xs : list A) (body : A -> SE S unit) : SE S unit :=
  match xs with
  | [] => ret tt
  | x :: xs' => body x ;; forM_ xs' body
  end.

(** ** Fixed-width integers *)

Definition wrap32 (z : Z) : Z := z mod 2 ^ 32.

(** Little-endian layout of a [w]-byte unsigned value (wasm and x86). *)
Fixpoint le_encode (w : nat) (v : Z) : list Z :=
  match w with
  | O => []
  | S w' => (v mod 256) :: le_encode w' (v / 256)
  end.

Fixpoint le_decode (bs : list Z) : Z :=
  match bs with
  | [] => 0
  | b :: bs' => b + 256 * le_decode bs'
  end.

(** ** Token tags

    The numeric values are those exported by web-ifc-api.ts
    (UNKNOWN = 0 ... LINE_END = 9). *)

Inductive IfcTokenType : Type :=
  | UNKNOWN | STRING | LABEL | ENUM | REAL | REF | EMPTY
  | SET_BEGIN | SET_END | LINE_END.

Definition tag_of (t : IfcTokenType) : Z :=
  match t with
  | UNKNOWN => 0 | STRING => 1 | LABEL => 2 | ENUM => 3 | REAL => 4
  | REF => 5 | EMPTY => 6 | SET_BEGIN => 7 | SET_END => 8 | LINE_END => 9
  end.

(** [static_cast<IfcTokenType>(c)]; [None] is a value outside the
    enumeration, which every [switch] sends to [default]. *)
Definition tokenType (c : Z) : option IfcTokenType :=
  if c =? 0 then Some UNKNOWN
  else if c =? 1 then Some STRING
  else if c =? 2 then Some LABEL
  else if c =? 3 then Some ENUM
  else if c =? 4 then Some REAL
  else if c =? 5 then Some REF
  else if c =? 6 then Some EMPTY
  else if c =? 7 then Some SET_BEGIN
  else if c =? 8 then Some SET_END
  else if c =? 9 then Some LINE_END
  else None.

Definition is_tag (c : Z) (t : IfcTokenType) : bool :=
  match tokenType c with
  | Some t' => tag_of t' =? tag_of t
  | None => false
  end.

(** ** The tape *)

(** Modelled from the spec: the class [DynamicTape] (parsing headers, not
    part of the two source files).  Section 3 and 4.1: logically one
    growable byte array with a movable read cursor; [Read<T>] decodes at the
    cursor and advances, [ReadStringView] reads a [u8] length and that many
    bytes, [MoveTo] sets the absolute cursor, [Reverse] backs up by one tag
    byte, [AtEnd] reports exhaustion; reading past the end is an error. *)
Record DynamicTape : Type := mkTape {
  tape_data : list Z;
  readPtr : nat
}.

Definition tape_rest (t : DynamicTape) : list Z := drop (readPtr t) (tape_data t).

Definition tape_at (t : DynamicTape) (p : nat) : DynamicTape :=
  mkTape (tape_data t) p.

Definition Read_bytes (n : nat) : SE DynamicTape (list Z) := fun t =>
  if decide (n <= length (tape_rest t))%nat
  then Ok (take n (tape_rest t), tape_at t (readPtr t + n))
  else Err ReadPastEnd.

Definition Read_char : SE DynamicTape Z :=
  let* bs := Read_bytes 1 in ret (le_decode bs).

Definition Read_uint8 : SE DynamicTape Z :=
  let* bs := Read_bytes 1 in ret (le_decode bs).

Definition Read_uint32 : SE DynamicTape Z :=
  let* bs := Read_bytes 4 in ret (le_decode bs).

(** A [double] is kept as its 64-bit pattern. *)
Definition Read_double : SE DynamicTape Z :=
  let* bs := Read_bytes 8 in ret (le_decode bs).

Definition AdvanceRead (n : Z) : SE DynamicTape unit :=
  let* _ := Read_bytes (Z.to_nat n) in ret tt.

Definition ReadStringView : SE DynamicTape (list Z) :=
  let* len := Read_uint8 in Read_bytes (Z.to_nat len).

Definition tape_MoveTo (offset : Z) : SE DynamicTape unit := fun t =>
  Ok (tt, tape_at t (Z.to_nat offset)).

Definition tape_GetReadOffset : SE DynamicTape Z := fun t =>
  Ok (Z.of_nat (readPtr t), t).

Definition tape_Reverse : SE DynamicTape unit := fun t =>
  Ok (tt, tape_at t (readPtr t - 1)).

Definition tape_AtEnd : SE DynamicTape bool := fun t =>
  Ok (bool_decide (length (tape_data t) <= readPtr t)%nat, t).

Definition tape_GetTotalSize : SE DynamicTape Z := fun t =>
  Ok (Z.of_nat (length (tape_data t)), t).

Definition tape_push (data : list Z) : SE DynamicTape unit := fun t =>
  Ok (tt, mkTape (tape_data t ++ data) (readPtr t)).

(** Every loop of the loader consumes at least one byte per iteration or
    stops, so the bytes of the tape bound the iterations. *)
Definition tape_fuel (t : DynamicTape) : nat := S (length (tape_data t)).

(** ** Line records and indices *)

(** Modelled from the spec: the structs [IfcLine] and [IfcMetaData]
    (ifc-meta-data.h, not part of the two source files), with the fields the
    loader reads and writes.  [std::vector] is a list, [std::unordered_map]
    a finite map whose absent keys stand for the empty vector that
    [operator[]] would create. *)
Record IfcLine : Type := mkLine {
  expressID : Z;
  lineIndex : Z;
  ifcType : Z;
  tapeOffset : Z;
  tapeEnd : Z
}.

Record IfcMetaData : Type := mkMeta {
  lines : list IfcLine;
  expressIDToLine : list Z;
  ifcTypeToLineID : gmap Z (list Z);
  _relVoids : gmap Z (list Z);
  _relAggregates : gmap Z (list Z);
  _styledItems : gmap Z (list (Z * Z));
  _relMaterials : gmap Z (list (Z * Z));
  _materialDefinitions : gmap Z (list (Z * Z));
  linearScalingFactor : Z
}.

Record LoaderSettings : Type := mkSettings {
  COORDINATE_TO_ORIGIN : bool;
  USE_FAST_BOOLS : bool;
  DUMP_CSG_MESHES : bool;
  CIRCLE_SEGMENTS_LOW : Z;
  CIRCLE_SEGMENTS_MEDIUM : Z;
  CIRCLE_SEGMENTS_HIGH : Z;
  MESH_CACHE : bool
}.

Definition default_settings : LoaderSettings :=
  mkSettings false false false 5 8 12 false.

Record IfcLoader : Type := mkLoader {
  _open : bool;
  _tape : DynamicTape;
  _settings : LoaderSettings;
  _metaData : IfcMetaData
}.

Definition with_tape (s : IfcLoader) (t : DynamicTape) : IfcLoader :=
  mkLoader (_open s) t (_settings s) (_metaData s).

Definition with_meta (s : IfcLoader) (m : IfcMetaData) : IfcLoader :=
  mkLoader (_open s) (_tape s) (_settings s) m.

(** Run a tape operation on the loader's tape. *)
Definition on_tape {A : Type} (m : SE DynamicTape A) : SE IfcLoader A := fun s =>
  match m (_tape s) with
  | Ok (a, t') => Ok (a, with_tape s t')
  | Err e => Err e
  end.

(** [v[i]] on a vector; an index outside the vector is undefined behaviour
    in C++ and a fault here. *)
Definition vec_at {S A : Type} (v : list A) (i : Z) : SE S A :=
  if i <? 0 then fail OutOfBounds
  else match v !! Z.to_nat i with
       | Some x => ret x
       | None => fail OutOfBounds
       end.

(** [v[i] = x]. *)
Definition vec_set {S A : Type} (v : list A) (i : Z) (x : A) : SE S (list A) :=
  if (0 <=? i) && (i <? Z.of_nat (length v)) then ret (<[Z.to_nat i := x]> v)
  else fail OutOfBounds.

(** [m[k]] on an [unordered_map] of vectors. *)
Definition map_at {A : Type} (m : gmap Z (list A)) (k : Z) : list A :=
  default [] (m !! k).

Definition map_push {A : Type} (m : gmap Z (list A)) (k : Z) (x : A) : gmap Z (list A) :=
  <[k := map_at m k ++ [x]]> m.

(** Field updates. *)
Definition set_lines (m : IfcMetaData) (x : list IfcLine) : IfcMetaData :=
  mkMeta x (expressIDToLine m) (ifcTypeToLineID m) (_relVoids m) (_relAggregates m)
    (_styledItems m) (_relMaterials m) (_materialDefinitions m) (linearScalingFactor m).

Definition set_expressIDToLine (m : IfcMetaData) (x : list Z) : IfcMetaData :=
  mkMeta (lines m) x (ifcTypeToLineID m) (_relVoids m) (_relAggregates m)
    (_styledItems m) (_relMaterials m) (_materialDefinitions m) (linearScalingFactor m).

Definition set_ifcTypeToLineID (m : IfcMetaData) (x : gmap Z (list Z)) : IfcMetaData :=
  mkMeta (lines m) (expressIDToLine m) x (_relVoids m) (_relAggregates m)
    (_styledItems m) (_relMaterials m) (_materialDefinitions m) (linearScalingFactor m).

Definition set_relVoids (m : IfcMetaData) (x : gmap Z (list Z)) : IfcMetaData :=
  mkMeta (lines m) (expressIDToLine m) (ifcTypeToLineID m) x (_relAggregates m)
    (_styledItems m) (_relMaterials m) (_materialDefinitions m) (linearScalingFactor m).

Definition set_relAggregates (m : IfcMetaData) (x : gmap Z (list Z)) : IfcMetaData :=
  mkMeta (lines m) (expressIDToLine m) (ifcTypeToLineID m) (_relVoids m) x
    (_styledItems m) (_relMaterials m) (_materialDefinitions m) (linearScalingFactor m).

Definition set_styledItems (m : IfcMetaData) (x : gmap Z (list (Z * Z))) : IfcMetaData :=
  mkMeta (lines m) (expressIDToLine m) (ifcTypeToLineID m) (_relVoids m) (_relAggregates m)
    x (_relMaterials m) (_materialDefinitions m) (linearScalingFactor m).

Definition set_relMaterials (m : IfcMetaData) (x : gmap Z (list (Z * Z))) : IfcMetaData :=
  mkMeta (lines m) (expressIDToLine m) (ifcTypeToLineID m) (_relVoids m) (_relAggregates m)
    (_styledItems m) x (_materialDefinitions m) (linearScalingFactor m).

Definition set_materialDefinitions (m : IfcMetaData) (x : gmap Z (list (Z * Z))) : IfcMetaData :=
  mkMeta (lines m) (expressIDToLine m) (ifcTypeToLineID m) (_relVoids m) (_relAggregates m)
    (_styledItems m) (_relMaterials m) x (linearScalingFactor m).

Definition set_linearScalingFactor (m : IfcMetaData) (x : Z) : IfcMetaData :=
  mkMeta (lines m) (expressIDToLine m) (ifcTypeToLineID m) (_relVoids m) (_relAggregates m)
    (_styledItems m) (_relMaterials m) (_materialDefinitions m) x.

(** Read and update the loader's [_metaData]. *)
Definition get_meta : SE IfcLoader IfcMetaData := fun s => Ok (_metaData s, s).

Definition put_meta (m : IfcMetaData) : SE IfcLoader unit := fun s => Ok (tt, with_meta s m).

(** The type codes of ifc2x4.h that the loader names (the header is not part
    of the two source files; the codes are parameters). *)
Record Schema : Type := mkSchema {
  IFCPROJECT : Z;
  IFCSIUNIT : Z;
  IFCRELVOIDSELEMENT : Z;
  IFCRELAGGREGATES : Z;
  IFCSTYLEDITEM : Z;
  IFCRELASSOCIATESMATERIAL : Z;
  IFCMATERIALDEFINITIONREPRESENTATION : Z
}.

(** Bytes of the tape as a [std::string]. *)
Fixpoint string_of_bytes (bs : list Z) : string :=
  match bs with
  | [] => EmptyString
  | b :: bs' => String (ascii_of_N (Z.to_N b)) (string_of_bytes bs')
  end.

Fixpoint bytes_of_string (s : string) : list Z :=
  match s with
  | EmptyString => []
  | String a s' => Z.of_N (N_of_ascii a) :: bytes_of_string s'
  end.

(** ** Doubles

    A [double] is its IEEE 754 binary64 bit pattern.  Decimal literals of the
    source ([1e-3], [1e18]) and the decimal text that the tokenizer reads
    denote the nearest binary64 value, rounding ties to even; only positive
    normal values are needed. *)

Module F64.

(** Division rounded to the nearest integer, ties to even. *)
Definition div_rne (n d : Z) : Z :=
  let q := n / d in
  let r := n mod d in
  if 2 * r <? d then q
  else if d <? 2 * r then q + 1
  else if Z.even q then q else q + 1.

(** [n / d] scaled by [2 ^ (- k)], rounded. *)
Definition scaled2 (n d k : Z) : Z :=
  if 0 <=? k then div_rne n (d * 2 ^ k) else div_rne (n * 2 ^ (- k)) d.

(** The binary64 value nearest to the positive rational [n / d], as a
    53-bit significand [q] and an exponent [k]: [q * 2 ^ k]. *)
Definition nearest (n d : Z) : Z * Z :=
  let k0 := Z.log2 n - Z.log2 d - 52 in
  let k := if 2 ^ 52 <=? scaled2 n d (k0 - 1) then
             (if scaled2 n d (k0 - 1) <? 2 ^ 53 then k0 - 1 else k0)
           else k0 in
  let k := if scaled2 n d k <? 2 ^ 53 then k else k + 1 in
  let q := scaled2 n d k in
  if q =? 2 ^ 53 then (2 ^ 52, k + 1) else (q, k).

Definition pack (qk : Z * Z) : Z :=
  let '(q, k) := qk in (k + 52 + 1023) * 2 ^ 52 + (q - 2 ^ 52).

Definition unpack (bits : Z) : Z * Z :=
  (2 ^ 52 + bits mod 2 ^ 52, bits / 2 ^ 52 - 1023 - 52).

(** The double written [m]e[e] in decimal, [m > 0]. *)
Definition of_decimal (m e : Z) : Z :=
  if m =? 0 then 0
  else if 0 <=? e then pack (nearest (m * 10 ^ e) 1)
  else pack (nearest m (10 ^ (- e))).

(** The decimal with [P] significant digits nearest to the positive double
    [bits], as digits [d] and exponent [j]: [d * 10 ^ j].  This is the value
    of the text that [operator<<] prints under [setprecision(P)] in the
    default float format (printf's [%.Pg]), which rounds correctly. *)
Definition scaled10 (n d j : Z) : Z :=
  if 0 <=? j then div_rne n (d * 10 ^ j) else div_rne (n * 10 ^ (- j)) d.

Definition to_decimal (P : Z) (bits : Z) : Z * Z :=
  let '(q, k) := unpack bits in
  let n := if 0 <=? k then q * 2 ^ k else q in
  let d := if 0 <=? k then 1 else 2 ^ (- k) in
  let j0 := Z.log2 n * 30103 / 100000 - Z.log2 d * 30103 / 100000 - P in
  (* the candidates around the estimate; the first whose digits fit *)
  let fits j := (10 ^ (P - 1) <=? scaled10 n d j) && (scaled10 n d j <? 10 ^ P) in
  let j := if fits (j0 - 1) then j0 - 1
           else if fits j0 then j0
           else if fits (j0 + 1) then j0 + 1
           else if fits (j0 + 2) then j0 + 2
           else j0 + 3 in
  (scaled10 n d j, j).

(** Printing with [P] significant digits, then reading the text back. *)
Definition reparse (P : Z) (bits : Z) : Z :=
  let '(d, j) := to_decimal P bits in of_decimal d j.

(** [std::numeric_limits<double>::digits10] and [max_digits10]. *)
Definition digits10 : Z := 15.
Definition max_digits10 : Z := 17.

End F64.

(** ** The loader: lookups *)

Module Loader.

Definition PushDataToTape (data : list Z) : SE IfcLoader unit :=
  on_tape (tape_push data).

(** [GetExpressIDsWithType]: the type index entry, each LineID replaced by
    the handle of its line. *)
Fixpoint transform_expressID (ls : list IfcLine) (list_ : list Z) : SE IfcLoader (list Z) :=
  match list_ with
  | [] => ret []
  | lineID :: rest =>
      let* l := vec_at ls lineID in
      let* ids := transform_expressID ls rest in
      ret (expressID l :: ids)
  end.

Definition GetExpressIDsWithType (type : Z) : SE IfcLoader (list Z) :=
  let* s := get in
  transform_expressID (lines (_metaData s)) (map_at (ifcTypeToLineID (_metaData s)) type).

Definition GetNumLines : SE IfcLoader Z :=
  let* s := get in ret (Z.of_nat (length (lines (_metaData s)))).

(** [GetLineIDsWithType]: a reference to the type index entry itself. *)
Definition GetLineIDsWithType (type : Z) : SE IfcLoader (list Z) :=
  let* s := get in ret (map_at (ifcTypeToLineID (_metaData s)) type).

Definition ExpressIDToLineID (expressID : Z) : SE IfcLoader Z :=
  let* s := get in vec_at (expressIDToLine (_metaData s)) expressID.

Definition GetLine (lineID : Z) : SE IfcLoader IfcLine :=
  let* s := get in vec_at (lines (_metaData s)) lineID.

Definition GetLinearScalingFactor : SE IfcLoader Z :=
  let* s := get in ret (linearScalingFactor (_metaData s)).

Definition IsOpen : SE IfcLoader bool :=
  let* s := get in ret (_open s).

Definition GetSettings : SE IfcLoader LoaderSettings :=
  let* s := get in ret (_settings s).

(** ** The loader: argument cursor *)

(** The body of [while (true)] in [MoveToArgumentOffset]; [movedOver],
    [setDepth] and [argumentIndex] are C [int]s, bounded here by the number
    of tokens read. *)
Fixpoint MoveToArgumentOffset_loop (fuel : nat) (argumentIndex movedOver setDepth : Z)
  : SE DynamicTape unit :=
  match fuel with
  | O => fail OutOfFuel
  | S fuel' =>
      let movedOver' := if setDepth =? 1 then movedOver + 1 else movedOver in
      if (setDepth =? 1) && (movedOver' =? argumentIndex) then ret tt
      else
        let* c := Read_char in
        match tokenType c with
        | Some LINE_END => fail AssertFailed
        | Some UNKNOWN | Some EMPTY =>
            MoveToArgumentOffset_loop fuel' argumentIndex movedOver' setDepth
        | Some SET_BEGIN =>
            MoveToArgumentOffset_loop fuel' argumentIndex movedOver' (setDepth + 1)
        | Some SET_END =>
            if setDepth - 1 =? 0 then ret tt
            else MoveToArgumentOffset_loop fuel' argumentIndex movedOver' (setDepth - 1)
        | Some STRING | Some ENUM | Some LABEL =>
            let* length := Read_uint8 in
            AdvanceRead length ;;
            MoveToArgumentOffset_loop fuel' argumentIndex movedOver' setDepth
        | Some REF =>
            let* ref := Read_uint32 in
            MoveToArgumentOffset_loop fuel' argumentIndex movedOver' setDepth
        | Some REAL =>
            Read_double ;;
            MoveToArgumentOffset_loop fuel' argumentIndex movedOver' setDepth
        | None =>
            MoveToArgumentOffset_loop fuel' argumentIndex movedOver' setDepth
        end
  end.

Definition tape_MoveToArgumentOffset (offset argumentIndex : Z) : SE DynamicTape unit :=
  tape_MoveTo offset ;;
  let* t := get in
  MoveToArgumentOffset_loop (tape_fuel t) argumentIndex (-1) 0.

Definition MoveToArgumentOffset (line : IfcLine) (argumentIndex : Z) : SE IfcLoader unit :=
  on_tape (tape_MoveToArgumentOffset (tapeOffset line) argumentIndex).

Definition MoveToLine (lineID : Z) : SE IfcLoader unit :=
  let* l := GetLine lineID in on_tape (tape_MoveTo (tapeOffset l)).

Definition MoveTo (offset : Z) : SE IfcLoader unit :=
  on_tape (tape_MoveTo offset).

Definition MoveToLineArgument (lineID argumentIndex : Z) : SE IfcLoader unit :=
  let* l := GetLine lineID in MoveToArgumentOffset l argumentIndex.

Definition tape_GetStringArgument : SE DynamicTape (list Z) :=
  Read_char ;; ReadStringView.

Definition GetStringArgument : SE IfcLoader (list Z) :=
  on_tape tape_GetStringArgument.

Definition GetStringViewArgument : SE IfcLoader (list Z) :=
  on_tape (Read_char ;; ReadStringView).

Definition GetDoubleArgument : SE IfcLoader Z :=
  on_tape (Read_char ;; Read_double).

Definition GetDoubleArgumentAt (tapeOffset : Z) : SE IfcLoader Z :=
  on_tape (tape_MoveTo tapeOffset) ;; GetDoubleArgument.

Definition tape_GetRefArgument : SE DynamicTape Z :=
  Read_char ;; Read_uint32.

Definition GetRefArgument : SE IfcLoader Z :=
  on_tape tape_GetRefArgument.

Definition GetRefArgumentAt (tapeOffset : Z) : SE IfcLoader Z :=
  on_tape (tape_MoveTo tapeOffset) ;; GetRefArgument.

Definition GetTokenType : SE IfcLoader Z :=
  on_tape Read_char.

Definition Reverse : SE IfcLoader unit :=
  on_tape tape_Reverse.

(** The body of [while (true)] in [GetSetArgument].  [offset] is a
    [uint32_t] copy of the read offset. *)
Fixpoint GetSetArgument_loop (fuel : nat) (depth : Z) (tapeOffsets : list Z)
  : SE DynamicTape (list Z) :=
  match fuel with
  | O => fail OutOfFuel
  | S fuel' =>
      let* pos := tape_GetReadOffset in
      let offset := wrap32 pos in
      let* c := Read_char in
      let continue (depth : Z) (tapeOffsets : list Z) :=
        if depth =? 0 then ret tapeOffsets
        else GetSetArgument_loop fuel' depth tapeOffsets in
      if is_tag c SET_BEGIN then continue (depth + 1) tapeOffsets
      else if is_tag c SET_END then continue (depth - 1) tapeOffsets
      else
        let tapeOffsets := tapeOffsets ++ [offset] in
        if is_tag c REAL then Read_double ;; continue depth tapeOffsets
        else if is_tag c REF then Read_uint32 ;; continue depth tapeOffsets
        else if is_tag c STRING then
          (let* length := Read_uint8 in AdvanceRead length ;; continue depth tapeOffsets)
        else if is_tag c LABEL then
          (let* length := Read_uint8 in AdvanceRead length ;; continue depth tapeOffsets)
        else fail AssertFailed
  end.

Definition tape_GetSetArgument : SE DynamicTape (list Z) :=
  Read_char ;;
  let* t := get in
  GetSetArgument_loop (tape_fuel t) 1 [].

Definition GetSetArgument : SE IfcLoader (list Z) :=
  on_tape tape_GetSetArgument.

(** ** The loader: writing line records *)

Definition UpdateLineTape (expressID type start end_ : Z) : SE IfcLoader unit :=
  let* pos := on_tape tape_GetTotalSize in
  let* md := get_meta in
  (* new line? *)
  (if (Z.of_nat (length (expressIDToLine md)) <=? expressID)
      || (default 0 (expressIDToLine md !! Z.to_nat expressID) =? 0)
   then
     (* allocate some space *)
     let e2l := resize (Z.to_nat (wrap32 (expressID * 2))) 0 (expressIDToLine md) in
     (* create line object *)
     let lineID := Z.of_nat (length (lines md)) in
     let lines1 := lines md ++ [mkLine 0 0 0 0 0] in
     (* create a line ID *)
     let* e2l := vec_set e2l expressID lineID in
     let* line := vec_at lines1 lineID in
     (* fill line data *)
     let line := mkLine expressID lineID type (tapeOffset line) (tapeEnd line) in
     let* lines2 := vec_set lines1 lineID line in
     put_meta (set_ifcTypeToLineID (set_expressIDToLine (set_lines md lines2) e2l)
                 (map_push (ifcTypeToLineID md) type lineID))
   else ret tt) ;;
  let* md := get_meta in
  let* lineID := vec_at (expressIDToLine md) expressID in
  let* line := vec_at (lines md) lineID in
  let line := (let 'mkLine id index type _ _ := line in mkLine id index type start end_) in
  let* lines' := vec_set (lines md) lineID line in
  put_meta (set_lines md lines').

Definition CopyTapeForExpressLine (expressID : Z) : SE IfcLoader (list Z) :=
  let* lineID := ExpressIDToLineID expressID in
  let* l := GetLine lineID in
  let* s := get in
  ret (take (Z.to_nat (tapeEnd l) - Z.to_nat (tapeOffset l))
         (drop (Z.to_nat (tapeOffset l)) (tape_data (_tape s)))).

(** ** The loader: unit scaling *)

Definition ConvertPrefix (prefix : string) : Z :=
  if String.eqb prefix "" then F64.of_decimal 1 0
  else if String.eqb prefix "EXA" then F64.of_decimal 1 18
  else if String.eqb prefix "PETA" then F64.of_decimal 1 15
  else if String.eqb prefix "TERA" then F64.of_decimal 1 12
  else if String.eqb prefix "GIGA" then F64.of_decimal 1 9
  else if String.eqb prefix "MEGA" then F64.of_decimal 1 6
  else if String.eqb prefix "KILO" then F64.of_decimal 1 3
  else if String.eqb prefix "HECTO" then F64.of_decimal 1 2
  else if String.eqb prefix "DECA" then F64.of_decimal 10 0
  else if String.eqb prefix "DECI" then F64.of_decimal 1 (-1)
  else if String.eqb prefix "CENTI" then F64.of_decimal 1 (-2)
  else if String.eqb prefix "MILLI" then F64.of_decimal 1 (-3)
  else if String.eqb prefix "MICRO" then F64.of_decimal 1 (-6)
  else if String.eqb prefix "NANO" then F64.of_decimal 1 (-9)
  else if String.eqb prefix "PICO" then F64.of_decimal 1 (-12)
  else if String.eqb prefix "FEMTO" then F64.of_decimal 1 (-15)
  else if String.eqb prefix "ATTO" then F64.of_decimal 1 (-18)
  else F64.of_decimal 1 0.

Section WithSchema.
Variable sch : Schema.

(** The body of the loop over the unit assignment's set. *)
Definition ReadLinearScalingFactor_unit (unitID : Z) : SE IfcLoader unit :=
  let* unitRef := GetRefArgumentAt unitID in
  let* lineID := ExpressIDToLineID unitRef in
  let* line := GetLine lineID in
  if ifcType line =? IFCSIUNIT sch then
    MoveToArgumentOffset line 1 ;;
    let* unitType := GetStringArgument in
    MoveToArgumentOffset line 2 ;;
    let* t := GetTokenType in
    let* unitPrefix :=
      (if t =? tag_of ENUM then Reverse ;; GetStringArgument else ret []) in
    MoveToArgumentOffset line 3 ;;
    let* unitName := GetStringArgument in
    if String.eqb (string_of_bytes unitType) "LENGTHUNIT"
       && String.eqb (string_of_bytes unitName) "METRE"
    then
      let prefix := ConvertPrefix (string_of_bytes unitPrefix) in
      let* md := get_meta in
      put_meta (set_linearScalingFactor md prefix)
    else ret tt
  else ret tt.

Definition ReadLinearScalingFactor : SE IfcLoader unit :=
  let* projects := GetExpressIDsWithType (IFCPROJECT sch) in
  match projects with
  | [projectEID] =>
      let* lineID := ExpressIDToLineID projectEID in
      let* line := GetLine lineID in
      MoveToArgumentOffset line 8 ;;
      let* unitsID := GetRefArgument in
      let* unitsLineID := ExpressIDToLineID unitsID in
      let* unitsLine := GetLine unitsLineID in
      MoveToArgumentOffset unitsLine 0 ;;
      let* unitIds := GetSetArgument in
      forM_ unitIds ReadLinearScalingFactor_unit
  | _ =>
      (* projects.size() != 1: a message is printed *)
      ret tt
  end.

(** ** The loader: relationship passes *)

Definition PopulateRelVoidsMap : SE IfcLoader unit :=
  let* relVoids := GetExpressIDsWithType (IFCRELVOIDSELEMENT sch) in
  forM_ relVoids (fun relVoidID =>
    let* lineID := ExpressIDToLineID relVoidID in
    let* line := GetLine lineID in
    MoveToArgumentOffset line 4 ;;
    let* relatingBuildingElement := GetRefArgument in
    let* relatedOpeningElement := GetRefArgument in
    let* md := get_meta in
    put_meta (set_relVoids md
      (map_push (_relVoids md) relatingBuildingElement relatedOpeningElement))).

Definition PopulateRelAggregatesMap : SE IfcLoader unit :=
  let* relVoids := GetExpressIDsWithType (IFCRELAGGREGATES sch) in
  forM_ relVoids (fun relVoidID =>
    let* lineID := ExpressIDToLineID relVoidID in
    let* line := GetLine lineID in
    MoveToArgumentOffset line 4 ;;
    let* relatingBuildingElement := GetRefArgument in
    let* aggregates := GetSetArgument in
    forM_ aggregates (fun aggregate =>
      let* aggregateID := GetRefArgumentAt aggregate in
      let* md := get_meta in
      put_meta (set_relAggregates md
        (map_push (_relAggregates md) relatingBuildingElement aggregateID)))).

(** The body of the loop over the IFCSTYLEDITEM lines. *)
Definition PopulateStyledItemMap_item (styledItemID : Z) : SE IfcLoader unit :=
  let* lineID := ExpressIDToLineID styledItemID in
  let* line := GetLine lineID in
  MoveToArgumentOffset line 0 ;;
  let* t := GetTokenType in
  if t =? tag_of REF then
    Reverse ;;
    let* representationItem := GetRefArgument in
    let* lineID := ExpressIDToLineID representationItem in
    let* line := GetLine lineID in
    let* styleAssignments := GetSetArgument in
    forM_ styleAssignments (fun styleAssignment =>
      let* styleAssignmentID := GetRefArgumentAt styleAssignment in
      let* md := get_meta in
      put_meta (set_styledItems md
        (map_push (_styledItems md) representationItem (styledItemID, styleAssignmentID))))
  else ret tt.

Definition PopulateStyledItemMap : SE IfcLoader unit :=
  let* styledItems := GetExpressIDsWithType (IFCSTYLEDITEM sch) in
  forM_ styledItems PopulateStyledItemMap_item.

Definition PopulateRelMaterialsMap : SE IfcLoader unit :=
  let* styledItems := GetExpressIDsWithType (IFCRELASSOCIATESMATERIAL sch) in
  forM_ styledItems (fun styledItemID =>
    let* lineID := ExpressIDToLineID styledItemID in
    let* line := GetLine lineID in
    MoveToArgumentOffset line 5 ;;
    let* materialSelect := GetRefArgument in
    MoveToArgumentOffset line 4 ;;
    let* RelatedObjects := GetSetArgument in
    forM_ RelatedObjects (fun ifcRoot =>
      let* ifcRootID := GetRefArgumentAt ifcRoot in
      let* md := get_meta in
      put_meta (set_relMaterials md
        (map_push (_relMaterials md) ifcRootID (styledItemID, materialSelect))))) ;;
  let* matDefs := GetExpressIDsWithType (IFCMATERIALDEFINITIONREPRESENTATION sch) in
  forM_ matDefs (fun styledItemID =>
    let* lineID := ExpressIDToLineID styledItemID in
    let* line := GetLine lineID in
    MoveToArgumentOffset line 2 ;;
    let* representations := GetSetArgument in
    MoveToArgumentOffset line 3 ;;
    let* material := GetRefArgument in
    forM_ representations (fun representation =>
      let* representationID := GetRefArgumentAt representation in
      let* md := get_meta in
      put_meta (set_materialDefinitions md
        (map_push (_materialDefinitions md) material (styledItemID, representationID))))).

(** ** The loader: loading a file

    [Tokenizer] and [Parser] are not part of the two source files; they are
    constructed from references to [_tape] and to [_tape] and [_metaData],
    which is all of the loader they can reach. *)
Variable Tokenize : list Z -> SE DynamicTape Z.
Variable ParseTape : Z -> SE (DynamicTape * IfcMetaData) unit.

Definition LoadFile (content : list Z) : SE IfcLoader unit :=
  let* numLines := on_tape (Tokenize content) in
  (fun s => match ParseTape numLines (_tape s, _metaData s) with
            | Ok (_, (t, m)) => Ok (tt, with_meta (with_tape s t) m)
            | Err e => Err e
            end) ;;
  PopulateRelVoidsMap ;;
  PopulateRelAggregatesMap ;;
  PopulateStyledItemMap ;;
  PopulateRelMaterialsMap ;;
  ReadLinearScalingFactor.

End WithSchema.

(** ** The loader: serialisation *)

Definition endl : string := String (ascii_of_nat 10) EmptyString.

Definition show_uint32 (v : Z) : string :=
  DecimalString.NilZero.string_of_uint (N.to_uint (Z.to_N v)).

Section Dump.
(** [file << d] for a [double] under a precision: the text is produced by
    the C++ library. *)
Variable show_double : Z -> Z -> string.

(** The inner [while (!_tape.AtEnd())] of [DumpAsIFC]; [t] and [prev] are
    kept as the bytes read. *)
Fixpoint DumpAsIFC_tokens (fuel : nat) (precision : Z) (file : string)
    (newLine insideSet : bool) (prev : Z) : SE DynamicTape string :=
  match fuel with
  | O => fail OutOfFuel
  | S fuel' =>
      let* atEnd := tape_AtEnd in
      if atEnd then ret file
      else
        let* t := Read_char in
        let file :=
          if negb (t =? tag_of SET_END) && negb (t =? tag_of LINE_END)
             && insideSet && negb (prev =? tag_of SET_BEGIN)
             && negb (prev =? tag_of LABEL) && negb (prev =? tag_of LINE_END)
          then (file +:+ ",")%string else file in
        if t =? tag_of LINE_END then ret (file +:+ ";" +:+ endl)%string
        else
          let next (file : string) (insideSet : bool) :=
            DumpAsIFC_tokens fuel' precision file false insideSet t in
          match tokenType t with
          | Some UNKNOWN => next (file +:+ "*")%string insideSet
          | Some EMPTY => next (file +:+ "$")%string insideSet
          | Some SET_BEGIN => next (file +:+ "(")%string true
          | Some SET_END => next (file +:+ ")")%string insideSet
          | Some STRING =>
              let* view := ReadStringView in
              next (file +:+ "'" +:+ string_of_bytes view +:+ "'")%string insideSet
          | Some ENUM =>
              let* view := ReadStringView in
              next (file +:+ "." +:+ string_of_bytes view +:+ ".")%string insideSet
          | Some LABEL =>
              let* view := ReadStringView in
              next (file +:+ string_of_bytes view)%string insideSet
          | Some REF =>
              let* ref := Read_uint32 in
              let file := (file +:+ "#" +:+ show_uint32 ref)%string in
              next (if newLine then (file +:+ "=")%string else file) insideSet
          | Some REAL =>
              let* d := Read_double in
              next (file +:+ show_double precision d)%string insideSet
          | _ => next file insideSet
          end
  end.

Fixpoint DumpAsIFC_lines (precision : Z) (ls : list IfcLine) (file : string)
  : SE DynamicTape string :=
  match ls with
  | [] => ret file
  | line :: ls' =>
      tape_MoveTo (tapeOffset line) ;;
      let* t := get in
      let* file := DumpAsIFC_tokens (tape_fuel t) precision file true false (tag_of EMPTY) in
      DumpAsIFC_lines precision ls' file
  end.

(** [std::setprecision(std::numeric_limits<double>::digits10 + 1)]. *)
Definition dump_precision : Z := F64.digits10 + 1.

Definition DumpAsIFC : SE IfcLoader string :=
  let precision := dump_precision in
  let description := "no description"%string in
  let name := "no name"%string in
  let file := EmptyString in
  let file := (file +:+ "ISO-10303-21;" +:+ endl)%string in
  let file := (file +:+ "HEADER;" +:+ endl)%string in
  let file := (file +:+ "FILE_DESCRIPTION(('" +:+ description +:+ "), '2;1');" +:+ endl)%string in
  let file := (file +:+ "FILE_NAME('" +:+ name +:+ "', '', (''), (''), 'web-ifc-export');"
               +:+ endl)%string in
  let file := (file +:+ "FILE_SCHEMA(('IFC2X3'));" +:+ endl)%string in
  let file := (file +:+ "ENDSEC;" +:+ endl)%string in
  let file := (file +:+ "DATA;" +:+ endl)%string in
  let* md := get_meta in
  let* file := on_tape (DumpAsIFC_lines precision (lines md) file) in
  ret (file +:+ "ENDSEC;" +:+ endl +:+ "END-ISO-10303-21;")%string.

End Dump.

End Loader.

(** ** Argument values and their layout on the tape *)

(** Modelled from the spec: the token stream of section 3 (the tokenizer
    that writes it is not part of the two source files).  Each token is one
    tag byte followed by its payload: a [u8] length and that many bytes for
    STRING, LABEL and ENUM, a little-endian [f64] for REAL, a little-endian
    [u32] for REF, nothing for the others. *)
#[local] Unset Elimination Schemes.
Inductive Arg : Type :=
  | AUnknown
  | AEmpty
  | AString (s : list Z)
  | ALabel (s : list Z)
  | AEnum (s : list Z)
  | AReal (bits : Z)
  | ARef (h : Z)
  | ASet (xs : list Arg).
#[local] Set Elimination Schemes.

Fixpoint encode_arg (a : Arg) : list Z :=
  match a with
  | AUnknown => [tag_of UNKNOWN]
  | AEmpty => [tag_of EMPTY]
  | AString s => tag_of STRING :: Z.of_nat (length s) :: s
  | ALabel s => tag_of LABEL :: Z.of_nat (length s) :: s
  | AEnum s => tag_of ENUM :: Z.of_nat (length s) :: s
  | AReal bits => tag_of REAL :: le_encode 8 bits
  | ARef h => tag_of REF :: le_encode 4 h
  | ASet xs => tag_of SET_BEGIN :: flat_map encode_arg xs ++ [tag_of SET_END]
  end.

Definition encode_args (xs : list Arg) : list Z := flat_map encode_arg xs.

(** Tokens of an argument (a set counts its two brackets). *)
Fixpoint ntok (a : Arg) : nat :=
  match a with
  | ASet xs => S (S (list_sum (map ntok xs)))
  | _ => 1
  end.

Definition ntoks (xs : list Arg) : nat := list_sum (map ntok xs).

(** Payloads fit their fields. *)
Fixpoint arg_wf (a : Arg) : bool :=
  match a with
  | AUnknown | AEmpty => true
  | AString s | ALabel s | AEnum s => Z.of_nat (length s) <? 256
  | AReal bits => (0 <=? bits) && (bits <? 2 ^ 64)
  | ARef h => (0 <=? h) && (h <? 2 ^ 32)
  | ASet xs => forallb arg_wf xs
  end.

Definition is_set (a : Arg) : bool :=
  match a with ASet _ => true | _ => false end.

(** The kinds of element [GetSetArgument] has a branch for. *)
Fixpoint set_readable (a : Arg) : bool :=
  match a with
  | AReal _ | ARef _ | AString _ | ALabel _ => true
  | ASet xs => forallb set_readable xs
  | AUnknown | AEmpty | AEnum _ => false
  end.

(** Offsets of the top-level elements of a list of arguments laid out from
    [base]. *)
Fixpoint top_offsets (base : nat) (xs : list Arg) : list Z :=
  match xs with
  | [] => []
  | x :: xs' => Z.of_nat base :: top_offsets (base + length (encode_arg x)) xs'
  end.

(** Offsets of the tokens that are not brackets, at every depth. *)
Fixpoint leaf_offsets (base : nat) (a : Arg) : list Z :=
  match a with
  | ASet xs =>
      (fix go (b : nat) (l : list Arg) : list Z :=
         match l with
         | [] => []
         | x :: l' => leaf_offsets b x ++ go (b + length (encode_arg x))%nat l'
         end) (S base) xs
  | _ => [Z.of_nat base]
  end.

Fixpoint leaf_offsets_list (base : nat) (xs : list Arg) : list Z :=
  match xs with
  | [] => []
  | x :: xs' => leaf_offsets base x ++ leaf_offsets_list (base + length (encode_arg x)) xs'
  end.

(** The line [l] carries the argument list [args].  Its [tapeOffset] is the
    offset of the opening bracket of the argument list (section 3 of the
    spec), or that of the tokens written before it (the write path of
    section 4.7 records the offset of the line's REF): [pre] are the tokens
    between [tapeOffset] and the bracket, none of them a bracket. *)
Definition leaf_wf (a : Arg) : bool := negb (is_set a) && arg_wf a.

Definition line_has_args (data : list Z) (l : IfcLine) (pre args : list Arg) : Prop :=
  0 <= tapeOffset l /\
  forallb leaf_wf pre = true /\
  exists post,
    drop (Z.to_nat (tapeOffset l)) data
    = encode_args pre ++ encode_arg (ASet args) ++ post.

(** Offset of the opening bracket of the argument list. *)
Definition args_start (l : IfcLine) (pre : list Arg) : nat :=
  (Z.to_nat (tapeOffset l) + length (encode_args pre))%nat.

(** Offset of argument [i] of a line. *)
Definition arg_offset (l : IfcLine) (pre args : list Arg) (i : nat) : nat :=
  (args_start l pre + 1 + length (encode_args (take i args)))%nat.

(** The line record of a handle: [GetLine(ExpressIDToLineID(h))]. *)
Definition line_of (md : IfcMetaData) (h : Z) : option IfcLine :=
  if h <? 0 then None
  else match expressIDToLine md !! Z.to_nat h with
       | Some i => if i <? 0 then None else lines md !! Z.to_nat i
       | None => None
       end.

(** ** Vocabulary of the proofs *)

Section ProofVocabulary.
Import Loader.

  (** [movedOver] after the test at the head of the loop of [MoveToArgumentOffset]. *)
Definition moved_next (movedOver setDepth : Z) : Z :=
    if setDepth =? 1 then movedOver + 1 else movedOver.

Definition arrived (argumentIndex movedOver setDepth : Z) : bool :=
    (setDepth =? 1) && (moved_next movedOver setDepth =? argumentIndex).

  (** Passing over one argument inside a nested set. *)
Definition passes_nested (a : Arg) : Prop :=
    arg_wf a = true ->
    forall fuel i m d data p post,
      2 <= d ->
      drop p data = encode_arg a ++ post ->
      MoveToArgumentOffset_loop (ntok a + fuel) i m d (mkTape data p)
      = MoveToArgumentOffset_loop fuel i m d (mkTape data (p + length (encode_arg a))).

  (** Recording the tokens of one element of a set. *)
Definition records_leaves (a : Arg) : Prop :=
    arg_wf a = true -> set_readable a = true ->
    forall fuel depth acc data p post,
      1 <= depth ->
      drop p data = encode_arg a ++ post ->
      GetSetArgument_loop (ntok a + fuel) depth acc (mkTape data p)
      = GetSetArgument_loop fuel depth (acc ++ map wrap32 (leaf_offsets p a))
          (mkTape data (p + length (encode_arg a))).

Definition within (b n : nat) (z : Z) : Prop :=
    Z.of_nat b <= z < Z.of_nat (b + n).

  (** The token at offset [o] of the tape is the argument [x]. *)
Definition element_at (data : list Z) (o : Z) (x : Arg) : Prop :=
    0 <= o /\ exists post, drop (Z.to_nat o) data = encode_arg x ++ post.

(** The loader with its cursor moved to [p]. *)
Definition at_cursor (s : IfcLoader) (p : nat) : IfcLoader :=
  with_tape s (tape_at (_tape s) p).

(** A handle fits [uint32_t]. *)
Definition is_u32 (h : Z) : Prop := 0 <= h < 2 ^ 32.

(** What an IFCSTYLEDITEM line holds: at argument 0 a REF to a
    representation item and at argument 1 a set of REFs to style
    assignments, or at argument 0 something that is not a REF. *)
Inductive StyledItemLine : Type :=
  | Styled (representationItem : Z) (styleAssignments : list Z)
  | Unstyled.

Definition styled_item_line (data : list Z) (md : IfcMetaData)
    (styledItemID : Z) (d : StyledItemLine) : Prop :=
  exists l pre args,
    line_of md styledItemID = Some l /\
    line_has_args data l pre args /\
    match d with
    | Styled rep assigns =>
        args !! 0%nat = Some (ARef rep) /\
        args !! 1%nat = Some (ASet (map ARef assigns)) /\
        is_u32 rep /\ Forall is_u32 assigns /\
        is_Some (line_of md rep)
    | Unstyled =>
        exists a, args !! 0%nat = Some a /\ hd 0 (encode_arg a) <> tag_of REF
    end.

(** The pairs one IFCSTYLEDITEM line adds. *)
Definition push_all {A : Type} (k : Z) (xs : list A) (m : gmap Z (list A)) : gmap Z (list A) :=
  fold_left (fun m x => map_push m k x) xs m.

Definition styled_effect (m : gmap Z (list (Z * Z))) (item : Z * StyledItemLine)
  : gmap Z (list (Z * Z)) :=
  match item with
  | (styledItemID, Styled rep assigns) =>
      push_all rep (map (fun a => (styledItemID, a)) assigns) m
  | (_, Unstyled) => m
  end.

(** What a line referenced from the unit assignment holds: an IFCSIUNIT
    with its unit type (argument 1), prefix (argument 2, an ENUM or not) and
    name (argument 3), or a line of another type. *)
Inductive UnitLine : Type :=
  | SIUnit (unitType : list Z) (prefixArg : Arg) (unitName : list Z)
  | OtherUnit.

Definition unit_line (sch : Schema) (data : list Z) (md : IfcMetaData)
    (unitRef : Z) (u : UnitLine) : Prop :=
  exists l,
    line_of md unitRef = Some l /\
    match u with
    | SIUnit ty pa nm =>
        ifcType l = IFCSIUNIT sch /\
        exists pre args,
          line_has_args data l pre args /\
          args !! 1%nat = Some (AEnum ty) /\
          args !! 2%nat = Some pa /\
          args !! 3%nat = Some (AEnum nm) /\
          forallb arg_wf (take 4 args) = true
    | OtherUnit => ifcType l <> IFCSIUNIT sch
    end.

Definition prefix_of (pa : Arg) : string :=
  match pa with
  | AEnum p => string_of_bytes p
  | _ => EmptyString
  end.

Definition is_metre (u : UnitLine) : bool :=
  match u with
  | SIUnit ty _ nm =>
      String.eqb (string_of_bytes ty) "LENGTHUNIT"
      && String.eqb (string_of_bytes nm) "METRE"
  | OtherUnit => false
  end.

Definition unit_effect (factor : Z) (u : UnitLine) : Z :=
  match u with
  | SIUnit _ pa _ => if is_metre u then Loader.ConvertPrefix (prefix_of pa) else factor
  | OtherUnit => factor
  end.

(** The table of the spec, section 4.6: EXA..ATTO to 1e18..1e-18, the
    empty prefix to 1. *)
Definition si_prefixes : list (string * Z) :=
  [ ("EXA", 18); ("PETA", 15); ("TERA", 12); ("GIGA", 9); ("MEGA", 6);
    ("KILO", 3); ("HECTO", 2); ("DECA", 1); ("DECI", -1); ("CENTI", -2);
    ("MILLI", -3); ("MICRO", -6); ("NANO", -9); ("PICO", -12);
    ("FEMTO", -15); ("ATTO", -18) ]%string.

Definition tabled_multiplier (prefix : string) : option Z :=
  if String.eqb prefix "" then Some (F64.of_decimal 1 0)
  else match find (fun p => String.eqb prefix (fst p)) si_prefixes with
       | Some (_, e) => Some (F64.of_decimal 1 e)
       | None => None
       end.

(** The IFCPROJECT line: argument 8 is a REF to the unit assignment. *)
Definition project_line (data : list Z) (md : IfcMetaData) (project units : Z) : Prop :=
  exists l pre args,
    line_of md project = Some l /\
    line_has_args data l pre args /\
    args !! 8%nat = Some (ARef units) /\
    forallb arg_wf (take 8 args) = true.

(** The unit assignment: argument 0 is a set of REFs to units. *)
Definition unit_assignment_line (data : list Z) (md : IfcMetaData)
    (units : Z) (unitRefs : list Z) : Prop :=
  exists l pre args,
    line_of md units = Some l /\
    line_has_args data l pre args /\
    args !! 0%nat = Some (ASet (map ARef unitRefs)).

(** An IFCSIUNIT of unit type LENGTHUNIT and name METRE with the prefix
    argument [pa]. *)
Definition metre_unit (pa : Arg) : UnitLine :=
  SIUnit (bytes_of_string "LENGTHUNIT") pa (bytes_of_string "METRE").

End ProofVocabulary.

(** ** Construction and sample models *)

(** A fresh [IfcMetaData]; [linearScalingFactor] defaults to 1.0. *)
Definition empty_meta : IfcMetaData :=
  mkMeta [] [] ∅ ∅ ∅ ∅ ∅ ∅ (F64.of_decimal 1 0).

(** The constructor [IfcLoader(const LoaderSettings&)]. *)
Definition new_loader (s : LoaderSettings) : IfcLoader :=
  mkLoader false (mkTape [] 0) s empty_meta.

(** An operation faults. *)
Definition faults {A : Type} (r : Res A) : Prop := exists e, r = Err e.

Module Samples.

(** The tokens of [#1=X('a');]: REF 1 and LABEL X from offset 0, and at
    offset 8 the argument list with its single argument.  The line record
    starts at the REF, as the write path leaves it. *)
Definition one_arg_pre : list Arg := [ARef 1; ALabel [88]].

Definition one_arg_args : list Arg := [AString [97]].

Definition one_arg_tape : list Z :=
  encode_args one_arg_pre ++ encode_arg (ASet one_arg_args) ++ [tag_of LINE_END].

Definition one_arg_line : IfcLine := mkLine 1 0 0 0 14.

Definition one_arg_loader : IfcLoader :=
  mkLoader false (mkTape one_arg_tape 0) default_settings
    (mkMeta [one_arg_line] [0; 0] {[ 0 := [0] ]} ∅ ∅ ∅ ∅ ∅ (F64.of_decimal 1 0)).

(** The tokens of [#1=X((#2,(#3,#4)));]: argument 0 is a set whose second
    element is itself a set. *)
Definition nested_elems : list Arg := [ARef 2; ASet [ARef 3; ARef 4]].

Definition nested_tape : list Z :=
  encode_arg (ARef 1) ++ encode_arg (ALabel [88])
  ++ encode_arg (ASet [ASet nested_elems]) ++ [tag_of LINE_END].

(** The cursor stands on argument 0, at offset 9. *)
Definition nested_loader : IfcLoader :=
  mkLoader false (mkTape nested_tape 9) default_settings
    (mkMeta [mkLine 1 0 0 0 30] [0; 0] {[ 0 := [0] ]} ∅ ∅ ∅ ∅ ∅ (F64.of_decimal 1 0)).

(** Sample type codes (those of the generated ifc2x4.h, as far as they are
    known here; the theorems do not depend on the values). *)
Definition schema : Schema :=
  mkSchema 103090709 448429030 1401173127 160246688 3958052878 2655215786 2022407955.

(** One line on the tape: REF, LABEL, the argument list, LINE_END. *)
Definition encode_line (h : Z) (label : string) (args : list Arg) : list Z :=
  encode_arg (ARef h) ++ encode_arg (ALabel (bytes_of_string label))
  ++ encode_arg (ASet args) ++ [tag_of LINE_END].

Definition str (s : string) : Arg := AString (bytes_of_string s).
Definition enum (s : string) : Arg := AEnum (bytes_of_string s).

(** Scenario S1 of the spec: a project whose unit assignment holds one SI
    unit, the millimetre. *)
Definition s1_project_args : list Arg :=
  [str "g"; AEmpty; str "p"; AEmpty; AEmpty; AEmpty; AEmpty; ASet [ARef 2]; ARef 3].

Definition s1_context_args : list Arg :=
  [AEmpty; AEmpty; AReal (F64.of_decimal 3 0); AReal (F64.of_decimal 1 (-5)); AEmpty; AEmpty].

Definition s1_units_args : list Arg := [ASet [ARef 4]].

Definition s1_siunit_args : list Arg :=
  [AUnknown; enum "LENGTHUNIT"; enum "MILLI"; enum "METRE"].

Definition s1_tape : list Z :=
  encode_line 1 "IFCPROJECT" s1_project_args
  ++ encode_line 2 "IFCGEOMETRICREPRESENTATIONCONTEXT" s1_context_args
  ++ encode_line 3 "IFCUNITASSIGNMENT" s1_units_args
  ++ encode_line 4 "IFCSIUNIT" s1_siunit_args.

(** The line table as the parser of section 4.3 leaves it: [tapeOffset] is
    the offset of the opening bracket of each line. *)
Definition s1_lines : list IfcLine :=
  [ mkLine 1 0 (IFCPROJECT schema) 17 43;
    mkLine 2 1 0 83 108;
    mkLine 3 2 0 132 142;
    mkLine 4 3 (IFCSIUNIT schema) 158 188 ].

Definition s1_loader : IfcLoader :=
  mkLoader false (mkTape s1_tape 0) default_settings
    (mkMeta s1_lines [0; 0; 1; 2; 3]
       {[ IFCPROJECT schema := [0]; 0 := [1; 2]; IFCSIUNIT schema := [3] ]}
       ∅ ∅ ∅ ∅ ∅ (F64.of_decimal 1 0)).

(** Two IFCSTYLEDITEM lines: [#20=IFCSTYLEDITEM(#10,(#30,#31),$);] styles
    the item [#10]; [#21=IFCSTYLEDITEM($,(#32),$);] has no item. *)
Definition styled_args_20 : list Arg := [ARef 10; ASet [ARef 30; ARef 31]; AEmpty].
Definition styled_args_21 : list Arg := [AEmpty; ASet [ARef 32]; AEmpty].
Definition styled_pre (h : Z) : list Arg :=
  [ARef h; ALabel (bytes_of_string "IFCSTYLEDITEM")].

Definition styled_tape : list Z :=
  encode_line 10 "IFCEXTRUDEDAREASOLID" [AEmpty]
  ++ encode_line 20 "IFCSTYLEDITEM" styled_args_20
  ++ encode_line 21 "IFCSTYLEDITEM" styled_args_21.

(** Line records as the write path leaves them: [tapeOffset] is the offset
    of the line's REF. *)
Definition styled_lines : list IfcLine :=
  [ mkLine 10 0 0 0 31;
    mkLine 20 1 (IFCSTYLEDITEM schema) 31 72;
    mkLine 21 2 (IFCSTYLEDITEM schema) 72 104 ].

Definition styled_loader : IfcLoader :=
  mkLoader false (mkTape styled_tape 0) default_settings
    (mkMeta styled_lines
       (replicate 10 0 ++ [0] ++ replicate 9 0 ++ [1; 2])
       {[ 0 := [0]; IFCSTYLEDITEM schema := [1; 2] ]}
       ∅ ∅ ∅ ∅ ∅ (F64.of_decimal 1 0)).

(** Stand-ins for the collaborators that are not part of the two source
    files. *)
Definition no_tokenizer (content : list Z) : SE DynamicTape Z := ret 0.
Definition no_parser (numLines : Z) : SE (DynamicTape * IfcMetaData) unit := ret tt.
Definition no_doubles (precision bits : Z) : string := EmptyString.

End Samples.

(** ** The public operations of [IfcLoader] as one type

    Every public member function, and, for the members that hand out a
    mutable reference ([GetTape], [GetLine], the relationship maps and the
    vector of [GetLineIDsWithType]), the write a caller can make through
    it. *)
Inductive LoaderOp : Type :=
  | OpPushDataToTape (data : list Z)
  | OpGetExpressIDsWithType (type : Z)
  | OpLoadFile (content : list Z)
  | OpReadLinearScalingFactor
  | OpPopulateRelVoidsMap
  | OpPopulateRelAggregatesMap
  | OpPopulateStyledItemMap
  | OpPopulateRelMaterialsMap
  | OpGetNumLines
  | OpGetLineIDsWithType (type : Z)
  | OpCopyTapeForExpressLine (expressID : Z)
  | OpExpressIDToLineID (expressID : Z)
  | OpGetLine (lineID : Z)
  | OpGetLinearScalingFactor
  | OpIsOpen
  | OpMoveToArgumentOffset (line : IfcLine) (argumentIndex : Z)
  | OpMoveToLine (lineID : Z)
  | OpMoveTo (offset : Z)
  | OpMoveToLineArgument (lineID argumentIndex : Z)
  | OpGetStringArgument
  | OpGetStringViewArgument
  | OpGetDoubleArgument
  | OpGetDoubleArgumentAt (tapeOffset : Z)
  | OpGetRefArgument
  | OpGetRefArgumentAt (tapeOffset : Z)
  | OpGetTokenType
  | OpReverse
  | OpUpdateLineTape (expressID type start end_ : Z)
  | OpGetSetArgument
  | OpDumpAsIFC
  | OpGetSettings
  | OpDumpToDisk
  (* writes through the references handed out *)
  | OpWriteTape (t : DynamicTape)
  | OpWriteLine (lineID : Z) (l : IfcLine)
  | OpWriteLineIDsWithType (type : Z) (v : list Z)
  | OpWriteRelVoids (m : gmap Z (list Z))
  | OpWriteRelAggregates (m : gmap Z (list Z))
  | OpWriteStyledItems (m : gmap Z (list (Z * Z)))
  | OpWriteRelMaterials (m : gmap Z (list (Z * Z)))
  | OpWriteMaterialDefinitions (m : gmap Z (list (Z * Z))).

Section RunOps.
Variable sch : Schema.
Variable Tokenize : list Z -> SE DynamicTape Z.
Variable ParseTape : Z -> SE (DynamicTape * IfcMetaData) unit.
Variable show_double : Z -> Z -> string.

Definition skip {A : Type} (m : SE IfcLoader A) : SE IfcLoader unit := m ;; ret tt.

Definition run_op (op : LoaderOp) : SE IfcLoader unit :=
  match op with
  | OpPushDataToTape data => Loader.PushDataToTape data
  | OpGetExpressIDsWithType type => skip (Loader.GetExpressIDsWithType type)
  | OpLoadFile content => Loader.LoadFile sch Tokenize ParseTape content
  | OpReadLinearScalingFactor => Loader.ReadLinearScalingFactor sch
  | OpPopulateRelVoidsMap => Loader.PopulateRelVoidsMap sch
  | OpPopulateRelAggregatesMap => Loader.PopulateRelAggregatesMap sch
  | OpPopulateStyledItemMap => Loader.PopulateStyledItemMap sch
  | OpPopulateRelMaterialsMap => Loader.PopulateRelMaterialsMap sch
  | OpGetNumLines => skip Loader.GetNumLines
  | OpGetLineIDsWithType type => skip (Loader.GetLineIDsWithType type)
  | OpCopyTapeForExpressLine expressID => skip (Loader.CopyTapeForExpressLine expressID)
  | OpExpressIDToLineID expressID => skip (Loader.ExpressIDToLineID expressID)
  | OpGetLine lineID => skip (Loader.GetLine lineID)
  | OpGetLinearScalingFactor => skip Loader.GetLinearScalingFactor
  | OpIsOpen => skip Loader.IsOpen
  | OpMoveToArgumentOffset line i => Loader.MoveToArgumentOffset line i
  | OpMoveToLine lineID => Loader.MoveToLine lineID
  | OpMoveTo offset => Loader.MoveTo offset
  | OpMoveToLineArgument lineID i => Loader.MoveToLineArgument lineID i
  | OpGetStringArgument => skip Loader.GetStringArgument
  | OpGetStringViewArgument => skip Loader.GetStringViewArgument
  | OpGetDoubleArgument => skip Loader.GetDoubleArgument
  | OpGetDoubleArgumentAt o => skip (Loader.GetDoubleArgumentAt o)
  | OpGetRefArgument => skip Loader.GetRefArgument
  | OpGetRefArgumentAt o => skip (Loader.GetRefArgumentAt o)
  | OpGetTokenType => skip Loader.GetTokenType
  | OpReverse => Loader.Reverse
  | OpUpdateLineTape expressID type start end_ =>
      Loader.UpdateLineTape expressID type start end_
  | OpGetSetArgument => skip Loader.GetSetArgument
  | OpDumpAsIFC => skip (Loader.DumpAsIFC show_double)
  | OpGetSettings => skip Loader.GetSettings
  | OpDumpToDisk => ret tt (* writes the tape to a file; the loader is not changed *)
  | OpWriteTape t => on_tape (put t)
  | OpWriteLine lineID l =>
      let* md := get_meta in
      let* ls := vec_set (lines md) lineID l in
      put_meta (set_lines md ls)
  | OpWriteLineIDsWithType type v =>
      let* md := get_meta in
      put_meta (set_ifcTypeToLineID md (<[type := v]> (ifcTypeToLineID md)))
  | OpWriteRelVoids m => let* md := get_meta in put_meta (set_relVoids md m)
  | OpWriteRelAggregates m => let* md := get_meta in put_meta (set_relAggregates md m)
  | OpWriteStyledItems m => let* md := get_meta in put_meta (set_styledItems md m)
  | OpWriteRelMaterials m => let* md := get_meta in put_meta (set_relMaterials md m)
  | OpWriteMaterialDefinitions m =>
      let* md := get_meta in put_meta (set_materialDefinitions md m)
  end.

Definition run_ops (ops : list LoaderOp) : SE IfcLoader unit := forM_ ops run_op.

End RunOps.

(** An operation leaves the private flag [_open] as it found it. *)
Definition preserves_open {A : Type} (m : SE IfcLoader A) : Prop :=
  forall s a s', m s = Ok (a, s') -> _open s' = _open s.

Module OpSamples.

(** A session: a line is pushed to the tape and recorded, the model is
    serialised, another file is loaded. *)
Definition session : list LoaderOp :=
  [ OpPushDataToTape Samples.one_arg_tape;
    OpUpdateLineTape 1 0 0 14;
    OpMoveToLineArgument 0 0;
    OpGetStringArgument;
    OpDumpAsIFC;
    OpWriteTape (mkTape [] 0);
    OpLoadFile [] ].

Definition run_session : Res (unit * IfcLoader) :=
  run_ops Samples.schema Samples.no_tokenizer Samples.no_parser Samples.no_doubles
    session (new_loader default_settings).

Definition after_session : IfcLoader :=
  Eval vm_compute in
    match run_session with
    | Ok (_, s) => s
    | Err _ => new_loader default_settings
    end.

End OpSamples.

(** ** The indices of the metadata *)

(** LineIDs of the lines of type [T] among [ls], the first of which has
    LineID [n]. *)
Fixpoint lineIDs_from (n : nat) (ls : list IfcLine) (T : Z) : list Z :=
  match ls with
  | [] => []
  | l :: ls' =>
      if ifcType l =? T then Z.of_nat n :: lineIDs_from (S n) ls' T
      else lineIDs_from (S n) ls' T
  end.

(** Invariant 3 of the spec, with the order: the type index lists, for each
    type, the LineIDs of the lines of that type in the order of the line
    table. *)
Definition type_index_ok (md : IfcMetaData) : Prop :=
  forall T, map_at (ifcTypeToLineID md) T = lineIDs_from 0 (lines md) T.

(** Invariant 2 of the spec; the entry 0 of [expressIDToLine] is the one
    [UpdateLineTape] reads as "no line". *)
Definition handle_map_ok (md : IfcMetaData) : Prop :=
  forall (H : nat) (i : Z),
    expressIDToLine md !! H = Some i ->
    0 <= i /\ (i <> 0 -> exists l, lines md !! Z.to_nat i = Some l /\ expressID l = Z.of_nat H).

(** The test "new line?" of [UpdateLineTape]. *)
Definition is_new_line (md : IfcMetaData) (h : Z) : bool :=
  (Z.of_nat (length (expressIDToLine md)) <=? h)
  || (default 0 (expressIDToLine md !! Z.to_nat h) =? 0).

(** The metadata after [UpdateLineTape] has appended a record. *)
Definition appended_line (md : IfcMetaData) (h type start end_ : Z) : IfcMetaData :=
  let n := Z.of_nat (length (lines md)) in
  mkMeta (lines md ++ [mkLine h n type start end_])
    (<[Z.to_nat h := n]> (resize (Z.to_nat (wrap32 (h * 2))) 0 (expressIDToLine md)))
    (map_push (ifcTypeToLineID md) type n)
    (_relVoids md) (_relAggregates md) (_styledItems md) (_relMaterials md)
    (_materialDefinitions md) (linearScalingFactor md).

(** The metadata after [UpdateLineTape] has rewritten the offsets of the
    record [i]. *)
Definition rewritten_line (md : IfcMetaData) (i : Z) (l : IfcLine) (start end_ : Z)
  : IfcMetaData :=
  set_lines md
    (<[Z.to_nat i := mkLine (expressID l) (lineIndex l) (ifcType l) start end_]> (lines md)).

Module WriteSamples.

Definition fresh : IfcLoader := new_loader default_settings.

(** Handles 1 and 50 are written, then handle 10. *)
Definition write_1_50 : SE IfcLoader unit :=
  Loader.UpdateLineTape 1 7 0 10 ;; Loader.UpdateLineTape 50 7 10 20.

Definition write_1_50_10 : SE IfcLoader unit :=
  write_1_50 ;; Loader.UpdateLineTape 10 7 20 30.

(** Handle 5 is written twice on a fresh model. *)
Definition write_5_twice : SE IfcLoader unit :=
  Loader.UpdateLineTape 5 7 0 10 ;; Loader.UpdateLineTape 5 7 10 20.

Definition state_after (m : SE IfcLoader unit) : IfcLoader :=
  match m fresh with
  | Ok (_, s) => s
  | Err _ => fresh
  end.

End WriteSamples.

(** ** STEP text *)

Module StepText.

Definition quote : ascii := ascii_of_nat 39.
Definition newline : ascii := ascii_of_nat 10.

(** The lines of a text. *)
Fixpoint split_lines_from (current : string) (s : string) : list string :=
  match s with
  | EmptyString => [current]
  | String c s' =>
      if Ascii.eqb c newline then current :: split_lines_from EmptyString s'
      else split_lines_from (current +:+ String c EmptyString) s'
  end.

Definition split_lines (s : string) : list string := split_lines_from EmptyString s.

(** Every single-quoted string of the text is closed: a quote opens a
    string, the next one closes it, and a doubled quote inside a string
    closes and reopens it. *)
Fixpoint quotes_closed_from (inside : bool) (s : string) : bool :=
  match s with
  | EmptyString => negb inside
  | String c s' =>
      if Ascii.eqb c quote then quotes_closed_from (negb inside) s'
      else quotes_closed_from inside s'
  end.

Definition quotes_closed (s : string) : bool := quotes_closed_from false s.

(** What [DumpAsIFC] writes for a model without lines. *)
Definition empty_dump_lines : list string :=
  [ "ISO-10303-21;";
    "HEADER;";
    "FILE_DESCRIPTION(('no description), '2;1');";
    "FILE_NAME('no name', '', (''), (''), 'web-ifc-export');";
    "FILE_SCHEMA(('IFC2X3'));";
    "ENDSEC;";
    "DATA;";
    "ENDSEC;";
    "END-ISO-10303-21;" ]%string.

End StepText.

(** ** [IfcAPI.WriteLine] (web-ifc-api.ts)

    JavaScript objects live in a heap and are handled by reference, so that
    a write through one reference is seen through every other: the caller's
    [lineObject] is a reference, and what [WriteLine] does to the object
    behind it is what the caller sees afterwards. *)

Module Js.

Inductive value : Type :=
  | VUndefined
  | VNull
  | VBool (b : bool)
  | VNum (n : Z)
  | VStr (s : string)
  | VRef (l : nat).

(** An object with its own enumerable properties in insertion order, or an
    array. *)
Inductive object : Type :=
  | JObject (props : list (string * value))
  | JArray (elems : list value).

(** [RawLineData]. *)
Record RawLineData : Type := mkRaw {
  ID : value;
  type : value;
  arguments : list value
}.

(** The heap, and the lines handed to the wasm module by
    [WriteRawLineData], oldest first. *)
Record State : Type := mkState {
  heap : list object;
  written : list RawLineData
}.

(** What ends a call early: a JavaScript [TypeError]; a reference to a
    cell the heap does not hold (not a state a program reaches); the
    recursion budget of the model used up. *)
Inductive Throw : Type :=
  | TypeError
  | NoSuchCell
  | NoFuel.

Inductive Outcome (A : Type) : Type :=
  | Returned (a : A)
  | Threw (e : Throw).

Arguments Returned {A} a.
Arguments Threw {A} e.

Definition M (A : Type) : Type := State -> Outcome (A * State).

Definition ret {A : Type} (a : A) : M A := fun s => Returned (a, s).

Definition bind {A B : Type} (m : M A) (k : A -> M B) : M B :=
  fun s => match m s with
           | Returned (a, s') => k a s'
           | Threw e => Threw e
           end.

Definition throw {A : Type} (e : Throw) : M A := fun _ => Threw e.

Declare Scope js_scope.
Notation "'let*' x ':=' m 'in' k" := (bind m (fun x => k))
  (at level 10, x pattern, m at level 100, k at level 200) : js_scope.
Notation "m ';;' k" := (bind m (fun _ => k))
  (at level 100, k at level 200, right associativity) : js_scope.
Local Open Scope js_scope.

(** [forEach], and a [for] loop over indices. *)
Fixpoint forM_ {A : Type} (xs : list A) (body : A -> M unit) : M unit :=
  match xs with
  | [] => ret tt
  | x :: xs' => body x ;; forM_ xs' body
  end.

Definition is_undefined (v : value) : bool :=
  match v with VUndefined => true | _ => false end.

(** ToBoolean. *)
Definition truthy (v : value) : bool :=
  match v with
  | VUndefined | VNull => false
  | VBool b => b
  | VNum n => negb (n =? 0)
  | VStr s => negb (String.eqb s "")
  | VRef _ => true
  end.

Fixpoint assoc (name : string) (props : list (string * value)) : option value :=
  match props with
  | [] => None
  | (k, v) :: props' => if String.eqb k name then Some v else assoc name props'
  end.

Fixpoint assoc_set (name : string) (x : value) (props : list (string * value))
  : list (string * value) :=
  match props with
  | [] => [(name, x)]
  | (k, v) :: props' =>
      if String.eqb k name then (k, x) :: props' else (k, v) :: assoc_set name x props'
  end.

(** [v.name] and [v[name]] for a property name: undefined when the object
    has no such property (arrays and primitives carry none of the names read
    here); a [TypeError] on null and undefined. *)
Definition get_prop (v : value) (name : string) : M value := fun st =>
  match v with
  | VUndefined | VNull => Threw TypeError
  | VRef l =>
      match heap st !! l with
      | Some (JObject props) => Returned (default VUndefined (assoc name props), st)
      | Some (JArray _) => Returned (VUndefined, st)
      | None => Threw NoSuchCell
      end
  | _ => Returned (VUndefined, st)
  end.

(** [v[name] = x] on an object. *)
Definition set_prop (v : value) (name : string) (x : value) : M unit := fun st =>
  match v with
  | VRef l =>
      match heap st !! l with
      | Some (JObject props) =>
          Returned (tt, mkState (<[l := JObject (assoc_set name x props)]> (heap st)) (written st))
      | _ => Threw TypeError
      end
  | _ => Threw TypeError
  end.

(** [Object.keys(v)].  Only an object is a line object: on anything else
    the call [lineObject.ToTape()] that ends [WriteLine] is a [TypeError]. *)
Definition object_keys (v : value) : M (list string) := fun st =>
  match v with
  | VRef l =>
      match heap st !! l with
      | Some (JObject props) => Returned (map fst props, st)
      | _ => Threw TypeError
      end
  | _ => Threw TypeError
  end.

(** The elements of [v] when [Array.isArray(v)]. *)
Definition array_elems (v : value) : M (option (list value)) := fun st =>
  match v with
  | VRef l =>
      match heap st !! l with
      | Some (JArray elems) => Returned (Some elems, st)
      | _ => Returned (None, st)
      end
  | _ => Returned (None, st)
  end.

(** [a[i]] on an array. *)
Definition get_index (a : value) (i : nat) : M value := fun st =>
  match a with
  | VRef l =>
      match heap st !! l with
      | Some (JArray elems) => Returned (default VUndefined (elems !! i), st)
      | _ => Threw TypeError
      end
  | _ => Threw TypeError
  end.

(** [a[i] = x] on an array, [i] within its length. *)
Definition set_index (a : value) (i : nat) (x : value) : M unit := fun st =>
  match a with
  | VRef l =>
      match heap st !! l with
      | Some (JArray elems) =>
          Returned (tt, mkState (<[l := JArray (<[i := x]> elems)]> (heap st)) (written st))
      | _ => Threw TypeError
      end
  | _ => Threw TypeError
  end.

(** A new object. *)
Definition alloc (o : object) : M value := fun st =>
  Returned (VRef (length (heap st)), mkState (heap st ++ [o]) (written st)).

(** The REF value [{type: 5, value: expressID}]. *)
Definition ref_object (expressID : value) : object :=
  JObject [("type", VNum 5); ("value", expressID)]%string.

(** [wasmModule.WriteLine(modelID, data.ID, data.type, data.arguments)]. *)
Definition WriteRawLineData (data : RawLineData) : M unit := fun st =>
  Returned (tt, mkState (heap st) (written st ++ [data])).

Section WriteLine.
(** [lineObject.ToTape()], a method of the generated schema classes (not
    part of the two source files), reads the object's properties. *)
Variable ToTape : list (string * value) -> list value.

Definition call_ToTape (v : value) : M (list value) := fun st =>
  match v with
  | VRef l =>
      match heap st !! l with
      | Some (JObject props) => Returned (ToTape props, st)
      | _ => Threw TypeError
      end
  | _ => Threw TypeError
  end.

(** [WriteLine(modelID, lineObject)]; [fuel] bounds the depth of the
    recursion.  No operation changes the length of an array, so the bound
    [property.length] of the inner loop is read once. *)
Fixpoint WriteLine (fuel : nat) (lineObject : value) : M unit :=
  match fuel with
  | O => throw NoFuel
  | S fuel' =>
      let* keys := object_keys lineObject in
      forM_ keys (fun propertyName =>
        let* property := get_prop lineObject propertyName in
        let* carried :=
          (if truthy property then get_prop property "expressID" else ret VUndefined) in
        if truthy property && negb (is_undefined carried) then
          (* this is a real object, we have to write it as well and convert to a handle *)
          WriteLine fuel' property ;;
          (* overwrite the reference; NOTE: this modifies the parameter *)
          let* expressID := get_prop property "expressID" in
          let* ref := alloc (ref_object expressID) in
          set_prop lineObject propertyName ref
        else
          let* elems := array_elems property in
          match elems with
          | Some (e :: es) =>
              forM_ (seq 0 (length (e :: es))) (fun i =>
                let* element := get_index property i in
                let* carried := get_prop element "expressID" in
                if negb (is_undefined carried) then
                  WriteLine fuel' element ;;
                  let* array := get_prop lineObject propertyName in
                  let* element := get_index property i in
                  let* expressID := get_prop element "expressID" in
                  let* ref := alloc (ref_object expressID) in
                  set_index array i ref
                else ret tt)
          | _ => ret tt
          end) ;;
      let* ID := get_prop lineObject "expressID" in
      let* type := get_prop lineObject "type" in
      let* arguments := call_ToTape lineObject in
      WriteRawLineData (mkRaw ID type arguments)
  end.

End WriteLine.

Section GetLine.
(** [wasmModule.GetLine(modelID, expressID)], and the table
    [ifc2x4helper.FromRawLineData] of the generated constructors (neither is
    part of the two source files): both build objects in the heap. *)
Variable GetRawLineData : value -> M value.
Variable FromRawLineData : value -> value -> M value.

(** [v.type === 5]. *)
Definition is_five (v : value) : bool :=
  match v with
  | VNum 5 => true
  | _ => false
  end.

(** [FlattenLine(modelID, line)], with [this.GetLine(modelID, e, true)]
    given. *)
Definition FlattenLine_with (GetLine_flat : value -> M value) (line : value) : M unit :=
  let* keys := object_keys line in
  forM_ keys (fun propertyName =>
    let* property := get_prop line propertyName in
    let* type := (if truthy property then get_prop property "type" else ret VUndefined) in
    if truthy property && is_five type then
      let* value := get_prop property "value" in
      let* flat := GetLine_flat value in
      set_prop line propertyName flat
    else
      let* elems := array_elems property in
      match elems with
      | Some (e :: es) =>
          let* first := get_index property 0 in
          let* type := get_prop first "type" in
          if is_five type then
            forM_ (seq 0 (length (e :: es))) (fun i =>
              let* array := get_prop line propertyName in
              let* element := get_index property i in
              let* value := get_prop element "value" in
              let* flat := GetLine_flat value in
              set_index array i flat)
          else ret tt
      | _ => ret tt
      end).

(** [GetLine(modelID, expressID, flatten)]; [fuel] bounds the depth of the
    recursion through [FlattenLine]. *)
Fixpoint GetLine (fuel : nat) (expressID : value) (flatten : bool) : M value :=
  match fuel with
  | O => throw NoFuel
  | S fuel' =>
      let* rawLineData := GetRawLineData expressID in
      let* type := get_prop rawLineData "type" in
      let* lineData := FromRawLineData type rawLineData in
      (if flatten
       then FlattenLine_with (fun e => GetLine fuel' e true) lineData
       else ret tt) ;;
      ret lineData
  end.

Definition FlattenLine (fuel : nat) (line : value) : M unit :=
  FlattenLine_with (fun e => GetLine fuel e true) line.

End GetLine.

(** *** Typed arrays *)

(** [heap.subarray(begin, end)] on a typed array, for the numbers [begin]
    and [end] given in quarters ([startPtr / 4] is a quotient of numbers):
    both are cut to integers towards zero, counted from the end when
    negative, and kept within the array. *)
Definition clamp_index (len : Z) (quarters : Z) : Z :=
  let relative := Z.quot quarters 4 in
  if relative <? 0 then Z.max (len + relative) 0 else Z.min relative len.

Definition subarray {A : Type} (heap : list A) (begin_quarters end_quarters : Z) : list A :=
  let len := Z.of_nat (length heap) in
  let beginIndex := clamp_index len begin_quarters in
  let endIndex := clamp_index len end_quarters in
  take (Z.to_nat (Z.max (endIndex - beginIndex) 0)) (drop (Z.to_nat beginIndex) heap).

(** [getSubArray(heap, startPtr, sizeBytes)]:
    [heap.subarray(startPtr / 4, startPtr / 4 + sizeBytes).slice(0)], the
    copy [slice(0)] makes being the list itself. *)
Definition getSubArray {A : Type} (heap : list A) (startPtr sizeBytes : Z) : list A :=
  subarray heap startPtr (startPtr + 4 * sizeBytes).

(** [GetVertexArray(ptr, size)] on [HEAPF32] and [GetIndexArray(ptr, size)]
    on [HEAPU32]. *)
Definition GetVertexArray (HEAPF32 : list Z) (ptr size : Z) : list Z :=
  getSubArray HEAPF32 ptr size.

Definition GetIndexArray (HEAPU32 : list Z) (ptr size : Z) : list Z :=
  getSubArray HEAPU32 ptr size.

(** *** Line objects as trees

    A line object as the generated classes build it: an object whose
    properties are plain values, nested line objects, or arrays of these.
    The tree records where each object and array sits in the heap. *)

Local Open Scope nat_scope.

#[local] Unset Elimination Schemes.
Inductive tree : Type :=
  | Other (v : value)
  | Line (l : nat) (props : list (string * tree))
  | Arr (l : nat) (elems : list tree).
#[local] Set Elimination Schemes.

(** The value through which the parent holds the node. *)
Definition val (t : tree) : value :=
  match t with
  | Other v => v
  | Line l _ => VRef l
  | Arr l _ => VRef l
  end.

(** The heap cells of the line objects and arrays of the tree. *)
Fixpoint cells (t : tree) : list nat :=
  match t with
  | Other _ => []
  | Line l props => l :: concat (map (fun p => cells p.2) props)
  | Arr l elems => l :: concat (map cells elems)
  end.

(** Nesting depth of line objects. *)
Fixpoint depth (t : tree) : nat :=
  match t with
  | Other _ => 0
  | Line _ props => S (list_max (map (fun p => depth p.2) props))
  | Arr _ elems => list_max (map depth elems)
  end.

Definition all (ps : list Prop) : Prop := foldr and True ps.

Definition stored_props (props : list (string * tree)) : list (string * value) :=
  map (fun p => (p.1, val p.2)) props.

(** The heap holds the tree. *)
Fixpoint stored (h : list object) (t : tree) : Prop :=
  match t with
  | Other _ => True
  | Line l props =>
      h !! l = Some (JObject (stored_props props))
      /\ all (map (fun p => stored h p.2) props)
  | Arr l elems =>
      h !! l = Some (JArray (map val elems))
      /\ all (map (stored h) elems)
  end.

(** The [expressID] a line object carries. *)
Definition carried (props : list (string * tree)) : value :=
  default VUndefined (assoc "expressID" (stored_props props)).

(** A value [WriteLine] passes over: as a property, one with no
    [expressID] that is not a non-empty array; as an array element, one on
    which [.expressID] can be read and is undefined. *)
Definition plain (h : list object) (elem : bool) (v : value) : bool :=
  match v with
  | VUndefined | VNull => negb elem
  | VRef l =>
      match h !! l with
      | Some (JObject ps) => is_undefined (default VUndefined (assoc "expressID" ps))
      | Some (JArray es) => elem || bool_decide (es = [])
      | None => false
      end
  | _ => true
  end.

Definition outside (G : list nat) (v : value) : Prop :=
  match v with
  | VRef l => l ∉ G
  | _ => True
  end.

(** The tree describes the object graph as [WriteLine] walks it: the
    [Other] leaves are the values it passes over, kept in objects of their
    own (outside [G]); a line object carries a defined plain [expressID];
    arrays are non-empty and hold plain values and line objects. *)
Fixpoint wf (G : list nat) (h : list object) (elem : bool) (t : tree) : Prop :=
  match t with
  | Other v => plain h elem v = true /\ outside G v
  | Line l props =>
      NoDup (map fst props)
      /\ (exists e, In ("expressID"%string, Other e) props /\ is_undefined e = false)
      /\ all (map (fun p => wf G h false p.2) props)
  | Arr l elems =>
      elem = false /\ elems <> [] /\ all (map (wf G h true) elems)
  end.

(** What a node of the caller's object has become: a nested line object is
    replaced by a new REF object [{type: 5, value: expressID}]; an array
    stays the same array, with its elements replaced alike; any other value
    stays. [n] is the size of the heap before the call. *)
Definition became_elem (n : nat) (h' : list object) (v' : value) (c : tree) : Prop :=
  match c with
  | Line _ props =>
      exists r, v' = VRef r /\ n <= r /\ h' !! r = Some (ref_object (carried props))
  | _ => v' = val c
  end.

Definition became (n : nat) (h' : list object) (p' : string * value) (p : string * tree) : Prop :=
  p'.1 = p.1 /\
  match p.2 with
  | Arr a elems =>
      p'.2 = VRef a
      /\ exists vs', h' !! a = Some (JArray vs') /\ Forall2 (became_elem n h') vs' elems
  | c => became_elem n h' p'.2 c
  end.

(** The [expressID]s of the lines written for a node, in the order of the
    calls of [WriteRawLineData]. *)
Fixpoint writes (t : tree) : list value :=
  match t with
  | Other _ => []
  | Line _ props => concat (map (fun p => writes p.2) props) ++ [carried props]
  | Arr _ elems => concat (map writes elems)
  end.

(** [h'] differs from [h] at most in the cells [C] and in new cells. *)
Definition frame (C : list nat) (h h' : list object) : Prop :=
  length h <= length h'
  /\ forall l, l ∉ C -> l < length h -> h' !! l = h !! l.

(** *** Values [FlattenLine] passes over *)

(** The [type] of what a value refers to is not 5. *)
Definition not_a_ref (h : list object) (v : value) : bool :=
  match v with
  | VRef l =>
      match h !! l with
      | Some (JObject ps) => negb (is_five (default VUndefined (assoc "type" ps)))
      | Some (JArray _) => true
      | None => false
      end
  | _ => true
  end.

(** A property that is no REF object [{type: 5, ...}] and no array whose
    first element is one (the first element being an object or a
    primitive, so that its [type] can be read). *)
Definition no_ref (h : list object) (v : value) : bool :=
  match v with
  | VRef l =>
      match h !! l with
      | Some (JObject ps) => negb (is_five (default VUndefined (assoc "type" ps)))
      | Some (JArray []) => true
      | Some (JArray (first :: _)) =>
          match first with
          | VUndefined | VNull => false
          | _ => not_a_ref h first
          end
      | None => false
      end
  | _ => true
  end.

(** *** The parts of [WriteLine] by name *)

Section WriteLineParts.
Variable ToTape : list (string * value) -> list value.

(** The body of the inner loop, over the elements of an array property. *)
Definition elem_body (fuel' : nat) (lineObject : value) (propertyName : string)
    (property : value) (i : nat) : M unit :=
  let* element := get_index property i in
  let* carried := get_prop element "expressID" in
  if negb (is_undefined carried) then
    WriteLine ToTape fuel' element ;;
    let* array := get_prop lineObject propertyName in
    let* element := get_index property i in
    let* expressID := get_prop element "expressID" in
    let* ref := alloc (ref_object expressID) in
    set_index array i ref
  else ret tt.

(** The body of the outer loop, over the property names. *)
Definition prop_body (fuel' : nat) (lineObject : value) (propertyName : string) : M unit :=
  let* property := get_prop lineObject propertyName in
  let* carried :=
    (if truthy property then get_prop property "expressID" else ret VUndefined) in
  if truthy property && negb (is_undefined carried) then
    WriteLine ToTape fuel' property ;;
    let* expressID := get_prop property "expressID" in
    let* ref := alloc (ref_object expressID) in
    set_prop lineObject propertyName ref
  else
    let* elems := array_elems property in
    match elems with
    | Some (e :: es) =>
        forM_ (seq 0 (length (e :: es))) (elem_body fuel' lineObject propertyName property)
    | _ => ret tt
    end.

(** The line handed to the wasm module for an object of properties [ps]. *)
Definition raw_line (expressID : value) (ps : list (string * value)) : RawLineData :=
  mkRaw expressID (default VUndefined (assoc "type" ps)) (ToTape ps).

(** [WriteLine] with [fuel] writes every line object of depth at most
    [fuel] that sits in cells of [G]. *)
Definition line_written (fuel : nat) (G : list nat) : Prop :=
  forall e lc pc h w,
    stored h (Line lc pc) -> wf G h e (Line lc pc) -> NoDup (cells (Line lc pc)) ->
    (forall x, x ∈ cells (Line lc pc) -> x ∈ G) ->
    (forall x, x ∈ G -> x < length h) ->
    depth (Line lc pc) <= fuel ->
    exists h' ps' ws,
      WriteLine ToTape fuel (VRef lc) (mkState h w)
      = Returned (tt, mkState h' (w ++ ws ++ [raw_line (carried pc) ps']))
      /\ h' !! lc = Some (JObject ps')
      /\ Forall2 (became (length h) h') ps' pc
      /\ frame (cells (Line lc pc)) h h'
      /\ map ID ws = concat (map (fun p => writes p.2) pc).

End WriteLineParts.

End Js.

(** A wall with a name, a placement relative to another placement, and two
    representation items next to a number. *)
Module JsSamples.
Import Js.
Local Open Scope string_scope.

Definition line (l : nat) (id ty : Z) (more : list (string * tree)) : tree :=
  Line l (("expressID", Other (VNum id)) :: ("type", Other (VNum ty)) :: more).

Definition wall : tree :=
  line 0 1 100
    [ ("Name", Other (VRef 1));
      ("Placement", line 2 2 200 [("RelativeTo", line 3 3 200 [])]);
      ("Items", Arr 4 [line 5 4 300 []; Other (VNum 7); line 6 5 300 []]) ].

Definition object_of (t : tree) : object :=
  match t with
  | Line _ props => JObject (stored_props props)
  | Arr _ elems => JArray (map val elems)
  | Other _ => JObject []
  end.

Definition wall_heap : list object :=
  [ object_of wall;
    JObject [("type", VNum 1); ("value", VStr "wall")];
    object_of (line 2 2 200 [("RelativeTo", line 3 3 200 [])]);
    object_of (line 3 3 200 []);
    object_of (Arr 4 [line 5 4 300 []; Other (VNum 7); line 6 5 300 []]);
    object_of (line 5 4 300 []);
    object_of (line 6 5 300 []) ].

(** The arguments of a line: its properties after [expressID] and [type]. *)
Definition ToTape (props : list (string * value)) : list value :=
  map snd (drop 2 props).

Definition wall_written : Outcome (unit * State) :=
  Eval vm_compute in WriteLine ToTape 3 (VRef 0) (mkState wall_heap []).

(** A line as [GetLine] returns it, with a label, an empty list and a list
    whose second element is a REF while its first is not. *)
Definition read_heap : list object :=
  [ JObject [("expressID", VNum 7); ("type", VNum 100); ("Name", VRef 1);
             ("Tag", VNull); ("Parts", VRef 2); ("None", VRef 4)];
    JObject [("type", VNum 1); ("value", VStr "wall")];
    JArray [VRef 1; VRef 3];
    JObject [("type", VNum 5); ("value", VNum 9)];
    JArray [] ].

(** A reader that has no line to give. *)
Definition no_line : value -> M value := fun _ => throw NoSuchCell.

End JsSamples.

(** ** Sequences of writes *)

(** The number of records [GetNumLines] reports. *)
Definition line_count (s : IfcLoader) : Z := Z.of_nat (length (lines (_metaData s))).

(** Calls of [UpdateLineTape] one after the other, each given as
    (expressID, type, start, end). *)
Definition write_all (ws : list (Z * Z * Z * Z)) : SE IfcLoader unit :=
  forM_ ws (fun '(h, type, start, end_) => Loader.UpdateLineTape h type start end_).

Module WriteStates.

(** The model after handles 1 and 50 were written, and after handle 5 was. *)
Definition after_1_50 : IfcLoader :=
  Eval vm_compute in WriteSamples.state_after WriteSamples.write_1_50.

Definition after_5 : IfcLoader :=
  Eval vm_compute in WriteSamples.state_after (Loader.UpdateLineTape 5 7 0 10).

Definition after_three : IfcLoader :=
  Eval vm_compute in
    WriteSamples.state_after (write_all [(1, 7, 0, 10); (50, 7, 10, 20); (10, 8, 20, 30)]).

End WriteStates.

(** ** What the lines of the relationship passes hold *)

Section RelationLines.
Variables (data : list Z) (md : IfcMetaData).

(** An IFCRELVOIDSELEMENT line: REFs to the building element and to the
    opening at arguments 4 and 5. *)
Definition rel_voids_line (id : Z) (d : Z * Z) : Prop :=
  exists l pre args,
    line_of md id = Some l /\
    line_has_args data l pre args /\
    args !! 4%nat = Some (ARef d.1) /\
    args !! 5%nat = Some (ARef d.2) /\
    is_u32 d.1 /\ is_u32 d.2 /\
    forallb arg_wf (take 4 args) = true.

(** An IFCRELAGGREGATES line: a REF to the whole at argument 4 and a set of
    REFs to the parts at argument 5. *)
Definition rel_aggregates_line (id : Z) (d : Z * list Z) : Prop :=
  exists l pre args,
    line_of md id = Some l /\
    line_has_args data l pre args /\
    args !! 4%nat = Some (ARef d.1) /\
    args !! 5%nat = Some (ASet (map ARef d.2)) /\
    is_u32 d.1 /\ Forall is_u32 d.2 /\
    forallb arg_wf (take 4 args) = true.

(** An IFCRELASSOCIATESMATERIAL line: a set of REFs to the objects at
    argument 4 and a REF to the material at argument 5. *)
Definition rel_material_line (id : Z) (d : list Z * Z) : Prop :=
  exists l pre args,
    line_of md id = Some l /\
    line_has_args data l pre args /\
    args !! 4%nat = Some (ASet (map ARef d.1)) /\
    args !! 5%nat = Some (ARef d.2) /\
    Forall is_u32 d.1 /\ is_u32 d.2 /\
    forallb arg_wf (take 4 args) = true.

(** An IFCMATERIALDEFINITIONREPRESENTATION line: a set of REFs to the
    representations at argument 2 and a REF to the material at argument 3. *)
Definition material_definition_line (id : Z) (d : list Z * Z) : Prop :=
  exists l pre args,
    line_of md id = Some l /\
    line_has_args data l pre args /\
    args !! 2%nat = Some (ASet (map ARef d.1)) /\
    args !! 3%nat = Some (ARef d.2) /\
    Forall is_u32 d.1 /\ is_u32 d.2 /\
    forallb arg_wf (take 2 args) = true.

End RelationLines.

(** What one line adds to its map. *)
Definition rel_voids_effect (m : gmap Z (list Z)) (item : Z * (Z * Z)) : gmap Z (list Z) :=
  map_push m item.2.1 item.2.2.

Definition rel_aggregates_effect (m : gmap Z (list Z)) (item : Z * (Z * list Z))
  : gmap Z (list Z) :=
  push_all item.2.1 item.2.2 m.

Definition rel_material_effect (m : gmap Z (list (Z * Z))) (item : Z * (list Z * Z))
  : gmap Z (list (Z * Z)) :=
  fold_left (fun m object => map_push m object (item.1, item.2.2)) item.2.1 m.

Definition material_definition_effect (m : gmap Z (list (Z * Z))) (item : Z * (list Z * Z))
  : gmap Z (list (Z * Z)) :=
  push_all item.2.2 (map (fun r => (item.1, r)) item.2.1) m.

(** A wall [#1] with an opening [#2] and a part [#3], of material [#4]
    drawn by [#9] and [#10]:
    [#5=IFCRELVOIDSELEMENT('g',$,$,$,#1,#2);]
    [#6=IFCRELAGGREGATES('g',$,$,$,#1,(#2,#3));]
    [#7=IFCRELASSOCIATESMATERIAL('g',$,$,$,(#1,#3),#4);]
    [#8=IFCMATERIALDEFINITIONREPRESENTATION($,$,(#9,#10),#4);] *)
Module RelSamples.
Import Samples.

Definition voids_args : list Arg :=
  [str "g"; AEmpty; AEmpty; AEmpty; ARef 1; ARef 2].
Definition aggregates_args : list Arg :=
  [str "g"; AEmpty; AEmpty; AEmpty; ARef 1; ASet [ARef 2; ARef 3]].
Definition material_args : list Arg :=
  [str "g"; AEmpty; AEmpty; AEmpty; ASet [ARef 1; ARef 3]; ARef 4].
Definition definition_args : list Arg :=
  [AEmpty; AEmpty; ASet [ARef 9; ARef 10]; ARef 4].

Definition rel_pre (h : Z) (label : string) : list Arg :=
  [ARef h; ALabel (bytes_of_string label)].

Definition rel_tape : list Z :=
  encode_line 5 "IFCRELVOIDSELEMENT" voids_args
  ++ encode_line 6 "IFCRELAGGREGATES" aggregates_args
  ++ encode_line 7 "IFCRELASSOCIATESMATERIAL" material_args
  ++ encode_line 8 "IFCMATERIALDEFINITIONREPRESENTATION" definition_args.

(** Line records as the write path leaves them. *)
Definition rel_lines : list IfcLine :=
  Eval vm_compute in
  let n5 := Z.of_nat (length (encode_line 5 "IFCRELVOIDSELEMENT" voids_args)) in
  let n6 := n5 + Z.of_nat (length (encode_line 6 "IFCRELAGGREGATES" aggregates_args)) in
  let n7 := n6 + Z.of_nat (length (encode_line 7 "IFCRELASSOCIATESMATERIAL" material_args)) in
  let n8 := Z.of_nat (length rel_tape) in
  [ mkLine 5 0 (IFCRELVOIDSELEMENT schema) 0 n5;
    mkLine 6 1 (IFCRELAGGREGATES schema) n5 n6;
    mkLine 7 2 (IFCRELASSOCIATESMATERIAL schema) n6 n7;
    mkLine 8 3 (IFCMATERIALDEFINITIONREPRESENTATION schema) n7 n8 ].

Definition rel_loader : IfcLoader :=
  mkLoader false (mkTape rel_tape 0) default_settings
    (mkMeta rel_lines [0; 0; 0; 0; 0; 0; 1; 2; 3]
       {[ IFCRELVOIDSELEMENT schema := [0]; IFCRELAGGREGATES schema := [1];
          IFCRELASSOCIATESMATERIAL schema := [2];
          IFCMATERIALDEFINITIONREPRESENTATION schema := [3] ]}
       ∅ ∅ ∅ ∅ ∅ (F64.of_decimal 1 0)).

End RelSamples.

(** ** The frame of the text of [DumpAsIFC] *)

Definition dump_header : string :=
  ("ISO-10303-21;" +:+ Loader.endl
   +:+ "HEADER;" +:+ Loader.endl
   +:+ "FILE_DESCRIPTION(('no description), '2;1');" +:+ Loader.endl
   +:+ "FILE_NAME('no name', '', (''), (''), 'web-ifc-export');" +:+ Loader.endl
   +:+ "FILE_SCHEMA(('IFC2X3'));" +:+ Loader.endl
   +:+ "ENDSEC;" +:+ Loader.endl
   +:+ "DATA;" +:+ Loader.endl)%string.

Definition dump_footer : string :=
  ("ENDSEC;" +:+ Loader.endl +:+ "END-ISO-10303-21;")%string.

(** ** The STEP text of a line *)

Section Render.
Variable show_double : Z -> Z -> string.
Variable precision : Z.

(** The tag [DumpAsIFC] holds in [prev] after an argument. *)
Definition last_tag (a : Arg) : Z :=
  match a with
  | ASet _ => tag_of SET_END
  | _ => hd 0 (encode_arg a)
  end.

(** Inside a set, a comma separates a token from the one before it, unless
    that was an opening bracket or a LABEL. *)
Definition comma_after (prev : Z) : string :=
  if negb (prev =? tag_of SET_BEGIN) && negb (prev =? tag_of LABEL)
     && negb (prev =? tag_of LINE_END)
  then ","%string else ""%string.

(** The text of an argument inside a set, after a token of tag [prev]. *)
Fixpoint render_arg (prev : Z) (a : Arg) : string :=
  (comma_after prev +:+
   match a with
   | AUnknown => "*"
   | AEmpty => "$"
   | AString s => "'" +:+ string_of_bytes s +:+ "'"
   | AEnum s => "." +:+ string_of_bytes s +:+ "."
   | ALabel s => string_of_bytes s
   | AReal b => show_double precision b
   | ARef h => "#" +:+ Loader.show_uint32 h
   | ASet xs =>
       "(" +:+
       (fix go (prev : Z) (l : list Arg) : string :=
          match l with
          | [] => ""
          | x :: l' => render_arg prev x +:+ go (last_tag x) l'
          end) (tag_of SET_BEGIN) xs
       +:+ ")"
   end)%string.

Fixpoint render_args (prev : Z) (xs : list Arg) : string :=
  match xs with
  | [] => ""%string
  | x :: xs' => (render_arg prev x +:+ render_args (last_tag x) xs')%string
  end.

(** A line as the write path lays it out: the REF of its handle, the LABEL
    of its type name, the argument list, LINE_END. *)
Record WrittenLine : Type := mkWritten {
  written_id : Z;
  written_name : list Z;
  written_args : list Arg
}.

Definition encode_written (w : WrittenLine) : list Z :=
  encode_arg (ARef (written_id w)) ++ encode_arg (ALabel (written_name w))
  ++ encode_arg (ASet (written_args w)) ++ [tag_of LINE_END].

Definition written_wf (w : WrittenLine) : bool :=
  arg_wf (ARef (written_id w)) && arg_wf (ALabel (written_name w))
  && forallb arg_wf (written_args w).

(** [#id=NAME(arguments);] and a line break. *)
Definition render_line (w : WrittenLine) : string :=
  ("#" +:+ Loader.show_uint32 (written_id w) +:+ "="
   +:+ string_of_bytes (written_name w)
   +:+ "(" +:+ render_args (tag_of SET_BEGIN) (written_args w) +:+ ")"
   +:+ ";" +:+ Loader.endl)%string.

Fixpoint render_lines (ws : list WrittenLine) : string :=
  match ws with
  | [] => ""%string
  | w :: ws' => (render_line w +:+ render_lines ws')%string
  end.

End Render.

(** The record [l] is that of the written line [w] on the tape. *)
Definition line_written_at (data : list Z) (l : IfcLine) (w : WrittenLine) : Prop :=
  0 <= tapeOffset l /\
  written_wf w = true /\
  exists post, drop (Z.to_nat (tapeOffset l)) data = encode_written w ++ post.

(** The three lines of the styled-item sample as written lines. *)
Definition styled_written : list WrittenLine :=
  [ mkWritten 10 (bytes_of_string "IFCEXTRUDEDAREASOLID") [AEmpty];
    mkWritten 20 (bytes_of_string "IFCSTYLEDITEM") Samples.styled_args_20;
    mkWritten 21 (bytes_of_string "IFCSTYLEDITEM") Samples.styled_args_21 ].

(** ** Vocabulary of the proofs, continued *)

Section MoreVocabulary.
Import Loader.

(** An element [GetSetArgument] has no branch for stops it. *)
Definition fails_unreadable (a : Arg) : Prop :=
  arg_wf a = true -> set_readable a = false ->
  forall fuel depth acc data p post,
    1 <= depth ->
    drop p data = encode_arg a ++ post ->
    GetSetArgument_loop (ntok a + fuel) depth acc (mkTape data p) = Err AssertFailed.

(** The bodies of the loops of the relationship passes. *)
Definition rel_voids_body (relVoidID : Z) : SE IfcLoader unit :=
  let* lineID := ExpressIDToLineID relVoidID in
  let* line := GetLine lineID in
  MoveToArgumentOffset line 4 ;;
  let* relatingBuildingElement := GetRefArgument in
  let* relatedOpeningElement := GetRefArgument in
  let* md := get_meta in
  put_meta (set_relVoids md
    (map_push (_relVoids md) relatingBuildingElement relatedOpeningElement)).

Definition rel_aggregates_body (relVoidID : Z) : SE IfcLoader unit :=
  let* lineID := ExpressIDToLineID relVoidID in
  let* line := GetLine lineID in
  MoveToArgumentOffset line 4 ;;
  let* relatingBuildingElement := GetRefArgument in
  let* aggregates := GetSetArgument in
  forM_ aggregates (fun aggregate =>
    let* aggregateID := GetRefArgumentAt aggregate in
    let* md := get_meta in
    put_meta (set_relAggregates md
      (map_push (_relAggregates md) relatingBuildingElement aggregateID))).

Definition rel_material_body (styledItemID : Z) : SE IfcLoader unit :=
  let* lineID := ExpressIDToLineID styledItemID in
  let* line := GetLine lineID in
  MoveToArgumentOffset line 5 ;;
  let* materialSelect := GetRefArgument in
  MoveToArgumentOffset line 4 ;;
  let* RelatedObjects := GetSetArgument in
  forM_ RelatedObjects (fun ifcRoot =>
    let* ifcRootID := GetRefArgumentAt ifcRoot in
    let* md := get_meta in
    put_meta (set_relMaterials md
      (map_push (_relMaterials md) ifcRootID (styledItemID, materialSelect)))).

Definition material_definition_body (styledItemID : Z) : SE IfcLoader unit :=
  let* lineID := ExpressIDToLineID styledItemID in
  let* line := GetLine lineID in
  MoveToArgumentOffset line 2 ;;
  let* representations := GetSetArgument in
  MoveToArgumentOffset line 3 ;;
  let* material := GetRefArgument in
  forM_ representations (fun representation =>
    let* representationID := GetRefArgumentAt representation in
    let* md := get_meta in
    put_meta (set_materialDefinitions md
      (map_push (_materialDefinitions md) material (styledItemID, representationID)))).

(** [file'] is [file] with more text after it. *)
Definition extends (file file' : string) : Prop :=
  exists more, file' = (file +:+ more)%string.


End MoreVocabulary.

Section DumpVocabulary.
Import Loader.
Variable show_double : Z -> Z -> string.
Variable precision : Z.

(** An argument inside a set: its text is added. *)
Definition dumps (a : Arg) : Prop :=
  arg_wf a = true ->
  forall fuel file prev data p post,
    drop p data = encode_arg a ++ post ->
    DumpAsIFC_tokens show_double (ntok a + fuel) precision file false true prev
      (mkTape data p)
    = DumpAsIFC_tokens show_double fuel precision
        (file +:+ render_arg show_double precision prev a) false true (last_tag a)
        (mkTape data (p + length (encode_arg a))).

End DumpVocabulary.

(** ** Encoding lemmas *)

(** Induction on arguments that reaches inside sets. *)
Lemma Arg_ind_nested (P : Arg -> Prop) :
  P AUnknown -> P AEmpty ->
  (forall s, P (AString s)) -> (forall s, P (ALabel s)) -> (forall s, P (AEnum s)) ->
  (forall b, P (AReal b)) -> (forall h, P (ARef h)) ->
  (forall xs, Forall P xs -> P (ASet xs)) ->
  forall a, P a.
Proof.
  intros HU HE HS HL HN HR HF HSet.
  fix IH 1.
  intros [ | | s | s | s | b | h | xs];
    [ exact HU | exact HE | apply HS | apply HL | apply HN | apply HR | apply HF | ].
  apply HSet. induction xs as [|x xs IHxs]; constructor; [apply IH | exact IHxs].
Qed.

Lemma leaf_offsets_set base xs :
  leaf_offsets base (ASet xs) = leaf_offsets_list (S base) xs.
Proof.
  simpl. generalize (S base). induction xs as [|x xs IH]; intros b; simpl; [done|].
  by rewrite IH.
Qed.

Lemma le_encode_length w v : length (le_encode w v) = w.
Proof. revert v. induction w as [|w IH]; intros v; simpl; [done|]. by rewrite IH. Qed.

Lemma le_decode_encode w v :
  le_decode (le_encode w v) = v mod 256 ^ Z.of_nat w.
Proof.
  revert v. induction w as [|w IH]; intros v.
  - cbn [le_encode le_decode Z.of_nat]. rewrite Z.pow_0_r. by rewrite Z.mod_1_r.
  - cbn [le_encode le_decode]. rewrite IH.
    rewrite Nat2Z.inj_succ, Z.pow_succ_r by lia.
    rewrite Z.rem_mul_r by lia. done.
Qed.

Lemma le_decode_encode_32 v : 0 <= v < 2 ^ 32 -> le_decode (le_encode 4 v) = v.
Proof. intros H. rewrite le_decode_encode. apply Z.mod_small. simpl. lia. Qed.

(** ** Reading at the cursor *)

Section ReadLemmas.

Lemma bind_Ok {S A B : Type} (m : SE S A) (k : A -> SE S B) s a s' :
    m s = Ok (a, s') -> bind m k s = k a s'.
Proof. intros H. unfold bind. by rewrite H. Qed.

Lemma drop_prefix_skip {A : Type} (data : list A) (p : nat) (bs post : list A) :
    drop p data = bs ++ post -> drop (p + length bs) data = post.
Proof.
    intros H. rewrite <- drop_drop, H. by rewrite drop_app_length.
Qed.

Lemma drop_prefix_bound {A : Type} (data : list A) (p : nat) (bs post : list A) :
    drop p data = bs ++ post -> (length data - p = length bs + length post)%nat.
Proof.
    intros H. assert (Hl : length (drop p data) = length (bs ++ post)) by by rewrite H.
    rewrite length_drop, length_app in Hl. lia.
Qed.

Lemma Read_bytes_ok data p bs post :
    drop p data = bs ++ post ->
    Read_bytes (length bs) (mkTape data p) = Ok (bs, mkTape data (p + length bs)).
Proof.
    intros H. unfold Read_bytes, tape_rest, tape_at. simpl. rewrite H.
    destruct (decide _) as [_|Hn].
    - by rewrite take_app_length.
    - exfalso. apply Hn. rewrite length_app. lia.
Qed.

Lemma Read_bytes_n n data p bs post :
    length bs = n ->
    drop p data = bs ++ post ->
    Read_bytes n (mkTape data p) = Ok (bs, mkTape data (p + n)).
Proof. intros <-. apply Read_bytes_ok. Qed.

Lemma Read_char_ok data p c post :
    drop p data = c :: post ->
    Read_char (mkTape data p) = Ok (c, mkTape data (p + 1)).
Proof.
    intros H. unfold Read_char.
    rewrite (bind_Ok _ _ _ [c] (mkTape data (p + 1))).
    - unfold ret. simpl. do 2 f_equal. lia.
    - by apply (Read_bytes_ok data p [c] post).
Qed.

Lemma Read_uint8_ok data p c post :
    drop p data = c :: post ->
    Read_uint8 (mkTape data p) = Ok (c, mkTape data (p + 1)).
Proof. apply Read_char_ok. Qed.

Lemma Read_uint32_ok data p v post :
    0 <= v < 2 ^ 32 ->
    drop p data = le_encode 4 v ++ post ->
    Read_uint32 (mkTape data p) = Ok (v, mkTape data (p + 4)).
Proof.
    intros Hv H. unfold Read_uint32.
    rewrite (bind_Ok _ _ _ (le_encode 4 v) (mkTape data (p + 4))).
    - unfold ret. by rewrite le_decode_encode_32.
    - apply (Read_bytes_n 4 data p (le_encode 4 v) post); [apply le_encode_length | done].
Qed.

Lemma Read_double_ok data p v post :
    0 <= v < 2 ^ 64 ->
    drop p data = le_encode 8 v ++ post ->
    Read_double (mkTape data p) = Ok (v, mkTape data (p + 8)).
Proof.
    intros Hv H. unfold Read_double.
    rewrite (bind_Ok _ _ _ (le_encode 8 v) (mkTape data (p + 8))).
    - unfold ret. rewrite le_decode_encode. rewrite Z.mod_small; [done|].
      change (256 ^ Z.of_nat 8) with (2 ^ 64). lia.
    - apply (Read_bytes_n 8 data p (le_encode 8 v) post); [apply le_encode_length | done].
Qed.

Lemma ReadStringView_ok data p s post :
    Z.of_nat (length s) < 256 ->
    drop p data = Z.of_nat (length s) :: s ++ post ->
    ReadStringView (mkTape data p) = Ok (s, mkTape data (p + 1 + length s)).
Proof.
    intros Hs H. unfold ReadStringView.
    rewrite (bind_Ok _ _ _ _ _ (Read_uint8_ok _ _ _ _ H)).
    rewrite Nat2Z.id. apply (Read_bytes_ok data (p + 1) s post).
    by apply (drop_prefix_skip data p [Z.of_nat (length s)]).
Qed.

  (** Skipping a payload whose value is not used. *)
Lemma skip_bytes {B : Type} data p bs post (k : SE DynamicTape B) :
    drop p data = bs ++ post ->
    (Read_bytes (length bs) ;; k) (mkTape data p) = k (mkTape data (p + length bs)).
Proof. intros H. by rewrite (bind_Ok _ _ _ _ _ (Read_bytes_ok _ _ _ _ H)). Qed.

Lemma skip_uint32 {B : Type} data p v post (k : SE DynamicTape B) :
    drop p data = le_encode 4 v ++ post ->
    (let* _ := Read_uint32 in k) (mkTape data p) = k (mkTape data (p + 4)).
Proof.
    intros H. unfold Read_uint32, bind.
    by rewrite (Read_bytes_n 4 data p (le_encode 4 v) post (le_encode_length 4 v) H).
Qed.

Lemma skip_double {B : Type} data p v post (k : SE DynamicTape B) :
    drop p data = le_encode 8 v ++ post ->
    (Read_double ;; k) (mkTape data p) = k (mkTape data (p + 8)).
Proof.
    intros H. unfold Read_double, bind.
    by rewrite (Read_bytes_n 8 data p (le_encode 8 v) post (le_encode_length 8 v) H).
Qed.

Lemma skip_string {B : Type} data p s post (k : SE DynamicTape B) :
    drop p data = Z.of_nat (length s) :: s ++ post ->
    (let* len := Read_uint8 in AdvanceRead len ;; k) (mkTape data p)
    = k (mkTape data (p + 1 + length s)).
Proof.
    intros H.
    rewrite (bind_Ok _ _ _ _ _ (Read_uint8_ok _ _ _ _ H)).
    unfold AdvanceRead, bind at 1 2. rewrite Nat2Z.id.
    rewrite (Read_bytes_ok data (p + 1) s post); [done|].
    by apply (drop_prefix_skip data p [Z.of_nat (length s)]).
Qed.

End ReadLemmas.

(** ** [MoveToArgumentOffset]: what one token and one argument do to the loop *)

Section MoveToArgument.
Import Loader.


Lemma encode_arg_nonempty a : (1 <= length (encode_arg a))%nat.
Proof. destruct a; simpl; lia. Qed.

Lemma ntok_le_length a : (ntok a <= length (encode_arg a))%nat.
Proof.
    induction a as [ | | s | s | s | b | h | xs IH] using Arg_ind_nested;
      try (simpl; lia).
    cbn [ntok encode_arg]. rewrite length_cons, length_app. simpl.
    assert (list_sum (map ntok xs) <= length (flat_map encode_arg xs))%nat; [|lia].
    induction IH as [|x xs Hx _ IHxs]; simpl; [lia|].
    rewrite length_app. lia.
Qed.

Lemma ntoks_le_length xs : (ntoks xs <= length (encode_args xs))%nat.
Proof.
    unfold ntoks, encode_args.
    induction xs as [|x xs IH]; simpl; [lia|].
    rewrite length_app. pose proof (ntok_le_length x). lia.
Qed.

Lemma encode_args_cons x xs : encode_args (x :: xs) = encode_arg x ++ encode_args xs.
Proof. reflexivity. Qed.

Lemma encode_args_app xs ys :
    encode_args (xs ++ ys) = encode_args xs ++ encode_args ys.
Proof. unfold encode_args. apply flat_map_app. Qed.

Lemma encode_set_layout xs post :
    encode_arg (ASet xs) ++ post
    = tag_of SET_BEGIN :: encode_args xs ++ tag_of SET_END :: post.
Proof. unfold encode_args. cbn [encode_arg]. by rewrite <- app_comm_cons, <- app_assoc. Qed.

Lemma encode_set_length xs :
    length (encode_arg (ASet xs)) = S (S (length (encode_args xs))).
Proof. unfold encode_args. cbn [encode_arg]. rewrite length_cons, length_app. simpl. lia. Qed.

Lemma loop_S fuel i m d :
    MoveToArgumentOffset_loop (S fuel) i m d =
    if arrived i m d then ret tt
    else
      let* c := Read_char in
      match tokenType c with
      | Some LINE_END => fail AssertFailed
      | Some UNKNOWN | Some EMPTY =>
          MoveToArgumentOffset_loop fuel i (moved_next m d) d
      | Some SET_BEGIN =>
          MoveToArgumentOffset_loop fuel i (moved_next m d) (d + 1)
      | Some SET_END =>
          if d - 1 =? 0 then ret tt
          else MoveToArgumentOffset_loop fuel i (moved_next m d) (d - 1)
      | Some STRING | Some ENUM | Some LABEL =>
          let* length := Read_uint8 in
          AdvanceRead length ;;
          MoveToArgumentOffset_loop fuel i (moved_next m d) d
      | Some REF =>
          let* ref := Read_uint32 in
          MoveToArgumentOffset_loop fuel i (moved_next m d) d
      | Some REAL =>
          Read_double ;;
          MoveToArgumentOffset_loop fuel i (moved_next m d) d
      | None =>
          MoveToArgumentOffset_loop fuel i (moved_next m d) d
      end.
Proof. reflexivity. Qed.

  (** A token that is not a bracket moves the cursor past its payload. *)
Lemma loop_leaf a fuel i m d data p post :
    is_set a = false ->
    arg_wf a = true ->
    arrived i m d = false ->
    drop p data = encode_arg a ++ post ->
    MoveToArgumentOffset_loop (S fuel) i m d (mkTape data p)
    = MoveToArgumentOffset_loop fuel i (moved_next m d) d
        (mkTape data (p + length (encode_arg a))).
Proof.
    intros Hset Hwf Harr Hd. rewrite loop_S, Harr.
    destruct a as [ | | s | s | s | b | h | xs]; try discriminate Hset;
      cbn [encode_arg] in Hd |- *;
      rewrite (bind_Ok _ _ _ _ _ (Read_char_ok _ _ _ _ Hd));
      cbn [tag_of tokenType Z.eqb Pos.eqb];
      apply (drop_prefix_skip data p [_]) in Hd; cbn [length] in Hd.
    - done.
    - done.
    - rewrite (skip_string _ _ _ _ _ Hd). do 2 f_equal. simpl. lia.
    - rewrite (skip_string _ _ _ _ _ Hd). do 2 f_equal. simpl. lia.
    - rewrite (skip_string _ _ _ _ _ Hd). do 2 f_equal. simpl. lia.
    - rewrite (skip_double _ _ _ _ _ Hd). do 2 f_equal. simpl. lia.
    - rewrite (skip_uint32 _ _ _ _ _ Hd). do 2 f_equal. simpl. lia.
Qed.

Lemma loop_set_begin fuel i m d data p post :
    arrived i m d = false ->
    drop p data = tag_of SET_BEGIN :: post ->
    MoveToArgumentOffset_loop (S fuel) i m d (mkTape data p)
    = MoveToArgumentOffset_loop fuel i (moved_next m d) (d + 1) (mkTape data (p + 1)).
Proof.
    intros Harr Hd. rewrite loop_S, Harr.
    by rewrite (bind_Ok _ _ _ _ _ (Read_char_ok _ _ _ _ Hd)).
Qed.

Lemma loop_set_end fuel i m d data p post :
    arrived i m d = false ->
    d - 1 <> 0 ->
    drop p data = tag_of SET_END :: post ->
    MoveToArgumentOffset_loop (S fuel) i m d (mkTape data p)
    = MoveToArgumentOffset_loop fuel i (moved_next m d) (d - 1) (mkTape data (p + 1)).
Proof.
    intros Harr Hne Hd. rewrite loop_S, Harr.
    rewrite (bind_Ok _ _ _ _ _ (Read_char_ok _ _ _ _ Hd)).
    cbn [tag_of tokenType Z.eqb Pos.eqb].
    by rewrite (proj2 (Z.eqb_neq _ _) Hne).
Qed.

Lemma loop_set_close fuel i m data p post :
    m + 1 <> i ->
    drop p data = tag_of SET_END :: post ->
    MoveToArgumentOffset_loop (S fuel) i m 1 (mkTape data p)
    = Ok (tt, mkTape data (p + 1)).
Proof.
    intros Hne Hd. rewrite loop_S.
    unfold arrived, moved_next. change (1 =? 1) with true. cbv iota. rewrite andb_true_l.
    rewrite (proj2 (Z.eqb_neq _ _) Hne).
    by rewrite (bind_Ok _ _ _ _ _ (Read_char_ok _ _ _ _ Hd)).
Qed.

Lemma loop_arrive fuel i m data p :
    m + 1 = i ->
    MoveToArgumentOffset_loop (S fuel) i m 1 (mkTape data p) = Ok (tt, mkTape data p).
Proof.
    intros He. rewrite loop_S. unfold arrived, moved_next. change (1 =? 1) with true. cbv iota. rewrite andb_true_l.
    by rewrite (proj2 (Z.eqb_eq _ _) He).
Qed.

Lemma arrived_deep i m d : 2 <= d -> arrived i m d = false.
Proof. intros H. unfold arrived. by rewrite (proj2 (Z.eqb_neq d 1)) by lia. Qed.

Lemma moved_next_deep m d : 2 <= d -> moved_next m d = m.
Proof. intros H. unfold moved_next. by rewrite (proj2 (Z.eqb_neq d 1)) by lia. Qed.

Lemma arrived_top i m : m + 1 <> i -> arrived i m 1 = false.
Proof.
    intros H. unfold arrived, moved_next. change (1 =? 1) with true. cbv iota. rewrite andb_true_l.
    by rewrite (proj2 (Z.eqb_neq _ _) H).
Qed.

Lemma arg_wf_set xs : arg_wf (ASet xs) = forallb arg_wf xs.
Proof. reflexivity. Qed.


Lemma passes_nested_list xs :
    Forall passes_nested xs ->
    forallb arg_wf xs = true ->
    forall fuel i m d data p post,
      2 <= d ->
      drop p data = encode_args xs ++ post ->
      MoveToArgumentOffset_loop (ntoks xs + fuel) i m d (mkTape data p)
      = MoveToArgumentOffset_loop fuel i m d (mkTape data (p + length (encode_args xs))).
Proof.
    unfold ntoks, encode_args.
    induction 1 as [|x xs Hx _ IH]; intros Hwf fuel i m d data p post Hd Hdrop.
    - simpl. do 2 f_equal. lia.
    - cbn [forallb] in Hwf. apply andb_true_iff in Hwf as [Hwx Hwxs].
      cbn [map list_sum fold_right flat_map] in *.
      rewrite <- app_assoc in Hdrop. rewrite <- Nat.add_assoc.
      rewrite (Hx Hwx _ i m d data p _ Hd Hdrop).
      apply drop_prefix_skip in Hdrop.
      rewrite (IH Hwxs _ _ _ _ _ _ _ Hd Hdrop). do 2 f_equal. rewrite length_app. lia.
Qed.

  (** Inside a nested set (depth 2 or more) a whole argument is passed over
      and nothing is counted. *)
Lemma loop_nested a : passes_nested a.
Proof.
    unfold passes_nested.
    induction a as [ | | s | s | s | b | h | xs IH] using Arg_ind_nested;
      intros Hwf fuel i m d data p post Hd Hdrop;
      try (cbn [ntok Nat.add];
           match type of Hdrop with
           | drop _ _ = encode_arg ?a ++ _ =>
               rewrite (loop_leaf a _ _ _ _ _ _ _ eq_refl Hwf (arrived_deep _ _ _ Hd) Hdrop)
           end;
           by rewrite moved_next_deep).
    rewrite arg_wf_set in Hwf. rewrite encode_set_layout in Hdrop.
    rewrite encode_set_length. cbn [ntok Nat.add].
    rewrite (loop_set_begin _ _ _ _ _ _ _ (arrived_deep _ _ _ Hd) Hdrop).
    rewrite moved_next_deep by done.
    apply (drop_prefix_skip data p [_]) in Hdrop. cbn [length] in Hdrop.
    replace (S (list_sum (map ntok xs) + fuel))%nat with (ntoks xs + S fuel)%nat
      by (unfold ntoks; lia).
    assert (Hd1 : 2 <= d + 1) by lia. assert (Hd2 : d + 1 - 1 <> 0) by lia.
    rewrite (passes_nested_list xs IH Hwf _ i m (d + 1) data _ _ Hd1 Hdrop).
    apply drop_prefix_skip in Hdrop.
    rewrite (loop_set_end _ _ _ _ _ _ _ (arrived_deep i m _ Hd1) Hd2 Hdrop).
    rewrite moved_next_deep by lia.
    replace (d + 1 - 1) with d by lia.
    do 2 f_equal. lia.
Qed.

Lemma loop_nested_list xs :
    forallb arg_wf xs = true ->
    forall fuel i m d data p post,
      2 <= d ->
      drop p data = encode_args xs ++ post ->
      MoveToArgumentOffset_loop (ntoks xs + fuel) i m d (mkTape data p)
      = MoveToArgumentOffset_loop fuel i m d (mkTape data (p + length (encode_args xs))).
Proof.
    apply passes_nested_list. apply Forall_forall. intros a _. apply loop_nested.
Qed.

  (** At depth 1 one argument is passed over and counted. *)
Lemma loop_top a fuel i m data p post :
    arg_wf a = true ->
    m + 1 <> i ->
    drop p data = encode_arg a ++ post ->
    MoveToArgumentOffset_loop (ntok a + fuel) i m 1 (mkTape data p)
    = MoveToArgumentOffset_loop fuel i (m + 1) 1 (mkTape data (p + length (encode_arg a))).
Proof.
    intros Hwf Hne Hdrop.
    destruct (is_set a) eqn:Hset.
    - destruct a as [ | | | | | | | xs]; try discriminate Hset.
      rewrite arg_wf_set in Hwf. rewrite encode_set_layout in Hdrop.
      rewrite encode_set_length. cbn [ntok Nat.add].
      rewrite (loop_set_begin _ _ _ _ _ _ _ (arrived_top _ _ Hne) Hdrop).
      apply (drop_prefix_skip data p [_]) in Hdrop. cbn [length] in Hdrop.
      replace (S (list_sum (map ntok xs) + fuel))%nat with (ntoks xs + S fuel)%nat
        by (unfold ntoks; lia).
      change (moved_next m 1) with (m + 1).
      assert (Hd1 : 2 <= 2) by lia. assert (Hd2 : 2 - 1 <> 0) by lia.
      rewrite (loop_nested_list xs Hwf _ i (m + 1) 2 data _ _ Hd1 Hdrop).
      apply drop_prefix_skip in Hdrop.
      rewrite (loop_set_end _ _ _ _ _ _ _ (arrived_deep i (m + 1) _ Hd1) Hd2 Hdrop).
      rewrite moved_next_deep by lia. change (2 - 1) with 1.
      do 2 f_equal. lia.
    - replace (ntok a) with 1%nat by (by destruct a).
      by rewrite (loop_leaf _ _ _ _ _ _ _ _ Hset Hwf (arrived_top _ _ Hne) Hdrop).
Qed.

Lemma loop_tops xs :
    forallb arg_wf xs = true ->
    forall fuel i m data p post,
      (forall k, 0 < k <= Z.of_nat (length xs) -> m + k <> i) ->
      drop p data = encode_args xs ++ post ->
      MoveToArgumentOffset_loop (ntoks xs + fuel) i m 1 (mkTape data p)
      = MoveToArgumentOffset_loop fuel i (m + Z.of_nat (length xs)) 1
          (mkTape data (p + length (encode_args xs))).
Proof.
    induction xs as [|x xs IH]; intros Hwf fuel i m data p post Hk Hdrop.
    - simpl. rewrite Z.add_0_r. do 2 f_equal. lia.
    - cbn [forallb] in Hwf. apply andb_true_iff in Hwf as [Hwx Hwxs].
      unfold ntoks, encode_args in *. cbn [map list_sum fold_right flat_map] in *.
      rewrite <- app_assoc in Hdrop. rewrite <- Nat.add_assoc.
      cbn [length] in Hk |- *.
      assert (H1 : m + 1 <> i) by (apply (Hk 1); lia).
      assert (Hk' : forall k, 0 < k <= Z.of_nat (length xs) -> m + 1 + k <> i).
      { intros k Hkk. specialize (Hk (k + 1)). lia. }
      rewrite (loop_top x _ i m data p _ Hwx H1 Hdrop).
      apply drop_prefix_skip in Hdrop.
      rewrite (IH Hwxs _ i (m + 1) _ _ _ Hk' Hdrop).
      rewrite length_app, Nat.add_assoc.
      by replace (m + Z.of_nat (S (length xs))) with (m + 1 + Z.of_nat (length xs)) by lia.
Qed.

End MoveToArgument.

(** ** [MoveToArgumentOffset]: where the cursor ends *)

Section MoveToArgumentSpec.
Import Loader.

Lemma forallb_take {A : Type} (f : A -> bool) (n : nat) (l : list A) :
    forallb f l = true -> forallb f (take n l) = true.
Proof.
    revert n. induction l as [|x l IH]; intros [|n] H; simpl in *; try done.
    apply andb_true_iff in H as [-> H]. by rewrite IH.
Qed.

Lemma ntoks_take_le n xs : (ntoks (take n xs) <= ntoks xs)%nat.
Proof.
    unfold ntoks. revert n. induction xs as [|x xs IH]; intros [|n]; simpl; try lia.
    specialize (IH n). lia.
Qed.

  (** The loop entered from the line's [tapeOffset], after the opening
      bracket has been read. *)
Lemma loop_enter fuel i data p post :
    drop p data = tag_of SET_BEGIN :: post ->
    MoveToArgumentOffset_loop (S fuel) i (-1) 0 (mkTape data p)
    = MoveToArgumentOffset_loop fuel i (-1) 1 (mkTape data (p + 1)).
Proof.
    intros H. by rewrite (loop_set_begin fuel i (-1) 0 data p post eq_refl H).
Qed.

  (** Before the opening bracket (depth 0) tokens are passed over and
      nothing is counted. *)
Lemma loop_prefix pre :
    forallb leaf_wf pre = true ->
    forall fuel i m data p post,
      drop p data = encode_args pre ++ post ->
      MoveToArgumentOffset_loop (length pre + fuel) i m 0 (mkTape data p)
      = MoveToArgumentOffset_loop fuel i m 0 (mkTape data (p + length (encode_args pre))).
Proof.
    unfold encode_args.
    induction pre as [|a pre IH]; intros Hwf fuel i m data p post Hdrop.
    - simpl. do 2 f_equal. lia.
    - cbn [forallb] in Hwf. apply andb_true_iff in Hwf as [Ha Hpre].
      unfold leaf_wf in Ha. apply andb_true_iff in Ha as [Hleaf Hwa].
      apply negb_true_iff in Hleaf.
      cbn [flat_map length Nat.add] in *. rewrite <- app_assoc in Hdrop.
      rewrite (loop_leaf a _ i m 0 data p _ Hleaf Hwa eq_refl Hdrop).
      apply drop_prefix_skip in Hdrop. change (moved_next m 0) with m.
      rewrite (IH Hpre _ _ _ _ _ _ Hdrop). rewrite length_app, Nat.add_assoc. done.
Qed.

Lemma length_le_encode_args pre : (length pre <= length (encode_args pre))%nat.
Proof.
    unfold encode_args. induction pre as [|a pre IH]; simpl; [lia|].
    rewrite length_app. pose proof (encode_arg_nonempty a). lia.
Qed.

  (** The loop from the line's [tapeOffset] up to the first argument. *)
Lemma loop_to_first_arg data off pre args post i :
    forallb leaf_wf pre = true ->
    drop off data = encode_args pre ++ encode_arg (ASet args) ++ post ->
    exists fuel,
      (ntoks args < fuel)%nat /\
      drop (off + length (encode_args pre) + 1) data
        = encode_args args ++ tag_of SET_END :: post /\
      MoveToArgumentOffset_loop (S (length data)) i (-1) 0 (mkTape data off)
      = MoveToArgumentOffset_loop fuel i (-1) 1
          (mkTape data (off + length (encode_args pre) + 1)).
Proof.
    intros Hpre Hdrop.
    rewrite encode_set_layout in Hdrop.
    pose proof (drop_prefix_bound _ _ _ _ Hdrop) as Hlen0.
    pose proof (length_le_encode_args pre) as Hlp.
    cbn [length] in Hlen0. rewrite length_app in Hlen0. cbn [length] in Hlen0.
    pose proof (ntoks_le_length args).
    exists (length data - length pre)%nat. split; [lia|].
    replace (S (length data)) with (length pre + S (length data - length pre))%nat
      by lia.
    rewrite (loop_prefix pre Hpre _ _ _ _ _ _ Hdrop).
    apply drop_prefix_skip in Hdrop.
    rewrite (loop_enter _ _ _ _ _ Hdrop).
    apply (drop_prefix_skip data _ [_]) in Hdrop. cbn [length] in Hdrop.
    split; [exact Hdrop | reflexivity].
Qed.

  (** Argument [i] exists: the cursor stops on its tag byte. *)
Lemma tape_MoveToArgumentOffset_valid data p0 off pre args post (i : nat) :
    0 <= off ->
    forallb leaf_wf pre = true ->
    drop (Z.to_nat off) data = encode_args pre ++ encode_arg (ASet args) ++ post ->
    (i < length args)%nat ->
    forallb arg_wf (take i args) = true ->
    tape_MoveToArgumentOffset off (Z.of_nat i) (mkTape data p0)
    = Ok (tt, mkTape data (Z.to_nat off + length (encode_args pre) + 1
                            + length (encode_args (take i args)))).
Proof.
    intros Hoff Hpre Hdrop0 Hi Hwf.
    unfold tape_MoveToArgumentOffset, tape_MoveTo, bind, get, tape_at, tape_fuel.
    cbn [tape_data readPtr].
    destruct (loop_to_first_arg _ _ _ _ _ (Z.of_nat i) Hpre Hdrop0) as (fuel & Hfuel & Hdrop & ->).
    rewrite <- (take_drop i args), encode_args_app, <- app_assoc in Hdrop.
    pose proof (ntoks_take_le i args).
    replace fuel with (ntoks (take i args) + S (fuel - ntoks (take i args) - 1))%nat by lia.
    assert (Hk : forall k, 0 < k <= Z.of_nat (length (take i args)) -> -1 + k <> Z.of_nat i).
    { intros k Hk. rewrite length_take_le in Hk by lia. lia. }
    rewrite (loop_tops _ Hwf _ _ _ _ _ _ Hk Hdrop).
    rewrite length_take_le by lia.
    by rewrite loop_arrive by lia.
Qed.

  (** Fewer than [i + 1] arguments: the loop runs to the closing bracket
      and returns; no fault is raised. *)
Lemma tape_MoveToArgumentOffset_short data p0 off pre args post (i : Z) :
    0 <= off ->
    forallb leaf_wf pre = true ->
    drop (Z.to_nat off) data = encode_args pre ++ encode_arg (ASet args) ++ post ->
    forallb arg_wf args = true ->
    i < 0 \/ Z.of_nat (length args) <= i ->
    tape_MoveToArgumentOffset off i (mkTape data p0)
    = Ok (tt, mkTape data
                (Z.to_nat off + length (encode_args pre) + 1 + length (encode_args args)
                 + (if i =? Z.of_nat (length args) then 0 else 1))).
Proof.
    intros Hoff Hpre Hdrop0 Hwf Hi.
    unfold tape_MoveToArgumentOffset, tape_MoveTo, bind, get, tape_at, tape_fuel.
    cbn [tape_data readPtr].
    destruct (loop_to_first_arg _ _ _ _ _ i Hpre Hdrop0) as (fuel & Hfuel & Hdrop & ->).
    replace fuel with (ntoks args + S (fuel - ntoks args - 1))%nat by lia.
    assert (Hk : forall k, 0 < k <= Z.of_nat (length args) -> -1 + k <> i) by lia.
    rewrite (loop_tops _ Hwf _ _ _ _ _ _ Hk Hdrop).
    apply drop_prefix_skip in Hdrop.
    destruct (Z.eqb_spec i (Z.of_nat (length args))) as [He|Hne].
    - rewrite loop_arrive by lia. do 3 f_equal. lia.
    - assert (Hn : -1 + Z.of_nat (length args) + 1 <> i) by lia.
      by rewrite (loop_set_close _ _ _ _ _ _ Hn Hdrop).
Qed.

End MoveToArgumentSpec.

(** ** [GetSetArgument]: what the loop records *)

Section GetSetArgumentSpec.
Import Loader.

Lemma set_loop_S fuel depth acc :
    GetSetArgument_loop (S fuel) depth acc =
    let* pos := tape_GetReadOffset in
    let offset := wrap32 pos in
    let* c := Read_char in
    let continue (depth : Z) (tapeOffsets : list Z) :=
      if depth =? 0 then ret tapeOffsets
      else GetSetArgument_loop fuel depth tapeOffsets in
    if is_tag c SET_BEGIN then continue (depth + 1) acc
    else if is_tag c SET_END then continue (depth - 1) acc
    else
      let tapeOffsets := acc ++ [offset] in
      if is_tag c REAL then Read_double ;; continue depth tapeOffsets
      else if is_tag c REF then Read_uint32 ;; continue depth tapeOffsets
      else if is_tag c STRING then
        (let* length := Read_uint8 in AdvanceRead length ;; continue depth tapeOffsets)
      else if is_tag c LABEL then
        (let* length := Read_uint8 in AdvanceRead length ;; continue depth tapeOffsets)
      else fail AssertFailed.
Proof. reflexivity. Qed.

Lemma set_loop_read fuel depth acc data p c post :
    drop p data = c :: post ->
    GetSetArgument_loop (S fuel) depth acc (mkTape data p) =
    (let continue (depth : Z) (tapeOffsets : list Z) :=
      if depth =? 0 then ret tapeOffsets
      else GetSetArgument_loop fuel depth tapeOffsets in
    if is_tag c SET_BEGIN then continue (depth + 1) acc
    else if is_tag c SET_END then continue (depth - 1) acc
    else
      let tapeOffsets := acc ++ [wrap32 (Z.of_nat p)] in
      if is_tag c REAL then Read_double ;; continue depth tapeOffsets
      else if is_tag c REF then Read_uint32 ;; continue depth tapeOffsets
      else if is_tag c STRING then
        (let* length := Read_uint8 in AdvanceRead length ;; continue depth tapeOffsets)
      else if is_tag c LABEL then
        (let* length := Read_uint8 in AdvanceRead length ;; continue depth tapeOffsets)
      else fail AssertFailed) (mkTape data (p + 1)).
Proof.
    intros H. rewrite set_loop_S.
    unfold bind at 1, tape_GetReadOffset. cbn [readPtr].
    by rewrite (bind_Ok _ _ _ _ _ (Read_char_ok _ _ _ _ H)).
Qed.

  (** An element that is not a set: its offset is recorded and its payload
      skipped. *)
Lemma set_loop_leaf a fuel depth acc data p post :
    is_set a = false ->
    set_readable a = true ->
    depth <> 0 ->
    drop p data = encode_arg a ++ post ->
    GetSetArgument_loop (S fuel) depth acc (mkTape data p)
    = GetSetArgument_loop fuel depth (acc ++ [wrap32 (Z.of_nat p)])
        (mkTape data (p + length (encode_arg a))).
Proof.
    intros Hset Hrd Hd Hdrop.
    destruct a as [ | | s | s | s | b | h | xs]; try discriminate;
      cbn [encode_arg] in Hdrop |- *;
      rewrite (set_loop_read _ _ _ _ _ _ _ Hdrop);
      apply (drop_prefix_skip data p [_]) in Hdrop; cbn [length] in Hdrop;
      cbv beta zeta; cbn [is_tag tokenType tag_of Z.eqb Pos.eqb];
      rewrite (proj2 (Z.eqb_neq _ _) Hd).
    - rewrite (skip_string _ _ _ _ _ Hdrop). do 2 f_equal. simpl. lia.
    - rewrite (skip_string _ _ _ _ _ Hdrop). do 2 f_equal. simpl. lia.
    - rewrite (skip_double _ _ _ _ _ Hdrop). do 2 f_equal. simpl. lia.
    - rewrite (skip_uint32 _ _ _ _ _ Hdrop). do 2 f_equal. simpl. lia.
Qed.

Lemma set_loop_begin fuel depth acc data p post :
    depth + 1 <> 0 ->
    drop p data = tag_of SET_BEGIN :: post ->
    GetSetArgument_loop (S fuel) depth acc (mkTape data p)
    = GetSetArgument_loop fuel (depth + 1) acc (mkTape data (p + 1)).
Proof.
    intros Hd Hdrop. rewrite (set_loop_read _ _ _ _ _ _ _ Hdrop).
    cbv beta zeta. cbn [is_tag tokenType tag_of Z.eqb Pos.eqb].
    by rewrite (proj2 (Z.eqb_neq _ _) Hd).
Qed.

Lemma set_loop_end fuel depth acc data p post :
    depth - 1 <> 0 ->
    drop p data = tag_of SET_END :: post ->
    GetSetArgument_loop (S fuel) depth acc (mkTape data p)
    = GetSetArgument_loop fuel (depth - 1) acc (mkTape data (p + 1)).
Proof.
    intros Hd Hdrop. rewrite (set_loop_read _ _ _ _ _ _ _ Hdrop).
    cbv beta zeta. cbn [is_tag tokenType tag_of Z.eqb Pos.eqb].
    by rewrite (proj2 (Z.eqb_neq _ _) Hd).
Qed.

Lemma set_loop_close fuel acc data p post :
    drop p data = tag_of SET_END :: post ->
    GetSetArgument_loop (S fuel) 1 acc (mkTape data p) = Ok (acc, mkTape data (p + 1)).
Proof.
    intros Hdrop. by rewrite (set_loop_read _ _ _ _ _ _ _ Hdrop).
Qed.


Lemma records_leaves_list xs :
    Forall records_leaves xs ->
    forallb arg_wf xs = true -> forallb set_readable xs = true ->
    forall fuel depth acc data p post,
      1 <= depth ->
      drop p data = encode_args xs ++ post ->
      GetSetArgument_loop (ntoks xs + fuel) depth acc (mkTape data p)
      = GetSetArgument_loop fuel depth (acc ++ map wrap32 (leaf_offsets_list p xs))
          (mkTape data (p + length (encode_args xs))).
Proof.
    unfold ntoks, encode_args.
    induction 1 as [|x xs Hx _ IH]; intros Hwf Hrd fuel depth acc data p post Hd Hdrop.
    - simpl. rewrite app_nil_r. do 2 f_equal. lia.
    - cbn [forallb] in Hwf, Hrd.
      apply andb_true_iff in Hwf as [Hwx Hwxs]. apply andb_true_iff in Hrd as [Hrx Hrxs].
      cbn [map list_sum fold_right flat_map leaf_offsets_list] in *.
      rewrite <- app_assoc in Hdrop. rewrite <- Nat.add_assoc.
      rewrite (Hx Hwx Hrx _ depth acc data p _ Hd Hdrop).
      apply drop_prefix_skip in Hdrop.
      rewrite (IH Hwxs Hrxs _ _ _ _ _ _ Hd Hdrop).
      rewrite map_app, app_assoc, length_app, Nat.add_assoc. done.
Qed.

Lemma set_readable_set xs : set_readable (ASet xs) = forallb set_readable xs.
Proof. reflexivity. Qed.

Lemma set_loop_arg a : records_leaves a.
Proof.
    unfold records_leaves.
    induction a as [ | | s | s | s | b | h | xs IH] using Arg_ind_nested;
      intros Hwf Hrd fuel depth acc data p post Hd Hdrop;
      try discriminate Hrd;
      assert (Hd0 : depth <> 0) by lia;
      try (cbn [ntok Nat.add];
           match type of Hdrop with
           | drop _ _ = encode_arg ?a ++ _ =>
               by rewrite (set_loop_leaf a _ _ _ _ _ _ eq_refl Hrd Hd0 Hdrop)
           end).
    rewrite arg_wf_set in Hwf. rewrite set_readable_set in Hrd.
    rewrite encode_set_layout in Hdrop.
    rewrite encode_set_length, leaf_offsets_set. cbn [ntok Nat.add].
    assert (Hd1 : depth + 1 <> 0) by lia. assert (Hd2 : 1 <= depth + 1) by lia.
    assert (Hd3 : depth + 1 - 1 <> 0) by lia.
    rewrite (set_loop_begin _ _ _ _ _ _ Hd1 Hdrop).
    apply (drop_prefix_skip data p [_]) in Hdrop. cbn [length] in Hdrop.
    replace (S (list_sum (map ntok xs) + fuel))%nat with (ntoks xs + S fuel)%nat
      by (unfold ntoks; lia).
    rewrite (records_leaves_list xs IH Hwf Hrd _ _ _ _ _ _ Hd2 Hdrop).
    apply drop_prefix_skip in Hdrop.
    rewrite (set_loop_end _ _ _ _ _ _ Hd3 Hdrop).
    replace (depth + 1 - 1) with depth by lia.
    replace (p + 1)%nat with (S p) by lia.
    do 2 f_equal. lia.
Qed.

Lemma set_loop_args xs :
    forallb arg_wf xs = true -> forallb set_readable xs = true ->
    forall fuel depth acc data p post,
      1 <= depth ->
      drop p data = encode_args xs ++ post ->
      GetSetArgument_loop (ntoks xs + fuel) depth acc (mkTape data p)
      = GetSetArgument_loop fuel depth (acc ++ map wrap32 (leaf_offsets_list p xs))
          (mkTape data (p + length (encode_args xs))).
Proof.
    apply records_leaves_list. apply Forall_forall. intros a _. apply set_loop_arg.
Qed.

  (** With the cursor on a set, [GetSetArgument] returns the offsets of all
      its tokens that are not brackets and leaves the cursor past the set. *)
Lemma tape_GetSetArgument_spec data p xs post :
    forallb arg_wf xs = true -> forallb set_readable xs = true ->
    drop p data = encode_arg (ASet xs) ++ post ->
    tape_GetSetArgument (mkTape data p)
    = Ok (map wrap32 (leaf_offsets p (ASet xs)),
          mkTape data (p + length (encode_arg (ASet xs)))).
Proof.
    intros Hwf Hrd Hdrop. unfold tape_GetSetArgument.
    rewrite encode_set_layout in Hdrop.
    pose proof (drop_prefix_bound _ _ [_] _ Hdrop) as Hlen.
    rewrite length_app in Hlen. cbn [length] in Hlen.
    rewrite (bind_Ok _ _ _ _ _ (Read_char_ok _ _ _ _ Hdrop)).
    unfold bind, get, tape_fuel. cbn [tape_data].
    apply (drop_prefix_skip data p [_]) in Hdrop. cbn [length] in Hdrop.
    pose proof (ntoks_le_length xs).
    replace (S (length data)) with (ntoks xs + S (length data - ntoks xs))%nat by lia.
    assert (H1 : 1 <= 1) by lia.
    rewrite (set_loop_args xs Hwf Hrd _ 1 [] data _ _ H1 Hdrop).
    apply drop_prefix_skip in Hdrop.
    rewrite (set_loop_close _ _ _ _ _ Hdrop).
    rewrite leaf_offsets_set, encode_set_length. simpl app.
    replace (p + 1)%nat with (S p) by lia.
    do 3 f_equal. lia.
Qed.

End GetSetArgumentSpec.

(** ** Offsets of elements *)

Section Offsets.

Lemma wrap32_small z : 0 <= z < 2 ^ 32 -> wrap32 z = z.
Proof. intros H. unfold wrap32. by apply Z.mod_small. Qed.

Lemma map_wrap32_small (l : list Z) :
    Forall (fun z => 0 <= z < 2 ^ 32) l -> map wrap32 l = l.
Proof.
    induction 1 as [|z l Hz _ IH]; simpl; [done|]. by rewrite wrap32_small, IH.
Qed.


Lemma within_weaken b n b' n' z :
    (b' <= b)%nat -> (b + n <= b' + n')%nat -> within b n z -> within b' n' z.
Proof. unfold within. lia. Qed.

Lemma leaf_offsets_within a :
    forall b, Forall (within b (length (encode_arg a))) (leaf_offsets b a).
Proof.
    induction a as [ | | s | s | s | r | h | xs IH] using Arg_ind_nested; intros b;
      try (cbn [leaf_offsets]; constructor; [|constructor];
           unfold within; simpl; lia).
    rewrite leaf_offsets_set, encode_set_length.
    assert (H : forall b', Forall (within b' (length (encode_args xs))) (leaf_offsets_list b' xs)).
    { induction IH as [|x xs Hx _ IHxs]; intros b'; cbn [leaf_offsets_list]; [constructor|].
      unfold encode_args in *. cbn [flat_map]. rewrite length_app.
      apply Forall_app. split.
      - eapply Forall_impl; [apply Hx|]. intros z. apply within_weaken; lia.
      - eapply Forall_impl; [apply IHxs|]. intros z. apply within_weaken; lia. }
    eapply Forall_impl; [apply H|]. intros z. apply within_weaken; lia.
Qed.

  (** On a tape shorter than 4 GB the [uint32_t] copies are the offsets. *)
Lemma leaf_offsets_wrap32 data p a post :
    Z.of_nat (length data) < 2 ^ 32 ->
    drop p data = encode_arg a ++ post ->
    map wrap32 (leaf_offsets p a) = leaf_offsets p a.
Proof.
    intros Hlen Hdrop. apply map_wrap32_small.
    pose proof (drop_prefix_bound _ _ _ _ Hdrop) as Hb.
    pose proof (encode_arg_nonempty a).
    eapply Forall_impl; [apply leaf_offsets_within|].
    intros z. unfold within. lia.
Qed.

  (** Without nested sets the recorded tokens are the top-level elements. *)
Lemma leaf_offsets_flat xs :
    forallb (fun a => negb (is_set a)) xs = true ->
    forall b, leaf_offsets_list b xs = top_offsets b xs.
Proof.
    induction xs as [|x xs IH]; intros H b; [done|].
    cbn [forallb] in H. apply andb_true_iff in H as [Hx Hxs].
    cbn [leaf_offsets_list top_offsets]. rewrite (IH Hxs).
    by destruct x.
Qed.


Lemma top_offsets_elements data xs :
    forall b post,
      drop b data = encode_args xs ++ post ->
      Forall2 (element_at data) (top_offsets b xs) xs.
Proof.
    unfold encode_args.
    induction xs as [|x xs IH]; intros b post Hdrop; cbn [top_offsets]; constructor.
    - split; [lia|]. rewrite Nat2Z.id. cbn [flat_map] in Hdrop.
      rewrite <- app_assoc in Hdrop. eauto.
    - cbn [flat_map] in Hdrop. rewrite <- app_assoc in Hdrop.
      apply drop_prefix_skip in Hdrop. by eapply IH.
Qed.

End Offsets.

(** ** The argument cursor on the loader *)

Section CursorOnLoader.
Import Loader.

Lemma on_tape_Ok {A : Type} (m : SE DynamicTape A) (s : IfcLoader) a t' :
    m (_tape s) = Ok (a, t') -> on_tape m s = Ok (a, with_tape s t').
Proof. intros H. unfold on_tape. by rewrite H. Qed.

Lemma tape_eta (t : DynamicTape) : t = mkTape (tape_data t) (readPtr t).
Proof. by destruct t. Qed.

Lemma MoveToArgumentOffset_valid s l pre args (i : nat) :
    line_has_args (tape_data (_tape s)) l pre args ->
    (i < length args)%nat ->
    forallb arg_wf (take i args) = true ->
    MoveToArgumentOffset l (Z.of_nat i) s
    = Ok (tt, with_tape s (tape_at (_tape s)
               (args_start l pre + 1 + length (encode_args (take i args))))).
Proof.
    intros (Hoff & Hpre & post & Hdrop) Hi Hwf. unfold MoveToArgumentOffset.
    apply on_tape_Ok. rewrite (tape_eta (_tape s)) at 1.
    by apply (tape_MoveToArgumentOffset_valid _ _ _ pre args post).
Qed.

Lemma GetSetArgument_spec s xs post :
    Z.of_nat (length (tape_data (_tape s))) < 2 ^ 32 ->
    forallb arg_wf xs = true -> forallb set_readable xs = true ->
    tape_rest (_tape s) = encode_arg (ASet xs) ++ post ->
    GetSetArgument s
    = Ok (leaf_offsets (readPtr (_tape s)) (ASet xs),
          with_tape s (tape_at (_tape s)
            (readPtr (_tape s) + length (encode_arg (ASet xs))))).
Proof.
    intros Hlen Hwf Hrd Hdrop. unfold GetSetArgument.
    apply on_tape_Ok. rewrite (tape_eta (_tape s)) at 1.
    rewrite (tape_GetSetArgument_spec _ _ xs post Hwf Hrd Hdrop).
    by rewrite (leaf_offsets_wrap32 _ _ _ _ Hlen Hdrop).
Qed.

End CursorOnLoader.

(** ** C1: the offsets returned by [GetSetArgument] *)

(** C1, as amended.  With the cursor on a set whose elements are REAL, REF,
    STRING or LABEL tokens or, recursively, sets of such, on a tape shorter
    than 4 GB, [GetSetArgument] returns the offsets of all tokens of the set
    that are not brackets, at every nesting depth and in tape order, and
    leaves the cursor just past the set: the contents of nested sets are
    included (flattened), not skipped.  When no element is a nested set, the
    tokens at the returned offsets are, in order, exactly the top-level
    elements. *)
Theorem GetSetArgument_offsets (s : IfcLoader) (xs : list Arg) (post : list Z) :
  Z.of_nat (length (tape_data (_tape s))) < 2 ^ 32 ->
  forallb arg_wf xs = true ->
  forallb set_readable xs = true ->
  tape_rest (_tape s) = encode_arg (ASet xs) ++ post ->
  Loader.GetSetArgument s
  = Ok (leaf_offsets (readPtr (_tape s)) (ASet xs),
        with_tape s (tape_at (_tape s)
          (readPtr (_tape s) + length (encode_arg (ASet xs)))))
  /\ (forallb (fun a => negb (is_set a)) xs = true ->
      Forall2 (element_at (tape_data (_tape s)))
        (leaf_offsets (readPtr (_tape s)) (ASet xs)) xs).
Proof.
  intros Hlen Hwf Hrd Hdrop. split.
  - by apply (GetSetArgument_spec s xs post).
  - intros Hflat. rewrite leaf_offsets_set, (leaf_offsets_flat _ Hflat).
    unfold tape_rest in Hdrop. rewrite encode_set_layout in Hdrop.
    apply (drop_prefix_skip _ _ [_]) in Hdrop. cbn [length] in Hdrop.
    replace (S (readPtr (_tape s))) with (readPtr (_tape s) + 1)%nat by lia.
    by eapply top_offsets_elements.
Qed.

Lemma GetSetArgument_offsets_witness :
  Z.of_nat (length (tape_data (_tape Samples.nested_loader))) < 2 ^ 32 /\
  forallb arg_wf Samples.nested_elems = true /\
  forallb set_readable Samples.nested_elems = true /\
  tape_rest (_tape Samples.nested_loader)
    = encode_arg (ASet Samples.nested_elems) ++ [tag_of SET_END; tag_of LINE_END] /\
  Loader.GetSetArgument Samples.nested_loader
    = Ok ([10; 16; 21], with_tape Samples.nested_loader (mkTape Samples.nested_tape 28)).
Proof.
  split; [vm_compute; reflexivity|]. split; [reflexivity|]. split; [reflexivity|].
  split; [reflexivity|].
  apply (GetSetArgument_offsets Samples.nested_loader Samples.nested_elems
           [tag_of SET_END; tag_of LINE_END]); [vm_compute|..]; reflexivity.
Defined.

(** C1 as stated fails on [#1=X((#2,(#3,#4)));]: the set at argument 0 has
    the two top-level elements [#2] and [(#3,#4)], and [GetSetArgument]
    returns three offsets, those of [#2], [#3] and [#4]. *)
Lemma GetSetArgument_includes_nested :
  tape_rest (_tape Samples.nested_loader)
    = encode_arg (ASet Samples.nested_elems) ++ [tag_of SET_END; tag_of LINE_END] /\
  Loader.GetSetArgument Samples.nested_loader
    = Ok ([10; 16; 21], with_tape Samples.nested_loader (mkTape Samples.nested_tape 28)) /\
  element_at Samples.nested_tape 16 (ARef 3) /\
  element_at Samples.nested_tape 21 (ARef 4) /\
  ~ Forall2 (element_at Samples.nested_tape) [10; 16; 21] Samples.nested_elems.
Proof.
  split; [reflexivity|]. split; [reflexivity|].
  split; [split; [lia | by exists [5; 4; 0; 0; 0; 8; 8; 8; 9]]|].
  split; [split; [lia | by exists [8; 8; 8; 9]]|].
  intros H. apply Forall2_length in H. discriminate H.
Qed.

(** ** C3: [MoveToArgumentOffset] past the last argument *)

(** C3, as amended.  When the line has fewer than [i + 1] top-level
    arguments, [MoveToArgumentOffset] raises no fault: it returns normally,
    with the cursor on the bracket that closes the argument list when [i] is
    the number of arguments, and just past that bracket (on the line's
    LINE_END token) when [i] is larger. *)
Theorem MoveToArgumentOffset_past_last (s : IfcLoader) (l : IfcLine)
    (pre args : list Arg) (i : Z) :
  line_has_args (tape_data (_tape s)) l pre args ->
  forallb arg_wf args = true ->
  Z.of_nat (length args) < i + 1 ->
  Loader.MoveToArgumentOffset l i s
  = Ok (tt, with_tape s (tape_at (_tape s)
             (args_start l pre + 1 + length (encode_args args)
              + (if i =? Z.of_nat (length args) then 0 else 1)))).
Proof.
  intros (Hoff & Hpre & post & Hdrop) Hwf Hi. unfold Loader.MoveToArgumentOffset.
  apply on_tape_Ok. rewrite (tape_eta (_tape s)) at 1.
  apply (tape_MoveToArgumentOffset_short _ _ _ pre args post); auto with lia.
Qed.

Lemma MoveToArgumentOffset_past_last_witness :
  line_has_args Samples.one_arg_tape Samples.one_arg_line
    Samples.one_arg_pre Samples.one_arg_args /\
  forallb arg_wf Samples.one_arg_args = true /\
  Z.of_nat (length Samples.one_arg_args) < 2 + 1 /\
  Loader.MoveToArgumentOffset Samples.one_arg_line 2 Samples.one_arg_loader
  = Ok (tt, with_tape Samples.one_arg_loader (mkTape Samples.one_arg_tape 13)).
Proof.
  assert (H : line_has_args Samples.one_arg_tape Samples.one_arg_line
                Samples.one_arg_pre Samples.one_arg_args).
  { split; [simpl; lia|]. split; [reflexivity|]. by exists [tag_of LINE_END]. }
  split; [exact H|]. split; [reflexivity|]. split; [simpl; lia|].
  apply (MoveToArgumentOffset_past_last Samples.one_arg_loader Samples.one_arg_line
           Samples.one_arg_pre Samples.one_arg_args 2 H); [reflexivity | simpl; lia].
Defined.

(** C3 as stated fails on [#1=X('a');]: the line has one argument, and
    [MoveToArgumentOffset] with index 1 returns without a fault, the cursor
    on the closing bracket at offset 12. *)
Lemma MoveToArgumentOffset_no_fault :
  line_has_args Samples.one_arg_tape Samples.one_arg_line
    Samples.one_arg_pre Samples.one_arg_args /\
  Z.of_nat (length Samples.one_arg_args) < 1 + 1 /\
  Loader.MoveToArgumentOffset Samples.one_arg_line 1 Samples.one_arg_loader
  = Ok (tt, with_tape Samples.one_arg_loader (mkTape Samples.one_arg_tape 12)) /\
  ~ faults (Loader.MoveToArgumentOffset Samples.one_arg_line 1 Samples.one_arg_loader).
Proof.
  split; [split; [simpl; lia | split; [reflexivity | by exists [tag_of LINE_END]]]|].
  split; [simpl; lia|]. split; [reflexivity|].
  intros [e He]. discriminate He.
Qed.

(** ** Loader operations on a laid-out line *)

Section LoaderSteps.
Import Loader.

Lemma at_cursor_meta s p : _metaData (at_cursor s p) = _metaData s.
Proof. reflexivity. Qed.

Lemma at_cursor_data s p : tape_data (_tape (at_cursor s p)) = tape_data (_tape s).
Proof. reflexivity. Qed.

Lemma at_cursor_ptr s p : readPtr (_tape (at_cursor s p)) = p.
Proof. reflexivity. Qed.

Lemma at_cursor_twice s p q : at_cursor (at_cursor s p) q = at_cursor s q.
Proof. reflexivity. Qed.

Lemma at_cursor_with_meta s m p : at_cursor (with_meta s m) p = with_meta (at_cursor s p) m.
Proof. reflexivity. Qed.

Lemma on_tape_at {A : Type} (m : SE DynamicTape A) s a q :
  m (mkTape (tape_data (_tape s)) (readPtr (_tape s)))
    = Ok (a, mkTape (tape_data (_tape s)) q) ->
  on_tape m s = Ok (a, at_cursor s q).
Proof.
  intros H. apply on_tape_Ok. by rewrite (tape_eta (_tape s)) at 1.
Qed.

(** [GetLine(ExpressIDToLineID(h))] on a handle that has a line. *)
Lemma resolve_line {B : Type} s h l (k : IfcLine -> SE IfcLoader B) :
  line_of (_metaData s) h = Some l ->
  (let* i := ExpressIDToLineID h in let* l := GetLine i in k l) s = k l s.
Proof.
  unfold line_of, ExpressIDToLineID, GetLine, vec_at, bind, get, ret, fail.
  destruct (h <? 0); [done|].
  destruct (expressIDToLine (_metaData s) !! Z.to_nat h) as [i|]; [|done].
  destruct (i <? 0); [done|]. by intros ->.
Qed.

Lemma GetRefArgument_here s r post :
  0 <= r < 2 ^ 32 ->
  tape_rest (_tape s) = encode_arg (ARef r) ++ post ->
  GetRefArgument s = Ok (r, at_cursor s (readPtr (_tape s) + 5)).
Proof.
  intros Hr Hd. unfold GetRefArgument. apply on_tape_at. unfold tape_GetRefArgument.
  unfold tape_rest in Hd. cbn [encode_arg] in Hd.
  rewrite (bind_Ok _ _ _ _ _ (Read_char_ok _ _ _ _ Hd)).
  apply (drop_prefix_skip _ _ [_]) in Hd. cbn [length] in Hd.
  rewrite (Read_uint32_ok _ _ _ _ Hr Hd). do 3 f_equal. lia.
Qed.

Lemma GetRefArgumentAt_element s o r :
  0 <= r < 2 ^ 32 ->
  element_at (tape_data (_tape s)) o (ARef r) ->
  GetRefArgumentAt o s = Ok (r, at_cursor s (Z.to_nat o + 5)).
Proof.
  intros Hr [Ho [post Hd]]. unfold GetRefArgumentAt, MoveTo.
  unfold bind at 1. unfold on_tape at 1, tape_MoveTo.
  change (GetRefArgument (at_cursor s (Z.to_nat o)) = Ok (r, at_cursor s (Z.to_nat o + 5))).
  by rewrite (GetRefArgument_here (at_cursor s (Z.to_nat o)) r post Hr Hd).
Qed.

(** [GetStringArgument] reads the payload of a STRING, LABEL or ENUM token
    alike: the tag is not looked at. *)
Lemma GetStringArgument_here s tag str post :
  Z.of_nat (length str) < 256 ->
  tape_rest (_tape s) = tag :: Z.of_nat (length str) :: str ++ post ->
  GetStringArgument s = Ok (str, at_cursor s (readPtr (_tape s) + 2 + length str)).
Proof.
  intros Hl Hd. unfold GetStringArgument. apply on_tape_at. unfold tape_GetStringArgument.
  unfold tape_rest in Hd.
  rewrite (bind_Ok _ _ _ _ _ (Read_char_ok _ _ _ _ Hd)).
  apply (drop_prefix_skip _ _ [_]) in Hd. cbn [length] in Hd.
  rewrite (ReadStringView_ok _ _ _ _ Hl Hd). do 3 f_equal. lia.
Qed.

Lemma GetTokenType_here s c post :
  tape_rest (_tape s) = c :: post ->
  GetTokenType s = Ok (c, at_cursor s (readPtr (_tape s) + 1)).
Proof.
  intros Hd. unfold GetTokenType. apply on_tape_at. by apply (Read_char_ok _ _ _ post).
Qed.

Lemma Reverse_here s : Reverse s = Ok (tt, at_cursor s (readPtr (_tape s) - 1)).
Proof. reflexivity. Qed.


Lemma arg_offset_content data l pre args i a :
  line_has_args data l pre args ->
  args !! i = Some a ->
  exists post, drop (arg_offset l pre args i) data = encode_arg a ++ post.
Proof.
  intros (Hoff & Hpre & post & Hd) Ha. unfold arg_offset, args_start.
  rewrite encode_set_layout in Hd.
  apply drop_prefix_skip in Hd.
  apply (drop_prefix_skip _ _ [_]) in Hd. cbn [length] in Hd.
  rewrite <- (take_drop_middle args i a Ha), encode_args_app in Hd.
  rewrite <- app_assoc in Hd. apply drop_prefix_skip in Hd.
  rewrite encode_args_cons, <- app_assoc in Hd. eauto.
Qed.

Lemma MoveToArgumentOffset_arg s l pre args (i : nat) a :
  line_has_args (tape_data (_tape s)) l pre args ->
  args !! i = Some a ->
  forallb arg_wf (take i args) = true ->
  MoveToArgumentOffset l (Z.of_nat i) s = Ok (tt, at_cursor s (arg_offset l pre args i)).
Proof.
  intros Hl Ha Hwf. apply (MoveToArgumentOffset_valid s l pre args i Hl); [|done].
  by apply lookup_lt_Some in Ha.
Qed.

End LoaderSteps.

(** ** The styled-item pass *)

Section StyledItems.
Import Loader.
Variable sch : Schema.

Lemma arg_offset_S l pre args i a :
  args !! i = Some a ->
  arg_offset l pre args (S i) = (arg_offset l pre args i + length (encode_arg a))%nat.
Proof.
  intros Ha. unfold arg_offset.
  rewrite (take_S_r _ _ _ Ha), encode_args_app, length_app.
  unfold encode_args at 2. simpl. rewrite app_nil_r. lia.
Qed.

Lemma top_offsets_refs_elements data b rs post :
  drop b data = encode_args (map ARef rs) ++ post ->
  Forall2 (fun o r => element_at data o (ARef r)) (top_offsets b (map ARef rs)) rs.
Proof.
  intros Hd. pose proof (top_offsets_elements data (map ARef rs) b post Hd) as H.
  remember (top_offsets b (map ARef rs)) as os eqn:E. clear E Hd.
  revert os H. induction rs as [|r rs IH]; intros os H; inversion H; subst; constructor; auto.
Qed.

(** The loop over the offsets of the style assignments. *)
Lemma styled_assignments_loop data rep sid :
  forall os rs s,
    tape_data (_tape s) = data ->
    Forall2 (fun o r => element_at data o (ARef r)) os rs ->
    Forall is_u32 rs ->
    exists p,
      forM_ os (fun styleAssignment =>
        let* styleAssignmentID := GetRefArgumentAt styleAssignment in
        let* md := get_meta in
        put_meta (set_styledItems md
          (map_push (_styledItems md) rep (sid, styleAssignmentID)))) s
      = Ok (tt, with_meta (at_cursor s p)
                  (set_styledItems (_metaData s)
                     (push_all rep (map (fun a => (sid, a)) rs)
                        (_styledItems (_metaData s))))).
Proof.
  induction os as [|o os IH]; intros rs s Hdata Hel Hrs.
  - inversion Hel; subst. exists (readPtr (_tape s)). simpl.
    unfold ret. do 2 f_equal. by destruct s as [? [] ? []].
  - inversion Hel as [|? r ? rs' Ho Hos]; subst. inversion Hrs as [|? ? Hr Hrs']; subst.
    cbn [forM_].
    destruct (IH rs' (with_meta (at_cursor s (Z.to_nat o + 5))
                (set_styledItems (_metaData s)
                   (map_push (_styledItems (_metaData s)) rep (sid, r))))
                eq_refl Hos Hrs') as [p Hp].
    exists p. unfold bind at 1.
    unfold bind at 1. rewrite (GetRefArgumentAt_element s o r Hr Ho).
    unfold bind at 1, get_meta, put_meta. exact Hp.
Qed.

Lemma forallb_arg_wf_refs rs : Forall is_u32 rs -> forallb arg_wf (map ARef rs) = true.
Proof.
  induction 1 as [|r rs [H0 H1] _ IH]; [done|]. cbn [map forallb arg_wf]. rewrite IH.
  rewrite (proj2 (Z.leb_le _ _) H0), (proj2 (Z.ltb_lt _ _) H1). done.
Qed.

Lemma forallb_readable_refs rs : forallb set_readable (map ARef rs) = true.
Proof. by induction rs. Qed.

Lemma forallb_flat_refs rs : forallb (fun a => negb (is_set a)) (map ARef rs) = true.
Proof. by induction rs. Qed.

(** [GetSetArgument] on a set of REFs: the offsets of the REFs. *)
Lemma GetSetArgument_refs s rs post :
  Z.of_nat (length (tape_data (_tape s))) < 2 ^ 32 ->
  Forall is_u32 rs ->
  tape_rest (_tape s) = encode_arg (ASet (map ARef rs)) ++ post ->
  exists os,
    GetSetArgument s
    = Ok (os, at_cursor s (readPtr (_tape s) + length (encode_arg (ASet (map ARef rs)))))
    /\ Forall2 (fun o r => element_at (tape_data (_tape s)) o (ARef r)) os rs.
Proof.
  intros Hlen Hrs Hd.
  exists (top_offsets (S (readPtr (_tape s))) (map ARef rs)). split.
  - rewrite (GetSetArgument_spec s (map ARef rs) post Hlen
               (forallb_arg_wf_refs rs Hrs) (forallb_readable_refs rs) Hd).
    by rewrite leaf_offsets_set, (leaf_offsets_flat _ (forallb_flat_refs rs)).
  - unfold tape_rest in Hd. rewrite encode_set_layout in Hd.
    apply (drop_prefix_skip _ _ [_]) in Hd. cbn [length] in Hd.
    replace (S (readPtr (_tape s))) with (readPtr (_tape s) + 1)%nat by lia.
    by eapply top_offsets_refs_elements.
Qed.

Lemma with_meta_same s : with_meta s (_metaData s) = s.
Proof. by destruct s. Qed.

Lemma set_styledItems_same md : set_styledItems md (_styledItems md) = md.
Proof. by destruct md. Qed.

Lemma set_styledItems_twice md m m' :
  set_styledItems (set_styledItems md m) m' = set_styledItems md m'.
Proof. reflexivity. Qed.

(** One IFCSTYLEDITEM line. *)
Lemma styled_item_step s sid d :
  Z.of_nat (length (tape_data (_tape s))) < 2 ^ 32 ->
  styled_item_line (tape_data (_tape s)) (_metaData s) sid d ->
  exists p,
    PopulateStyledItemMap_item sid s
    = Ok (tt, with_meta (at_cursor s p)
                (set_styledItems (_metaData s)
                   (styled_effect (_styledItems (_metaData s)) (sid, d)))).
Proof.
  intros Hlen (l & pre & args & Hline & Hl & Hd).
  unfold PopulateStyledItemMap_item. rewrite (resolve_line _ _ _ _ Hline).
  destruct d as [rep assigns|].
  - destruct Hd as (Ha0 & Ha1 & Hrep & Hassigns & [l' Hl']).
    assert (H1 : MoveToArgumentOffset l 0 s = Ok (tt, at_cursor s (arg_offset l pre args 0)))
      by exact (MoveToArgumentOffset_arg s l pre args 0 _ Hl Ha0 eq_refl).
    rewrite (bind_Ok _ _ _ _ _ H1).
    destruct (arg_offset_content _ _ _ _ _ _ Hl Ha0) as [post0 Hc0].
    destruct (arg_offset_content _ _ _ _ _ _ Hl Ha1) as [post1 Hc1].
    rewrite (arg_offset_S _ _ _ _ _ Ha0) in Hc1.
    set (p0 := arg_offset l pre args 0) in *.
    rewrite (bind_Ok _ _ _ _ _ (GetTokenType_here (at_cursor s p0) _ _ Hc0)).
    change (tag_of REF =? tag_of REF) with true. cbv iota.
    rewrite (bind_Ok _ _ _ _ _ (Reverse_here _)).
    cbn [at_cursor_ptr readPtr _tape at_cursor with_tape tape_at].
    replace (p0 + 1 - 1)%nat with p0 by lia.
    rewrite (bind_Ok _ _ _ _ _ (GetRefArgument_here (at_cursor s p0) rep post0 Hrep Hc0)).
    rewrite (resolve_line (at_cursor s (p0 + 5)) rep l' _ Hl').
    destruct (GetSetArgument_refs (at_cursor s (p0 + 5)) assigns post1 Hlen Hassigns Hc1)
      as (os & Hget & Hos).
    rewrite (bind_Ok _ _ _ _ _ Hget).
    destruct (styled_assignments_loop (tape_data (_tape s)) rep sid os assigns
                (at_cursor s (p0 + 5 + length (encode_arg (ASet (map ARef assigns)))))
                eq_refl Hos Hassigns) as [p Hp].
    exists p. exact Hp.
  - destruct Hd as (a & Ha0 & Htag).
    assert (H1 : MoveToArgumentOffset l 0 s = Ok (tt, at_cursor s (arg_offset l pre args 0)))
      by exact (MoveToArgumentOffset_arg s l pre args 0 _ Hl Ha0 eq_refl).
    rewrite (bind_Ok _ _ _ _ _ H1).
    destruct (arg_offset_content _ _ _ _ _ _ Hl Ha0) as [post0 Hc0].
    set (p0 := arg_offset l pre args 0) in *.
    destruct (encode_arg a) as [|c rest] eqn:Ea.
    { pose proof (encode_arg_nonempty a) as Hne. rewrite Ea in Hne. simpl in Hne. lia. }
    rewrite (bind_Ok _ _ _ _ _ (GetTokenType_here (at_cursor s p0) c (rest ++ post0) Hc0)).
    cbn [hd] in Htag. rewrite (proj2 (Z.eqb_neq _ _) Htag).
    exists (p0 + 1)%nat. cbn [styled_effect]. rewrite set_styledItems_same.
    reflexivity.
Qed.

(** The loop over the IFCSTYLEDITEM lines. *)
Lemma styled_items_loop :
  forall sids ds s,
    Z.of_nat (length (tape_data (_tape s))) < 2 ^ 32 ->
    Forall2 (styled_item_line (tape_data (_tape s)) (_metaData s)) sids ds ->
    exists p,
      forM_ sids PopulateStyledItemMap_item s
      = Ok (tt, with_meta (at_cursor s p)
                  (set_styledItems (_metaData s)
                     (fold_left styled_effect (zip sids ds)
                        (_styledItems (_metaData s))))).
Proof.
  induction sids as [|sid sids IH]; intros ds s Hlen Hall.
  - inversion Hall; subst. exists (readPtr (_tape s)). cbn [forM_ zip zip_with fold_left].
    rewrite set_styledItems_same. unfold ret. do 2 f_equal. by destruct s as [? [] ? ?].
  - inversion Hall as [|? d ? ds' Hd Hds]; subst.
    destruct (styled_item_step s sid d Hlen Hd) as [p1 H1].
    cbn [forM_]. rewrite (bind_Ok _ _ _ _ _ H1).
    set (s1 := with_meta (at_cursor s p1)
                 (set_styledItems (_metaData s)
                    (styled_effect (_styledItems (_metaData s)) (sid, d)))).
    destruct (IH ds' s1 Hlen Hds) as [p Hp].
    exists p. rewrite Hp. reflexivity.
Qed.

End StyledItems.

(** ** C7: the styled-item relationship pass *)

(** C7.  On a tape shorter than 4 GB, let [sids] be the handles of the
    IFCSTYLEDITEM lines, each line holding at argument 0 a REF to a
    representation item that has a line, and at argument 1 of the same line
    a set of REFs to style assignments (or, at argument 0, a token that is
    not a REF: such a line adds nothing).  Then [PopulateStyledItemMap]
    returns, and [_styledItems] is what it was with, line after line and
    assignment after assignment, the pair (styledItemHandle,
    styleAssignmentHandle) appended to the entry of the representation item;
    nothing else of the metadata changes. *)
Theorem PopulateStyledItemMap_pairs (sch : Schema) (s : IfcLoader)
    (sids : list Z) (ds : list StyledItemLine) :
  Z.of_nat (length (tape_data (_tape s))) < 2 ^ 32 ->
  Loader.GetExpressIDsWithType (IFCSTYLEDITEM sch) s = Ok (sids, s) ->
  Forall2 (styled_item_line (tape_data (_tape s)) (_metaData s)) sids ds ->
  exists p,
    Loader.PopulateStyledItemMap sch s
    = Ok (tt, with_meta (at_cursor s p)
                (set_styledItems (_metaData s)
                   (fold_left styled_effect (zip sids ds)
                      (_styledItems (_metaData s))))).
Proof.
  intros Hlen Hids Hall. unfold Loader.PopulateStyledItemMap.
  rewrite (bind_Ok _ _ _ _ _ Hids). by apply styled_items_loop.
Qed.

Lemma PopulateStyledItemMap_pairs_witness :
  exists p,
    Loader.PopulateStyledItemMap Samples.schema Samples.styled_loader
    = Ok (tt, with_meta (at_cursor Samples.styled_loader p)
                (set_styledItems (_metaData Samples.styled_loader)
                   {[ 10 := [(20, 30); (20, 31)] ]})).
Proof.
  apply (PopulateStyledItemMap_pairs Samples.schema Samples.styled_loader
           [20; 21] [Styled 10 [30; 31]; Unstyled]).
  - vm_compute. reflexivity.
  - reflexivity.
  - constructor; [|constructor; [|constructor]].
    + exists (mkLine 20 1 (IFCSTYLEDITEM Samples.schema) 31 72),
        (Samples.styled_pre 20), Samples.styled_args_20.
      split; [reflexivity|]. split.
      { split; [simpl; lia|]. split; [reflexivity|].
        by exists (tag_of LINE_END
                     :: Samples.encode_line 21 "IFCSTYLEDITEM" Samples.styled_args_21). }
      split; [reflexivity|]. split; [reflexivity|].
      split; [unfold is_u32; lia|].
      split; [repeat constructor; unfold is_u32; lia|].
      by exists (mkLine 10 0 0 0 31).
    + exists (mkLine 21 2 (IFCSTYLEDITEM Samples.schema) 72 104),
        (Samples.styled_pre 21), Samples.styled_args_21.
      split; [reflexivity|]. split.
      { split; [simpl; lia|]. split; [reflexivity|]. by exists [tag_of LINE_END]. }
      exists AEmpty. split; [reflexivity|]. simpl. lia.
Defined.

(** ** Unit scaling *)

Section UnitScaling.
Import Loader.
Variable sch : Schema.

(** [ConvertPrefix] agrees with the table of the spec on every tabled
    prefix. *)
Lemma ConvertPrefix_tabled prefix m :
  tabled_multiplier prefix = Some m -> ConvertPrefix prefix = m.
Proof.
  unfold tabled_multiplier, ConvertPrefix.
  destruct (String.eqb prefix "") eqn:E0; [congruence|].
  unfold si_prefixes. cbn [find fst].
  repeat (match goal with
          | |- context [String.eqb prefix ?k] =>
              destruct (String.eqb prefix k) eqn:?;
              [intros H; apply (inj Some) in H; subst m;
               first [exact eq_refl | vm_compute; exact eq_refl]|]
          end).
  congruence.
Qed.

Lemma forallb_lookup {A : Type} (f : A -> bool) (l : list A) i a :
  forallb f l = true -> l !! i = Some a -> f a = true.
Proof.
  intros H Ha. rewrite forallb_forall in H. apply H.
  apply list_elem_of_In. by eapply list_elem_of_lookup_2.
Qed.

Lemma forallb_take_take {A : Type} (f : A -> bool) (l : list A) n i :
  (i <= n)%nat -> forallb f (take n l) = true -> forallb f (take i l) = true.
Proof.
  intros Hi H. replace (take i l) with (take i (take n l)).
  - by apply forallb_take.
  - rewrite take_take. f_equal. lia.
Qed.

Lemma set_linearScalingFactor_same md :
  set_linearScalingFactor md (linearScalingFactor md) = md.
Proof. by destruct md. Qed.

(** The tag byte of a token is that of ENUM only for an ENUM. *)
Lemma enum_tag a : hd 0 (encode_arg a) = tag_of ENUM -> exists p, a = AEnum p.
Proof. destruct a; simpl; intros H; try discriminate H. eauto. Qed.

(** Moving to an argument of a line and reading the string of an ENUM. *)
Lemma read_enum_argument {B : Type} s l pre args (i : nat) str
    (k : list Z -> SE IfcLoader B) :
  line_has_args (tape_data (_tape s)) l pre args ->
  args !! i = Some (AEnum str) ->
  forallb arg_wf (take (S i) args) = true ->
  (MoveToArgumentOffset l (Z.of_nat i) ;; let* x := GetStringArgument in k x) s
  = k str (at_cursor s (arg_offset l pre args (S i))).
Proof.
  intros Hl Ha Hwf.
  assert (Hwi : forallb arg_wf (take i args) = true)
    by (apply (forallb_take_take _ _ (S i)); [lia | done]).
  assert (Hlen : Z.of_nat (length str) < 256).
  { apply Z.ltb_lt. apply (forallb_lookup arg_wf (take (S i) args) i (AEnum str) Hwf).
    rewrite lookup_take_lt by lia. done. }
  rewrite (bind_Ok _ _ _ _ _ (MoveToArgumentOffset_arg s l pre args i _ Hl Ha Hwi)).
  destruct (arg_offset_content _ _ _ _ _ _ Hl Ha) as [post Hc].
  rewrite (bind_Ok _ _ _ _ _
    (GetStringArgument_here (at_cursor s (arg_offset l pre args i)) _ str post Hlen Hc)).
  rewrite (arg_offset_S _ _ _ _ _ Ha). cbn [encode_arg length at_cursor_ptr].
  do 2 f_equal. simpl. lia.
Qed.

(** The prefix at argument 2: the string of an ENUM, empty otherwise. *)
Lemma read_prefix_argument {B : Type} s l pre args pa
    (k : list Z -> SE IfcLoader B) :
  line_has_args (tape_data (_tape s)) l pre args ->
  args !! 2%nat = Some pa ->
  forallb arg_wf (take 4 args) = true ->
  exists p bytes,
    string_of_bytes bytes = prefix_of pa /\
    (MoveToArgumentOffset l 2 ;;
     let* t := GetTokenType in
     let* unitPrefix :=
       (if t =? tag_of ENUM then Reverse ;; GetStringArgument else ret []) in
     k unitPrefix) s
    = k bytes (at_cursor s p).
Proof.
  intros Hl Ha Hwf.
  assert (Hw2 : forallb arg_wf (take 2 args) = true)
    by (apply (forallb_take_take _ _ 4); [lia | done]).
  assert (Hwa : arg_wf pa = true).
  { apply (forallb_lookup arg_wf (take 4 args) 2 pa Hwf). by rewrite lookup_take_lt by lia. }
  assert (H1 : MoveToArgumentOffset l 2 s = Ok (tt, at_cursor s (arg_offset l pre args 2)))
    by exact (MoveToArgumentOffset_arg s l pre args 2 _ Hl Ha Hw2).
  rewrite (bind_Ok _ _ _ _ _ H1).
  destruct (arg_offset_content _ _ _ _ _ _ Hl Ha) as [post Hc].
  set (p2 := arg_offset l pre args 2) in *.
  destruct (encode_arg pa) as [|c rest] eqn:Ea.
  { pose proof (encode_arg_nonempty pa) as Hne. rewrite Ea in Hne. simpl in Hne. lia. }
  rewrite (bind_Ok _ _ _ _ _ (GetTokenType_here (at_cursor s p2) c (rest ++ post) Hc)).
  destruct (Z.eqb_spec c (tag_of ENUM)) as [Hc3|Hc3].
  - destruct (enum_tag pa) as [str ->]; [by rewrite Ea|].
    cbn [encode_arg] in Ea. injection Ea as <- <-.
    exists (p2 + 2 + length str)%nat, str. split; [done|].
    apply bind_Ok. unfold bind. rewrite Reverse_here.
    cbn [at_cursor with_tape tape_at _tape readPtr].
    replace (p2 + 1 - 1)%nat with p2 by lia.
    exact (GetStringArgument_here (at_cursor s p2) _ str post (proj1 (Z.ltb_lt _ _) Hwa) Hc).
  - exists (p2 + 1)%nat, []. split.
    + destruct pa; try reflexivity. cbn [encode_arg] in Ea. by injection Ea as <- _.
    + reflexivity.
Qed.

(** One element of the unit assignment's set. *)
Lemma unit_step s o r u :
  is_u32 r ->
  element_at (tape_data (_tape s)) o (ARef r) ->
  unit_line sch (tape_data (_tape s)) (_metaData s) r u ->
  exists p,
    ReadLinearScalingFactor_unit sch o s
    = Ok (tt, with_meta (at_cursor s p)
                (set_linearScalingFactor (_metaData s)
                   (unit_effect (linearScalingFactor (_metaData s)) u))).
Proof.
  intros Hr Ho (l & Hline & Hu). unfold ReadLinearScalingFactor_unit.
  rewrite (bind_Ok _ _ _ _ _ (GetRefArgumentAt_element s o r Hr Ho)).
  set (s1 := at_cursor s (Z.to_nat o + 5)).
  rewrite (resolve_line s1 r l _ Hline).
  destruct u as [ty pa nm|].
  - destruct Hu as (Hty & pre & args & Hl & Ha1 & Ha2 & Ha3 & Hwf).
    rewrite (proj2 (Z.eqb_eq _ _) Hty).
    rewrite (read_enum_argument s1 l pre args 1 ty _ Hl Ha1
               (forallb_take_take _ _ 4 2 ltac:(lia) Hwf)).
    set (s2 := at_cursor s1 _).
    destruct (read_prefix_argument s2 l pre args pa
                (fun unitPrefix =>
                   MoveToArgumentOffset l 3 ;;
                   let* unitName := GetStringArgument in
                   if String.eqb (string_of_bytes ty) "LENGTHUNIT"
                      && String.eqb (string_of_bytes unitName) "METRE"
                   then
                     let* md := get_meta in
                     put_meta (set_linearScalingFactor md
                                 (ConvertPrefix (string_of_bytes unitPrefix)))
                   else ret tt) Hl Ha2 Hwf) as (p3 & bytes & Hbytes & ->).
    rewrite (read_enum_argument (at_cursor s2 p3) l pre args 3 nm _ Hl Ha3 Hwf).
    cbn [unit_effect is_metre].
    destruct (String.eqb (string_of_bytes ty) "LENGTHUNIT"
              && String.eqb (string_of_bytes nm) "METRE").
    + exists (arg_offset l pre args 4). rewrite Hbytes. reflexivity.
    + exists (arg_offset l pre args 4). rewrite set_linearScalingFactor_same. reflexivity.
  - rewrite (proj2 (Z.eqb_neq _ _) Hu).
    exists (Z.to_nat o + 5)%nat. cbn [unit_effect].
    rewrite set_linearScalingFactor_same. reflexivity.
Qed.

(** The loop over the set of the unit assignment. *)
Lemma units_loop :
  forall os rs us s,
    Forall is_u32 rs ->
    Forall2 (fun o r => element_at (tape_data (_tape s)) o (ARef r)) os rs ->
    Forall2 (unit_line sch (tape_data (_tape s)) (_metaData s)) rs us ->
    exists p,
      forM_ os (ReadLinearScalingFactor_unit sch) s
      = Ok (tt, with_meta (at_cursor s p)
                  (set_linearScalingFactor (_metaData s)
                     (fold_left unit_effect us (linearScalingFactor (_metaData s))))).
Proof.
  induction os as [|o os IH]; intros rs us s Hrs Hos Hus.
  - inversion Hos; subst. inversion Hus; subst.
    exists (readPtr (_tape s)). cbn [forM_ fold_left].
    rewrite set_linearScalingFactor_same. unfold ret. do 2 f_equal.
    by destruct s as [? [] ? ?].
  - inversion Hos as [|? r ? rs' Ho Hos']; subst.
    inversion Hus as [|? u ? us' Hu Hus']; subst.
    inversion Hrs as [|? ? Hr Hrs']; subst.
    destruct (unit_step s o r u Hr Ho Hu) as [p1 H1].
    cbn [forM_]. rewrite (bind_Ok _ _ _ _ _ H1).
    set (s1 := with_meta (at_cursor s p1) _).
    destruct (IH rs' us' s1 Hrs' Hos' Hus') as [p Hp].
    exists p. rewrite Hp. reflexivity.
Qed.

(** The last metre among the units decides. *)
Lemma fold_unit_effect_last before u after factor :
  is_metre u = true ->
  Forall (fun u' => is_metre u' = false) after ->
  fold_left unit_effect (before ++ u :: after) factor
  = match u with
    | SIUnit _ pa _ => ConvertPrefix (prefix_of pa)
    | OtherUnit => factor
    end.
Proof.
  intros Hu Hafter. rewrite fold_left_app. cbn [fold_left].
  generalize (fold_left unit_effect before factor) as f0. intros f0.
  destruct u as [ty pa nm|]; [|discriminate Hu].
  cbn [unit_effect]. rewrite Hu.
  generalize (ConvertPrefix (prefix_of pa)) as f1. intros f1.
  induction Hafter as [|u' after Hu' _ IH]; [done|].
  cbn [fold_left]. destruct u' as [ty' pa' nm'|]; cbn [unit_effect]; [|exact IH].
  rewrite Hu'. exact IH.
Qed.

End UnitScaling.

(** ** C6: the linear scaling factor *)

(** C6.  On a tape shorter than 4 GB, let the model hold exactly one
    IFCPROJECT line, whose argument 8 refers to a unit assignment, whose
    argument 0 is a set of REFs to lines [before ++ metre :: after], where
    [metre] is an IFCSIUNIT of unit type LENGTHUNIT and name METRE and no
    unit after it is one.  If the prefix of [metre] (the empty string when
    argument 2 is not an ENUM) is tabled with multiplier [m] (EXA..ATTO:
    1e18..1e-18, empty: 1), then [ReadLinearScalingFactor] returns and has
    set [linearScalingFactor] to [m], leaving the rest of the metadata as it
    was. *)
Theorem ReadLinearScalingFactor_metre (sch : Schema) (s : IfcLoader)
    (project units : Z) (unitRefs : list Z) (before after : list UnitLine)
    (pa : Arg) (m : Z) :
  Z.of_nat (length (tape_data (_tape s))) < 2 ^ 32 ->
  Loader.GetExpressIDsWithType (IFCPROJECT sch) s = Ok ([project], s) ->
  project_line (tape_data (_tape s)) (_metaData s) project units ->
  is_u32 units ->
  unit_assignment_line (tape_data (_tape s)) (_metaData s) units unitRefs ->
  Forall is_u32 unitRefs ->
  Forall2 (unit_line sch (tape_data (_tape s)) (_metaData s)) unitRefs
    (before ++ metre_unit pa :: after) ->
  Forall (fun u => is_metre u = false) after ->
  tabled_multiplier (prefix_of pa) = Some m ->
  exists p,
    Loader.ReadLinearScalingFactor sch s
    = Ok (tt, with_meta (at_cursor s p) (set_linearScalingFactor (_metaData s) m)).
Proof.
  intros Hlen Hids (pl & ppre & pargs & Hpl & Hpargs & Hp8 & Hpwf) Hunits
    (ul & upre & uargs & Hul & Huargs & Hu0) Hrefs Hus Hafter Hm.
  unfold Loader.ReadLinearScalingFactor.
  rewrite (bind_Ok _ _ _ _ _ Hids).
  rewrite (resolve_line s project pl _ Hpl).
  assert (H8 : Loader.MoveToArgumentOffset pl 8 s
               = Ok (tt, at_cursor s (arg_offset pl ppre pargs 8)))
    by exact (MoveToArgumentOffset_arg s pl ppre pargs 8 _ Hpargs Hp8 Hpwf).
  rewrite (bind_Ok _ _ _ _ _ H8).
  destruct (arg_offset_content _ _ _ _ _ _ Hpargs Hp8) as [post8 Hc8].
  set (s1 := at_cursor s (arg_offset pl ppre pargs 8)).
  rewrite (bind_Ok _ _ _ _ _ (GetRefArgument_here s1 units post8 Hunits Hc8)).
  set (s2 := at_cursor s1 _).
  rewrite (resolve_line s2 units ul _ Hul).
  assert (H0 : Loader.MoveToArgumentOffset ul 0 s2
               = Ok (tt, at_cursor s2 (arg_offset ul upre uargs 0)))
    by exact (MoveToArgumentOffset_arg s2 ul upre uargs 0 _ Huargs Hu0 eq_refl).
  rewrite (bind_Ok _ _ _ _ _ H0).
  destruct (arg_offset_content _ _ _ _ _ _ Huargs Hu0) as [post0 Hc0].
  set (s3 := at_cursor s2 (arg_offset ul upre uargs 0)).
  destruct (GetSetArgument_refs s3 unitRefs post0 Hlen Hrefs Hc0) as (os & Hget & Hos).
  rewrite (bind_Ok _ _ _ _ _ Hget).
  set (s4 := at_cursor s3 _).
  destruct (units_loop sch os unitRefs _ s4 Hrefs Hos Hus) as [p Hp].
  exists p. rewrite Hp.
  rewrite (fold_unit_effect_last before (metre_unit pa) after _ eq_refl Hafter).
  cbn [metre_unit]. by rewrite (ConvertPrefix_tabled _ _ Hm).
Qed.

(** Scenario S1 of the spec: the prefix .MILLI. gives 0.001. *)
Lemma ReadLinearScalingFactor_metre_witness :
  tabled_multiplier "MILLI" = Some (F64.of_decimal 1 (-3)) /\
  Loader.GetExpressIDsWithType (IFCPROJECT Samples.schema) Samples.s1_loader
    = Ok ([1], Samples.s1_loader) /\
  exists p,
    Loader.ReadLinearScalingFactor Samples.schema Samples.s1_loader
    = Ok (tt, with_meta (at_cursor Samples.s1_loader p)
                (set_linearScalingFactor (_metaData Samples.s1_loader)
                   (F64.of_decimal 1 (-3)))).
Proof.
  split; [reflexivity|]. split; [reflexivity|].
  apply (ReadLinearScalingFactor_metre Samples.schema Samples.s1_loader 1 3 [4]
           [] [] (Samples.enum "MILLI") (F64.of_decimal 1 (-3))).
  - vm_compute. reflexivity.
  - reflexivity.
  - exists (mkLine 1 0 (IFCPROJECT Samples.schema) 17 43), [], Samples.s1_project_args.
    split; [reflexivity|]. split; [|split; reflexivity].
    split; [simpl; lia|]. split; [reflexivity|].
    by exists (tag_of LINE_END
               :: Samples.encode_line 2 "IFCGEOMETRICREPRESENTATIONCONTEXT" Samples.s1_context_args
               ++ Samples.encode_line 3 "IFCUNITASSIGNMENT" Samples.s1_units_args
               ++ Samples.encode_line 4 "IFCSIUNIT" Samples.s1_siunit_args).
  - unfold is_u32. lia.
  - exists (mkLine 3 2 0 132 142), [], Samples.s1_units_args.
    split; [reflexivity|]. split; [|reflexivity].
    split; [simpl; lia|]. split; [reflexivity|].
    by exists (tag_of LINE_END :: Samples.encode_line 4 "IFCSIUNIT" Samples.s1_siunit_args).
  - repeat constructor; unfold is_u32; lia.
  - constructor; [|constructor].
    exists (mkLine 4 3 (IFCSIUNIT Samples.schema) 158 188).
    split; [reflexivity|]. split; [reflexivity|].
    exists [], Samples.s1_siunit_args.
    split; [|repeat split; reflexivity].
    split; [simpl; lia|]. split; [reflexivity|]. by exists [tag_of LINE_END].
  - constructor.
  - reflexivity.
Defined.

(** ** The flag [_open] *)

Section OpenFlag.

Lemma preserves_ret {A : Type} (a : A) : preserves_open (ret a).
Proof. intros s a' s' [= _ <-]. done. Qed.

Lemma preserves_fail {A : Type} e : preserves_open (@fail IfcLoader A e).
Proof. intros s a s' H. discriminate H. Qed.

Lemma preserves_get : preserves_open get.
Proof. intros s a s' [= _ <-]. done. Qed.

Lemma preserves_get_meta : preserves_open get_meta.
Proof. intros s a s' [= _ <-]. done. Qed.

Lemma preserves_put_meta m : preserves_open (put_meta m).
Proof. intros s a s' [= _ <-]. done. Qed.

Lemma preserves_on_tape {A : Type} (m : SE DynamicTape A) : preserves_open (on_tape m).
Proof.
  intros s a s'. unfold on_tape. destruct (m (_tape s)) as [[a' t']|e]; [|done].
  intros [= _ <-]. done.
Qed.

Lemma preserves_vec_at {A : Type} (v : list A) i : preserves_open (vec_at v i).
Proof.
  intros s a s'. unfold vec_at. destruct (i <? 0); [done|].
  destruct (v !! Z.to_nat i); [|done]. intros [= _ <-]. done.
Qed.

Lemma preserves_vec_set {A : Type} (v : list A) i x : preserves_open (vec_set v i x).
Proof.
  intros s a s'. unfold vec_set. destruct (_ && _); [|done]. intros [= _ <-]. done.
Qed.

Lemma preserves_bind {A B : Type} (m : SE IfcLoader A) (k : A -> SE IfcLoader B) :
  preserves_open m -> (forall a, preserves_open (k a)) -> preserves_open (bind m k).
Proof.
  intros Hm Hk s b s'. unfold bind. destruct (m s) as [[a s1]|e] eqn:E; [|done].
  intros H. rewrite (Hk a s1 b s' H). exact (Hm s a s1 E).
Qed.

Lemma preserves_forM {A : Type} (xs : list A) (body : A -> SE IfcLoader unit) :
  (forall x, preserves_open (body x)) -> preserves_open (forM_ xs body).
Proof.
  intros Hb. induction xs as [|x xs IH]; cbn [forM_].
  - apply preserves_ret.
  - apply preserves_bind; [apply Hb | intros _; exact IH].
Qed.

Lemma preserves_transform ls ids : preserves_open (Loader.transform_expressID ls ids).
Proof.
  induction ids as [|i ids IH]; cbn [Loader.transform_expressID].
  - apply preserves_ret.
  - apply preserves_bind; [apply preserves_vec_at | intros l].
    apply preserves_bind; [exact IH | intros ?; apply preserves_ret].
Qed.

End OpenFlag.

(** Decompose an operation into the primitives above. *)
Ltac preserves_step :=
  first
    [ apply preserves_ret | apply preserves_fail | apply preserves_get
    | apply preserves_get_meta | apply preserves_put_meta | apply preserves_on_tape
    | apply preserves_vec_at | apply preserves_vec_set | apply preserves_transform
    | apply preserves_bind; [|intros ?]
    | apply preserves_forM; intros ?
    | match goal with
      | |- preserves_open (if ?b then _ else _) => destruct b
      | |- preserves_open (match ?x with _ => _ end) => destruct x
      end ].

Ltac preserves := repeat preserves_step.

Section OpenFlagOps.
Variable sch : Schema.
Variable Tokenize : list Z -> SE DynamicTape Z.
Variable ParseTape : Z -> SE (DynamicTape * IfcMetaData) unit.
Variable show_double : Z -> Z -> string.

Lemma preserves_parse numLines :
  preserves_open (fun s =>
    match ParseTape numLines (_tape s, _metaData s) with
    | Ok (_, (t, m)) => Ok (tt, with_meta (with_tape s t) m)
    | Err e => Err e
    end).
Proof.
  intros s a s'. destruct (ParseTape _ _) as [[? [t m]]|e]; [|done]. intros [= _ <-]. done.
Qed.

Lemma run_op_preserves_open op :
  preserves_open (run_op sch Tokenize ParseTape show_double op).
Proof.
  destruct op; cbn [run_op];
    unfold skip, Loader.PushDataToTape, Loader.GetExpressIDsWithType, Loader.LoadFile,
      Loader.ReadLinearScalingFactor, Loader.ReadLinearScalingFactor_unit,
      Loader.PopulateRelVoidsMap, Loader.PopulateRelAggregatesMap,
      Loader.PopulateStyledItemMap, Loader.PopulateStyledItemMap_item,
      Loader.PopulateRelMaterialsMap, Loader.GetNumLines, Loader.GetLineIDsWithType,
      Loader.CopyTapeForExpressLine, Loader.MoveToLine, Loader.MoveToLineArgument,
      Loader.UpdateLineTape, Loader.DumpAsIFC, Loader.GetSettings, Loader.IsOpen,
      Loader.GetLinearScalingFactor, Loader.GetRefArgumentAt, Loader.MoveTo,
      Loader.GetExpressIDsWithType, Loader.ExpressIDToLineID, Loader.GetLine,
      Loader.MoveToArgumentOffset, Loader.GetStringArgument, Loader.GetStringViewArgument,
      Loader.GetDoubleArgumentAt, Loader.GetDoubleArgument,
      Loader.GetRefArgument, Loader.GetTokenType, Loader.Reverse, Loader.GetSetArgument;
    preserves; apply preserves_parse.
Qed.

Lemma run_ops_preserves_open ops :
  preserves_open (run_ops sch Tokenize ParseTape show_double ops).
Proof. apply preserves_forM. apply run_op_preserves_open. Qed.

End OpenFlagOps.

(** ** X1: [IsOpen] *)

(** X1.  [IsOpen] answers false on a loader as constructed, and after any
    sequence of the loader's public operations that returns, whatever the
    tokenizer, the parser and the caller's writes through the references
    handed out do: nothing sets [_open]. *)
Theorem IsOpen_always_false (sch : Schema)
    (Tokenize : list Z -> SE DynamicTape Z)
    (ParseTape : Z -> SE (DynamicTape * IfcMetaData) unit)
    (show_double : Z -> Z -> string)
    (settings : LoaderSettings) (ops : list LoaderOp) (s : IfcLoader) :
  run_ops sch Tokenize ParseTape show_double ops (new_loader settings) = Ok (tt, s) ->
  Loader.IsOpen (new_loader settings) = Ok (false, new_loader settings)
  /\ Loader.IsOpen s = Ok (false, s).
Proof.
  intros Hrun. split; [reflexivity|].
  pose proof (run_ops_preserves_open sch Tokenize ParseTape show_double ops _ _ _ Hrun) as H.
  unfold Loader.IsOpen, bind, get, ret. by rewrite H.
Qed.

Lemma IsOpen_always_false_witness :
  run_ops Samples.schema Samples.no_tokenizer Samples.no_parser Samples.no_doubles
    OpSamples.session (new_loader default_settings) = Ok (tt, OpSamples.after_session)
  /\ Loader.IsOpen OpSamples.after_session = Ok (false, OpSamples.after_session).
Proof.
  assert (H : run_ops Samples.schema Samples.no_tokenizer Samples.no_parser
                Samples.no_doubles OpSamples.session (new_loader default_settings)
              = Ok (tt, OpSamples.after_session))
    by (vm_compute; reflexivity).
  split; [exact H|].
  exact (proj2 (IsOpen_always_false Samples.schema Samples.no_tokenizer Samples.no_parser
                  Samples.no_doubles default_settings OpSamples.session
                  OpSamples.after_session H)).
Defined.

(** ** [UpdateLineTape] and the indices *)

Section UpdateLineTapeSpec.
Import Loader.

Lemma vec_at_lookup {S A : Type} (v : list A) (i : Z) (x : A) (s : S) :
  0 <= i -> v !! Z.to_nat i = Some x -> vec_at v i s = Ok (x, s).
Proof.
  intros Hi Hx. unfold vec_at. rewrite (proj2 (Z.ltb_ge _ _) Hi). by rewrite Hx.
Qed.

Lemma vec_at_inv {S A : Type} (v : list A) (i : Z) (x : A) (s s' : S) :
  vec_at v i s = Ok (x, s') -> 0 <= i /\ v !! Z.to_nat i = Some x /\ s' = s.
Proof.
  unfold vec_at. destruct (Z.ltb_spec i 0); [done|].
  destruct (v !! Z.to_nat i); [|done]. intros [= -> ->]. auto.
Qed.

Lemma vec_set_inv {S A : Type} (v v' : list A) (i : Z) (x : A) (s s' : S) :
  vec_set v i x s = Ok (v', s') ->
  0 <= i < Z.of_nat (length v) /\ v' = <[Z.to_nat i := x]> v /\ s' = s.
Proof.
  unfold vec_set.
  destruct (Z.leb_spec 0 i); destruct (Z.ltb_spec i (Z.of_nat (length v))); try done.
  intros [= <- <-]. auto with lia.
Qed.

(** What [UpdateLineTape] does when it returns: it appends a record for a
    handle it takes for new, or rewrites the offsets of the record the handle
    maps to. *)
Lemma UpdateLineTape_inv h type start end_ s s' :
  UpdateLineTape h type start end_ s = Ok (tt, s') ->
  _tape s' = _tape s /\ _open s' = _open s /\ _settings s' = _settings s /\
  ( (is_new_line (_metaData s) h = true /\
     0 <= h < wrap32 (h * 2) /\
     _metaData s' = appended_line (_metaData s) h type start end_)
    \/
    (is_new_line (_metaData s) h = false /\
     exists i l,
       expressIDToLine (_metaData s) !! Z.to_nat h = Some i /\ i <> 0 /\ 0 <= i /\
       lines (_metaData s) !! Z.to_nat i = Some l /\
       _metaData s' = rewritten_line (_metaData s) i l start end_) ).
Proof.
  destruct s as [o t st md]. intros H.
  unfold UpdateLineTape, bind, on_tape, tape_GetTotalSize, get_meta, put_meta, vec_set,
    vec_at, ret, fail in H.
  cbn [_tape with_tape with_meta _open _settings _metaData expressIDToLine
       set_ifcTypeToLineID set_expressIDToLine set_lines lines] in H.
  fold (is_new_line md h) in H.
  destruct (is_new_line md h) eqn:Enew.
  - (* a record is appended *)
    rewrite length_resize in H.
    destruct ((0 <=? h) && (h <? Z.of_nat (Z.to_nat (wrap32 (h * 2))))) eqn:Eh; [|done].
    apply andb_true_iff in Eh as [Eh0 Eh1]. apply Z.leb_le in Eh0. apply Z.ltb_lt in Eh1.
    rewrite (proj2 (Z.ltb_ge _ _) (Nat2Z.is_nonneg _)) in H.
    rewrite !Nat2Z.id in H.
    rewrite (list_lookup_middle (lines md) [] _ (length (lines md)) eq_refl) in H.
    rewrite length_app in H. cbn [length] in H.
    replace ((0 <=? Z.of_nat (length (lines md)))
             && (Z.of_nat (length (lines md)) <? Z.of_nat (length (lines md) + 1)))
      with true in H
      by (symmetry; apply andb_true_iff; split; [apply Z.leb_le | apply Z.ltb_lt]; lia).
    cbn [_metaData expressIDToLine lines tapeOffset tapeEnd with_meta with_tape
         set_ifcTypeToLineID set_expressIDToLine set_lines _open _tape _settings] in H.
    rewrite (proj2 (Z.ltb_ge _ _) Eh0) in H.
    rewrite list_lookup_insert_eq in H by (rewrite length_resize; lia).
    rewrite (proj2 (Z.ltb_ge _ _) (Nat2Z.is_nonneg _)) in H.
    rewrite !Nat2Z.id in H.
    rewrite insert_app_r_alt in H by lia. rewrite Nat.sub_diag in H.
    cbn [insert list_insert] in H.
    rewrite (list_lookup_middle (lines md) [] _ (length (lines md)) eq_refl) in H.
    rewrite length_app in H. cbn [length] in H.
    replace ((0 <=? Z.of_nat (length (lines md)))
             && (Z.of_nat (length (lines md)) <? Z.of_nat (length (lines md) + 1)))
      with true in H
      by (symmetry; apply andb_true_iff; split; [apply Z.leb_le | apply Z.ltb_lt]; lia).
    rewrite insert_app_r_alt in H by lia. rewrite Nat.sub_diag in H.
    cbn [insert list_insert] in H.
    injection H as <-. cbn [_tape _open _settings _metaData]. repeat split.
    left. split; [done|]. split; [lia|]. reflexivity.
  - (* the offsets of a record are rewritten *)
    cbn [_metaData expressIDToLine lines with_meta with_tape _open _tape _settings] in H.
    destruct (Z.ltb_spec h 0) as [|Hh]; [done|].
    destruct (expressIDToLine md !! Z.to_nat h) as [i|] eqn:Hi; [|done].
    destruct (Z.ltb_spec i 0) as [|Hi0]; [done|].
    destruct (lines md !! Z.to_nat i) as [l|] eqn:Hl; [|done].
    destruct ((0 <=? i) && (i <? Z.of_nat (length (lines md)))) eqn:Ei; [|done].
    injection H as <-. cbn [_tape _open _settings _metaData]. repeat split.
    right. split; [done|]. exists i, l. repeat split; try done.
    + unfold is_new_line in Enew. rewrite Hi in Enew. cbn [default] in Enew.
      apply orb_false_iff in Enew as [_ Hne]. by apply Z.eqb_neq in Hne.
    + unfold rewritten_line. by destruct l.
Qed.

End UpdateLineTapeSpec.

(** ** The invariants of the indices under [UpdateLineTape] *)

Section IndexInvariants.
Import Loader.

Lemma lineIDs_from_app n a b T :
  lineIDs_from n (a ++ b) T = lineIDs_from n a T ++ lineIDs_from (n + length a) b T.
Proof.
  revert n. induction a as [|l a IH]; intros n; cbn [app lineIDs_from length].
  - by rewrite Nat.add_0_r.
  - rewrite IH. replace (S n + length a)%nat with (n + S (length a))%nat by lia.
    by destruct (ifcType l =? T).
Qed.

Lemma lineIDs_from_insert n ls i l l' T :
  ls !! i = Some l -> ifcType l' = ifcType l ->
  lineIDs_from n (<[i := l']> ls) T = lineIDs_from n ls T.
Proof.
  revert n i. induction ls as [|x ls IH]; intros n [|i] Hl Hty; try done.
  - injection Hl as ->. cbn [insert list_insert lineIDs_from]. by rewrite Hty.
  - cbn [lineIDs_from]. change (<[S i:=l']> (x :: ls)) with (x :: <[i:=l']> ls).
    cbn [lineIDs_from]. by rewrite (IH (S n) i Hl Hty).
Qed.

Lemma map_at_push {A : Type} (m : gmap Z (list A)) k x k' :
  map_at (map_push m k x) k' = if decide (k = k') then map_at m k ++ [x] else map_at m k'.
Proof.
  unfold map_push, map_at at 1. rewrite lookup_insert. by destruct (decide (k = k')).
Qed.

Lemma empty_meta_type_index_ok : type_index_ok empty_meta.
Proof. intros T. reflexivity. Qed.

Lemma empty_meta_handle_map_ok : handle_map_ok empty_meta.
Proof. intros H i Hi. discriminate Hi. Qed.

(** Invariant 3 is kept by every write. *)
Lemma UpdateLineTape_type_index_ok h type start end_ s s' :
  type_index_ok (_metaData s) ->
  UpdateLineTape h type start end_ s = Ok (tt, s') ->
  type_index_ok (_metaData s').
Proof.
  intros Hok Hrun.
  destruct (UpdateLineTape_inv _ _ _ _ _ _ Hrun)
    as (_ & _ & _ & [(_ & _ & ->) | (_ & i & l & _ & _ & _ & Hl & ->)]); intros T.
  - unfold appended_line. cbn [ifcTypeToLineID lines].
    rewrite map_at_push, lineIDs_from_app, (Hok T), (Hok type).
    cbn [lineIDs_from ifcType Nat.add].
    destruct (decide (type = T)) as [->|Hne].
    + by rewrite Z.eqb_refl.
    + rewrite (proj2 (Z.eqb_neq _ _) Hne). by rewrite app_nil_r.
  - unfold rewritten_line. cbn [ifcTypeToLineID lines set_lines].
    rewrite (lineIDs_from_insert _ _ _ l) by done. apply Hok.
Qed.

(** Invariant 2 is kept by every write. *)
Lemma UpdateLineTape_handle_map_ok h type start end_ s s' :
  handle_map_ok (_metaData s) ->
  UpdateLineTape h type start end_ s = Ok (tt, s') ->
  handle_map_ok (_metaData s').
Proof.
  intros Hok Hrun.
  destruct (UpdateLineTape_inv _ _ _ _ _ _ Hrun)
    as (_ & _ & _ & [(_ & Hh & ->) | (_ & i0 & l0 & _ & _ & Hi0 & Hl0 & ->)]); intros H i.
  - unfold appended_line. cbn [expressIDToLine lines].
    destruct (decide (H = Z.to_nat h)) as [->|Hne].
    + rewrite list_lookup_insert_eq by (rewrite length_resize; lia).
      intros [= <-]. split; [lia|]. intros _.
      exists (mkLine h (Z.of_nat (length (lines (_metaData s)))) type start end_).
      rewrite Nat2Z.id. split; [|cbn [expressID]; lia].
      by apply list_lookup_middle.
    + rewrite list_lookup_insert_ne by done. intros Hi.
      destruct (decide (H < length (expressIDToLine (_metaData s)))%nat) as [Hlt|Hge].
      * rewrite lookup_resize in Hi by (apply lookup_lt_Some in Hi;
          rewrite length_resize in Hi; lia).
        destruct (Hok H i Hi) as [Hi0 Hl]. split; [done|]. intros Hnz.
        destruct (Hl Hnz) as (l & Hl' & Hid). exists l. split; [|done].
        by apply lookup_app_l_Some.
      * rewrite lookup_resize_new in Hi by (apply lookup_lt_Some in Hi;
          rewrite length_resize in Hi; lia).
        injection Hi as <-. split; [lia|done].
  - unfold rewritten_line. cbn [expressIDToLine lines set_lines]. intros Hi.
    destruct (Hok H i Hi) as [Hi' Hl]. split; [done|]. intros Hnz.
    destruct (Hl Hnz) as (l & Hl' & Hid).
    destruct (decide (Z.to_nat i0 = Z.to_nat i)) as [E|Hne].
    + rewrite E in *. rewrite Hl' in Hl0. injection Hl0 as <-.
      eexists. split; [apply list_lookup_insert_eq; by eapply lookup_lt_Some|done].
    + exists l. by rewrite list_lookup_insert_ne.
Qed.

(** The handles of the lines of a type, through the type index. *)
Lemma transform_expressID_lineIDs T (s : IfcLoader) :
  forall rest before,
    transform_expressID (before ++ rest) (lineIDs_from (length before) rest T) s
    = Ok (map expressID (List.filter (fun l => ifcType l =? T) rest), s).
Proof.
  induction rest as [|l rest IH]; intros before; [done|].
  cbn [lineIDs_from List.filter].
  specialize (IH (before ++ [l])). rewrite <- app_assoc, length_app in IH.
  cbn [length app] in IH. replace (length before + 1)%nat with (S (length before)) in IH by lia.
  destruct (ifcType l =? T); [|exact IH].
  cbn [transform_expressID map].
  rewrite (bind_Ok _ _ _ _ _
    (vec_at_lookup _ _ l s (Nat2Z.is_nonneg _)
       ltac:(rewrite Nat2Z.id; by apply list_lookup_middle))).
  by rewrite (bind_Ok _ _ _ _ _ IH).
Qed.

End IndexInvariants.

(** ** X2: the lines of a type *)

(** X2.  [GetLineIDsWithType] returns the entry of the type
    index, which holds LineIDs (indices into the line table), not handles;
    [GetExpressIDsWithType] returns the handles.  When the type index lists
    for each type the lines of that type in the order of the line table (as
    it does on a fresh model and after every [UpdateLineTape]), these are the
    LineIDs, and the handles, of exactly the lines whose type code is [T],
    in insertion order. *)
Theorem lines_with_type (s : IfcLoader) (T : Z) :
  type_index_ok (_metaData s) ->
  Loader.GetLineIDsWithType T s = Ok (lineIDs_from 0 (lines (_metaData s)) T, s)
  /\ Loader.GetExpressIDsWithType T s
     = Ok (map expressID (List.filter (fun l => ifcType l =? T) (lines (_metaData s))), s).
Proof.
  intros Hok. unfold Loader.GetLineIDsWithType, Loader.GetExpressIDsWithType, bind, get, ret.
  rewrite (Hok T). split; [done|].
  exact (transform_expressID_lineIDs T s (lines (_metaData s)) []).
Qed.

Lemma lines_with_type_witness :
  type_index_ok (_metaData (WriteSamples.state_after WriteSamples.write_1_50_10))
  /\ Loader.GetLineIDsWithType 7 (WriteSamples.state_after WriteSamples.write_1_50_10)
     = Ok ([0; 1; 2], WriteSamples.state_after WriteSamples.write_1_50_10)
  /\ Loader.GetExpressIDsWithType 7 (WriteSamples.state_after WriteSamples.write_1_50_10)
     = Ok ([1; 50; 10], WriteSamples.state_after WriteSamples.write_1_50_10).
Proof.
  assert (Hok : type_index_ok
                  (_metaData (WriteSamples.state_after WriteSamples.write_1_50_10))).
  { assert (H1 : Loader.UpdateLineTape 1 7 0 10 WriteSamples.fresh
                 = Ok (tt, WriteSamples.state_after (Loader.UpdateLineTape 1 7 0 10)))
      by (vm_compute; reflexivity).
    assert (H2 : Loader.UpdateLineTape 50 7 10 20
                   (WriteSamples.state_after (Loader.UpdateLineTape 1 7 0 10))
                 = Ok (tt, WriteSamples.state_after WriteSamples.write_1_50))
      by (vm_compute; reflexivity).
    assert (H3 : Loader.UpdateLineTape 10 7 20 30
                   (WriteSamples.state_after WriteSamples.write_1_50)
                 = Ok (tt, WriteSamples.state_after WriteSamples.write_1_50_10))
      by (vm_compute; reflexivity).
    eapply UpdateLineTape_type_index_ok; [|exact H3].
    eapply UpdateLineTape_type_index_ok; [|exact H2].
    eapply UpdateLineTape_type_index_ok; [|exact H1].
    exact empty_meta_type_index_ok. }
  split; [exact Hok|].
  exact (lines_with_type (WriteSamples.state_after WriteSamples.write_1_50_10) 7 Hok).
Defined.

(** ** [UpdateLineTape]: what a write does *)

Section UpdateLineTapeWrites.
Import Loader.
Local Open Scope Z_scope.

(** A handle the test "new line?" takes for new gets a record of its own. *)
Lemma UpdateLineTape_appends s h type start end_ :
  is_new_line (_metaData s) h = true -> 0 < h -> h * 2 < 2 ^ 32 ->
  UpdateLineTape h type start end_ s
  = Ok (tt, with_meta s (appended_line (_metaData s) h type start end_)).
Proof.
  destruct s as [o t st md]. cbn [_metaData]. intros Hnew Hh Hh2.
  assert (Hw : wrap32 (h * 2) = h * 2) by (apply wrap32_small; lia).
  unfold UpdateLineTape, bind, on_tape, tape_GetTotalSize, get_meta, put_meta, vec_set,
    vec_at, ret, fail.
  cbn [_tape with_tape with_meta _open _settings _metaData expressIDToLine
       set_ifcTypeToLineID set_expressIDToLine set_lines lines].
  fold (is_new_line md h). rewrite Hnew, Hw.
  rewrite length_resize.
  replace ((0 <=? h) && (h <? Z.of_nat (Z.to_nat (h * 2)))) with true
    by (symmetry; apply andb_true_iff; split; [apply Z.leb_le | apply Z.ltb_lt]; lia).
  rewrite (proj2 (Z.ltb_ge _ _) (Nat2Z.is_nonneg _)).
  rewrite !Nat2Z.id.
  rewrite (list_lookup_middle (lines md) [] _ (length (lines md)) eq_refl).
  rewrite length_app. cbn [length].
  replace ((0 <=? Z.of_nat (length (lines md)))
           && (Z.of_nat (length (lines md)) <? Z.of_nat (length (lines md) + 1)))
    with true
    by (symmetry; apply andb_true_iff; split; [apply Z.leb_le | apply Z.ltb_lt]; lia).
  cbn [_metaData expressIDToLine lines tapeOffset tapeEnd with_meta with_tape
       set_ifcTypeToLineID set_expressIDToLine set_lines _open _tape _settings].
  rewrite (proj2 (Z.ltb_ge h 0)) by lia.
  rewrite list_lookup_insert_eq by (rewrite length_resize; lia).
  rewrite (proj2 (Z.ltb_ge _ _) (Nat2Z.is_nonneg _)).
  rewrite !Nat2Z.id.
  rewrite insert_app_r_alt by lia. rewrite Nat.sub_diag.
  cbn [insert list_insert].
  rewrite (list_lookup_middle (lines md) [] _ (length (lines md)) eq_refl).
  rewrite length_app. cbn [length].
  replace ((0 <=? Z.of_nat (length (lines md)))
           && (Z.of_nat (length (lines md)) <? Z.of_nat (length (lines md) + 1)))
    with true
    by (symmetry; apply andb_true_iff; split; [apply Z.leb_le | apply Z.ltb_lt]; lia).
  rewrite insert_app_r_alt by lia. rewrite Nat.sub_diag.
  cbn [insert list_insert]. unfold appended_line. rewrite Hw. reflexivity.
Qed.

(** A handle that maps to a record other than record 0 has the offsets of
    that record rewritten. *)
Lemma UpdateLineTape_rewrites s h type start end_ i l :
  0 <= h -> expressIDToLine (_metaData s) !! Z.to_nat h = Some i -> 0 < i ->
  lines (_metaData s) !! Z.to_nat i = Some l ->
  UpdateLineTape h type start end_ s
  = Ok (tt, with_meta s (rewritten_line (_metaData s) i l start end_)).
Proof.
  destruct s as [o t st md]. cbn [_metaData]. intros Hh Hi Hi0 Hl.
  assert (Hnew : is_new_line md h = false).
  { unfold is_new_line. rewrite Hi. cbn. apply orb_false_iff. split.
    - apply Z.leb_gt. apply lookup_lt_Some in Hi. lia.
    - apply Z.eqb_neq. lia. }
  unfold UpdateLineTape, bind, on_tape, tape_GetTotalSize, get_meta, put_meta, vec_set,
    vec_at, ret, fail.
  cbn [_tape with_tape with_meta _open _settings _metaData expressIDToLine
       set_ifcTypeToLineID set_expressIDToLine set_lines lines].
  fold (is_new_line md h). rewrite Hnew.
  cbn [_metaData expressIDToLine lines with_meta with_tape _open _tape _settings].
  rewrite (proj2 (Z.ltb_ge h 0)) by lia. rewrite Hi.
  rewrite (proj2 (Z.ltb_ge i 0)) by lia. rewrite Hl.
  replace ((0 <=? i) && (i <? Z.of_nat (length (lines md)))) with true
    by (symmetry; apply andb_true_iff; split; [apply Z.leb_le | apply Z.ltb_lt];
        [lia | apply lookup_lt_Some in Hl; lia]).
  unfold rewritten_line. by destruct l.
Qed.

End UpdateLineTapeWrites.

Section WriteSequences.
Import Loader.

Lemma write_all_keeps s0 ws s :
  type_index_ok (_metaData s0) /\ handle_map_ok (_metaData s0) ->
  write_all ws s0 = Ok (tt, s) ->
  type_index_ok (_metaData s) /\ handle_map_ok (_metaData s).
Proof.
  revert s0. induction ws as [|[[[h type] start] end_] ws IH]; intros s0 [Ht Hh].
  - by intros [= <-].
  - unfold write_all. cbn [forM_]. unfold bind at 1.
    destruct (UpdateLineTape h type start end_ s0) as [[[] s1]|] eqn:E; [|done].
    intros Hrun. apply (IH s1); [|exact Hrun]. split.
    + by eapply UpdateLineTape_type_index_ok.
    + by eapply UpdateLineTape_handle_map_ok.
Qed.

End WriteSequences.

(** ** X3: the indices after any sequence of writes *)

(** X3.  Starting from a loader as constructed, after any sequence of
    [UpdateLineTape] calls that returns, the type index lists for every type
    exactly the LineIDs of the records of that type, in the order of the
    line table, and every non-zero entry of the handle map points to a
    record that carries that handle. *)
Theorem UpdateLineTape_keeps_indices (settings : LoaderSettings)
    (ws : list (Z * Z * Z * Z)) (s : IfcLoader) :
  write_all ws (new_loader settings) = Ok (tt, s) ->
  type_index_ok (_metaData s) /\ handle_map_ok (_metaData s).
Proof.
  apply write_all_keeps. split.
  - exact empty_meta_type_index_ok.
  - exact empty_meta_handle_map_ok.
Qed.

Lemma UpdateLineTape_keeps_indices_witness :
  write_all [(1, 7, 0, 10); (50, 7, 10, 20); (10, 8, 20, 30)] (new_loader default_settings)
  = Ok (tt, WriteStates.after_three)
  /\ type_index_ok (_metaData (WriteStates.after_three))
  /\ handle_map_ok (_metaData (WriteStates.after_three)).
Proof.
  assert (H : write_all [(1, 7, 0, 10); (50, 7, 10, 20); (10, 8, 20, 30)]
                (new_loader default_settings)
              = Ok (tt, WriteStates.after_three))
    by (vm_compute; reflexivity).
  split; [exact H|].
  exact (UpdateLineTape_keeps_indices default_settings _ _ H).
Defined.

(** ** X4 to X7: one write *)

(** X4.  A write for a handle [h] (positive, below 2^31) that the test
    "new line?" takes for new returns, and appends one record: the line
    count grows by one, [h] maps to the new LineID, the new record holds
    the handle, its own LineID, the type and the two offsets, the type index
    entry of the type gains the new LineID at its end, and the records that
    were there are as they were. *)
Theorem UpdateLineTape_new_handle (s : IfcLoader) (h type start end_ : Z) :
  is_new_line (_metaData s) h = true -> 0 < h -> h * 2 < 2 ^ 32 ->
  exists s',
    Loader.UpdateLineTape h type start end_ s = Ok (tt, s')
    /\ Loader.GetNumLines s' = Ok (line_count s + 1, s')
    /\ Loader.ExpressIDToLineID h s' = Ok (line_count s, s')
    /\ Loader.GetLine (line_count s) s'
       = Ok (mkLine h (line_count s) type start end_, s')
    /\ Loader.GetLineIDsWithType type s'
       = Ok (map_at (ifcTypeToLineID (_metaData s)) type ++ [line_count s], s')
    /\ (forall i l, Loader.GetLine i s = Ok (l, s) -> Loader.GetLine i s' = Ok (l, s')).
Proof.
  intros Hnew Hh Hh2. eexists. split; [by apply UpdateLineTape_appends|].
  assert (Hw : wrap32 (h * 2) = h * 2) by (apply wrap32_small; lia).
  unfold Loader.GetNumLines, Loader.ExpressIDToLineID, Loader.GetLine,
    Loader.GetLineIDsWithType, bind, get, ret, line_count, appended_line.
  cbn [_metaData with_meta lines expressIDToLine ifcTypeToLineID].
  split; [|split; [|split; [|split]]].
  - rewrite length_app. cbn [length]. do 3 f_equal. lia.
  - apply vec_at_lookup; [lia|].
    apply list_lookup_insert_eq. rewrite length_resize, Hw. lia.
  - apply vec_at_lookup; [lia|]. rewrite Nat2Z.id. by apply list_lookup_middle.
  - by rewrite map_at_push, decide_True.
  - intros i l Hl. apply vec_at_inv in Hl as (Hi & Hl & _).
    apply vec_at_lookup; [done|]. by apply lookup_app_l_Some.
Qed.

Lemma UpdateLineTape_new_handle_witness :
  is_new_line (_metaData WriteStates.after_1_50) 10 = true
  /\ exists s',
    Loader.UpdateLineTape 10 8 20 30 WriteStates.after_1_50
    = Ok (tt, s')
    /\ Loader.GetNumLines s' = Ok (3, s')
    /\ Loader.ExpressIDToLineID 10 s' = Ok (2, s')
    /\ Loader.GetLine 2 s' = Ok (mkLine 10 2 8 20 30, s')
    /\ Loader.GetLineIDsWithType 8 s' = Ok ([2], s')
    /\ (forall i l,
          Loader.GetLine i WriteStates.after_1_50
          = Ok (l, WriteStates.after_1_50) ->
          Loader.GetLine i s' = Ok (l, s')).
Proof.
  split; [reflexivity|].
  exact (UpdateLineTape_new_handle WriteStates.after_1_50
           10 8 20 30 eq_refl eq_refl eq_refl).
Defined.

(** X5.  A write for a handle that maps to a record other than record 0
    returns and rewrites the two offsets of that record, and nothing else:
    the record keeps its handle, its LineID and its type (the type passed to
    the call is not looked at), and the line table keeps its length, the
    handle map, the type index and the tape are as they were. *)
Theorem UpdateLineTape_known_handle (s : IfcLoader) (h type start end_ i : Z) (l : IfcLine) :
  Loader.ExpressIDToLineID h s = Ok (i, s) -> i <> 0 ->
  Loader.GetLine i s = Ok (l, s) ->
  exists s',
    Loader.UpdateLineTape h type start end_ s = Ok (tt, s')
    /\ Loader.GetLine i s'
       = Ok (mkLine (expressID l) (lineIndex l) (ifcType l) start end_, s')
    /\ lines (_metaData s')
       = <[Z.to_nat i := mkLine (expressID l) (lineIndex l) (ifcType l) start end_]>
           (lines (_metaData s))
    /\ expressIDToLine (_metaData s') = expressIDToLine (_metaData s)
    /\ ifcTypeToLineID (_metaData s') = ifcTypeToLineID (_metaData s)
    /\ _tape s' = _tape s.
Proof.
  intros Hh Hi0 Hl.
  apply vec_at_inv in Hh as (Hh0 & Hh & _). apply vec_at_inv in Hl as (Hi & Hl & _).
  eexists. split; [apply (UpdateLineTape_rewrites s h type start end_ i l); (done || lia)|].
  unfold Loader.GetLine, bind, get, ret, rewritten_line.
  cbn [_metaData with_meta lines set_lines expressIDToLine ifcTypeToLineID _tape].
  split; [|done].
  apply vec_at_lookup; [done|]. apply list_lookup_insert_eq. by eapply lookup_lt_Some.
Qed.

Lemma UpdateLineTape_known_handle_witness :
  Loader.ExpressIDToLineID 50 WriteStates.after_1_50
  = Ok (1, WriteStates.after_1_50)
  /\ Loader.GetLine 1 WriteStates.after_1_50
     = Ok (mkLine 50 1 7 10 20, WriteStates.after_1_50)
  /\ exists s',
    Loader.UpdateLineTape 50 9 40 60 WriteStates.after_1_50
    = Ok (tt, s')
    /\ Loader.GetLine 1 s' = Ok (mkLine 50 1 7 40 60, s')
    /\ lines (_metaData s')
       = <[Z.to_nat 1 := mkLine 50 1 7 40 60]>
           (lines (_metaData WriteStates.after_1_50))
    /\ expressIDToLine (_metaData s')
       = expressIDToLine (_metaData WriteStates.after_1_50)
    /\ ifcTypeToLineID (_metaData s')
       = ifcTypeToLineID (_metaData WriteStates.after_1_50)
    /\ _tape s' = _tape WriteStates.after_1_50.
Proof.
  split; [reflexivity|]. split; [reflexivity|].
  exact (UpdateLineTape_known_handle WriteStates.after_1_50
           50 9 40 60 1 (mkLine 50 1 7 10 20) eq_refl ltac:(discriminate) eq_refl).
Defined.

(** X6.  The write of a new handle [h] resizes the handle map to exactly
    [2 * h] entries, whatever its size was: afterwards every handle from
    [2 * h] on is outside the map, also one that was mapped before, and the
    entries below [2 * h] other than [h] are kept. *)
Theorem UpdateLineTape_truncates_handle_map (s : IfcLoader) (h type start end_ : Z) :
  is_new_line (_metaData s) h = true -> 0 < h -> h * 2 < 2 ^ 32 ->
  exists s',
    Loader.UpdateLineTape h type start end_ s = Ok (tt, s')
    /\ Z.of_nat (length (expressIDToLine (_metaData s'))) = h * 2
    /\ (forall H, h * 2 <= H -> Loader.ExpressIDToLineID H s' = Err OutOfBounds)
    /\ (forall H i, 0 <= H < h * 2 -> H <> h ->
          Loader.ExpressIDToLineID H s = Ok (i, s) ->
          Loader.ExpressIDToLineID H s' = Ok (i, s')).
Proof.
  intros Hnew Hh Hh2. eexists. split; [by apply UpdateLineTape_appends|].
  assert (Hw : wrap32 (h * 2) = h * 2) by (apply wrap32_small; lia).
  unfold Loader.ExpressIDToLineID, bind, get, ret, appended_line.
  cbn [_metaData with_meta expressIDToLine]. rewrite Hw.
  split; [|split].
  - rewrite length_insert, length_resize. lia.
  - intros H HH. unfold vec_at. rewrite (proj2 (Z.ltb_ge H 0)) by lia.
    rewrite (proj2 (lookup_ge_None _ _)); [done|].
    rewrite length_insert, length_resize. lia.
  - intros H i HH Hne Hi. apply vec_at_inv in Hi as (_ & Hi & _).
    apply vec_at_lookup; [lia|].
    rewrite list_lookup_insert_ne by lia.
    rewrite lookup_resize; [done | lia | by eapply lookup_lt_Some].
Qed.

Lemma UpdateLineTape_truncates_handle_map_witness :
  is_new_line (_metaData WriteStates.after_1_50) 10 = true
  /\ Loader.ExpressIDToLineID 50 WriteStates.after_1_50
     = Ok (1, WriteStates.after_1_50)
  /\ exists s',
    Loader.UpdateLineTape 10 7 20 30 WriteStates.after_1_50
    = Ok (tt, s')
    /\ Z.of_nat (length (expressIDToLine (_metaData s'))) = 10 * 2
    /\ (forall H, 10 * 2 <= H -> Loader.ExpressIDToLineID H s' = Err OutOfBounds)
    /\ (forall H i, 0 <= H < 10 * 2 -> H <> 10 ->
          Loader.ExpressIDToLineID H WriteStates.after_1_50
          = Ok (i, WriteStates.after_1_50) ->
          Loader.ExpressIDToLineID H s' = Ok (i, s')).
Proof.
  split; [reflexivity|]. split; [reflexivity|].
  exact (UpdateLineTape_truncates_handle_map
           WriteStates.after_1_50 10 7 20 30
           eq_refl eq_refl eq_refl).
Defined.

(** X7.  LineID 0 is also the mark for "no line": a write for the handle
    of record 0 does not rewrite that record.  It appends a second record
    for the handle and maps the handle to it; record 0 keeps its offsets. *)
Theorem UpdateLineTape_first_record_again (s : IfcLoader) (h type start end_ : Z)
    (l0 : IfcLine) :
  Loader.ExpressIDToLineID h s = Ok (0, s) ->
  Loader.GetLine 0 s = Ok (l0, s) ->
  0 < h -> h * 2 < 2 ^ 32 ->
  exists s',
    Loader.UpdateLineTape h type start end_ s = Ok (tt, s')
    /\ Loader.GetNumLines s' = Ok (line_count s + 1, s')
    /\ Loader.GetLine 0 s' = Ok (l0, s')
    /\ Loader.ExpressIDToLineID h s' = Ok (line_count s, s')
    /\ Loader.GetLine (line_count s) s'
       = Ok (mkLine h (line_count s) type start end_, s').
Proof.
  intros Hh Hl Hh0 Hh2.
  apply vec_at_inv in Hh as (_ & Hh & _). apply vec_at_inv in Hl as (_ & Hl & _).
  assert (Hnew : is_new_line (_metaData s) h = true).
  { unfold is_new_line. rewrite Hh. cbn. apply orb_true_r. }
  eexists. split; [by apply UpdateLineTape_appends|].
  assert (Hw : wrap32 (h * 2) = h * 2) by (apply wrap32_small; lia).
  unfold Loader.GetNumLines, Loader.ExpressIDToLineID, Loader.GetLine,
    bind, get, ret, line_count, appended_line.
  cbn [_metaData with_meta lines expressIDToLine ifcTypeToLineID].
  split; [|split; [|split]].
  - rewrite length_app. cbn [length]. do 3 f_equal. lia.
  - apply vec_at_lookup; [lia|]. by apply lookup_app_l_Some.
  - apply vec_at_lookup; [lia|].
    apply list_lookup_insert_eq. rewrite length_resize, Hw. lia.
  - apply vec_at_lookup; [lia|]. rewrite Nat2Z.id. by apply list_lookup_middle.
Qed.

Lemma UpdateLineTape_first_record_again_witness :
  Loader.ExpressIDToLineID 5 WriteStates.after_5
  = Ok (0, WriteStates.after_5)
  /\ Loader.GetLine 0 WriteStates.after_5
     = Ok (mkLine 5 0 7 0 10, WriteStates.after_5)
  /\ exists s',
    Loader.UpdateLineTape 5 7 10 20 WriteStates.after_5
    = Ok (tt, s')
    /\ Loader.GetNumLines s' = Ok (1 + 1, s')
    /\ Loader.GetLine 0 s' = Ok (mkLine 5 0 7 0 10, s')
    /\ Loader.ExpressIDToLineID 5 s' = Ok (1, s')
    /\ Loader.GetLine 1 s' = Ok (mkLine 5 1 7 10 20, s').
Proof.
  split; [reflexivity|]. split; [reflexivity|].
  exact (UpdateLineTape_first_record_again
           WriteStates.after_5 5 7 10 20
           (mkLine 5 0 7 0 10) eq_refl eq_refl eq_refl eq_refl).
Defined.

(** X8.  Handle 0 cannot be written as a new line: the handle map is
    resized to [0 * 2] entries, and the entry of handle 0 is then outside
    it. *)
Theorem UpdateLineTape_handle_zero (s : IfcLoader) (type start end_ : Z) :
  is_new_line (_metaData s) 0 = true ->
  Loader.UpdateLineTape 0 type start end_ s = Err OutOfBounds.
Proof.
  destruct s as [o t st md]. cbn [_metaData]. intros Hnew.
  unfold Loader.UpdateLineTape, bind, on_tape, tape_GetTotalSize, get_meta, put_meta,
    vec_set, vec_at, ret, fail.
  cbn [_tape with_tape with_meta _open _settings _metaData expressIDToLine
       set_ifcTypeToLineID set_expressIDToLine set_lines lines].
  fold (is_new_line md 0). rewrite Hnew. by rewrite length_resize.
Qed.

Lemma UpdateLineTape_handle_zero_witness :
  is_new_line (_metaData (new_loader default_settings)) 0 = true
  /\ Loader.UpdateLineTape 0 7 0 10 (new_loader default_settings) = Err OutOfBounds.
Proof.
  split; [reflexivity|].
  exact (UpdateLineTape_handle_zero (new_loader default_settings) 7 0 10 eq_refl).
Defined.

(** ** Reading the arguments of a line *)

Section TypedReads.
Import Loader.

(** The typed reads skip one byte where the tag is and read the payload. *)
Lemma GetRefArgument_payload s c r post :
  0 <= r < 2 ^ 32 ->
  tape_rest (_tape s) = c :: le_encode 4 r ++ post ->
  GetRefArgument s = Ok (r, at_cursor s (readPtr (_tape s) + 5)).
Proof.
  intros Hr Hd. unfold GetRefArgument. apply on_tape_at. unfold tape_GetRefArgument.
  unfold tape_rest in Hd.
  rewrite (bind_Ok _ _ _ _ _ (Read_char_ok _ _ _ _ Hd)).
  apply (drop_prefix_skip _ _ [_]) in Hd. cbn [length] in Hd.
  rewrite (Read_uint32_ok _ _ _ _ Hr Hd). do 3 f_equal. lia.
Qed.

Lemma GetDoubleArgument_payload s c b post :
  0 <= b < 2 ^ 64 ->
  tape_rest (_tape s) = c :: le_encode 8 b ++ post ->
  GetDoubleArgument s = Ok (b, at_cursor s (readPtr (_tape s) + 9)).
Proof.
  intros Hb Hd. unfold GetDoubleArgument. apply on_tape_at.
  unfold tape_rest in Hd.
  rewrite (bind_Ok _ _ _ _ _ (Read_char_ok _ _ _ _ Hd)).
  apply (drop_prefix_skip _ _ [_]) in Hd. cbn [length] in Hd.
  rewrite (Read_double_ok _ _ _ _ Hb Hd). do 3 f_equal. lia.
Qed.

Lemma GetStringViewArgument_payload s c str post :
  Z.of_nat (length str) < 256 ->
  tape_rest (_tape s) = c :: Z.of_nat (length str) :: str ++ post ->
  GetStringViewArgument s = Ok (str, at_cursor s (readPtr (_tape s) + 2 + length str)).
Proof. apply GetStringArgument_here. Qed.

(** [GetSetArgument] from any byte in the place of the opening bracket. *)
Lemma tape_GetSetArgument_payload data p c xs post :
  forallb arg_wf xs = true -> forallb set_readable xs = true ->
  drop p data = c :: encode_args xs ++ tag_of SET_END :: post ->
  tape_GetSetArgument (mkTape data p)
  = Ok (map wrap32 (leaf_offsets_list (S p) xs),
        mkTape data (p + 2 + length (encode_args xs))).
Proof.
  intros Hwf Hrd Hdrop. unfold tape_GetSetArgument.
  pose proof (drop_prefix_bound _ _ [_] _ Hdrop) as Hlen.
  rewrite length_app in Hlen. cbn [length] in Hlen.
  rewrite (bind_Ok _ _ _ _ _ (Read_char_ok _ _ _ _ Hdrop)).
  unfold bind, get, tape_fuel. cbn [tape_data].
  apply (drop_prefix_skip data p [_]) in Hdrop. cbn [length] in Hdrop.
  pose proof (ntoks_le_length xs).
  replace (S (length data)) with (ntoks xs + S (length data - ntoks xs))%nat by lia.
  assert (H1 : 1 <= 1) by lia.
  rewrite (set_loop_args xs Hwf Hrd _ 1 [] data _ _ H1 Hdrop).
  apply drop_prefix_skip in Hdrop.
  rewrite (set_loop_close _ _ _ _ _ Hdrop). simpl app.
  replace (p + 1)%nat with (S p) by lia.
  do 3 f_equal. lia.
Qed.

(** *** Elements [GetSetArgument] has no branch for *)

Lemma fails_unreadable_list xs :
  Forall fails_unreadable xs ->
  forallb arg_wf xs = true -> forallb set_readable xs = false ->
  forall fuel depth acc data p post,
    1 <= depth ->
    drop p data = encode_args xs ++ post ->
    GetSetArgument_loop (ntoks xs + fuel) depth acc (mkTape data p) = Err AssertFailed.
Proof.
  unfold ntoks, encode_args.
  induction 1 as [|x xs Hx _ IH]; intros Hwf Hrd fuel depth acc data p post Hd Hdrop;
    [done|].
  cbn [forallb] in Hwf, Hrd. apply andb_true_iff in Hwf as [Hwx Hwxs].
  cbn [map list_sum fold_right flat_map] in *.
  rewrite <- app_assoc in Hdrop. rewrite <- Nat.add_assoc.
  destruct (set_readable x) eqn:Hrx.
  - rewrite (set_loop_arg x Hwx Hrx _ depth acc data p _ Hd Hdrop).
    apply drop_prefix_skip in Hdrop.
    cbn [andb] in Hrd. by apply (IH Hwxs Hrd _ _ _ _ _ post Hd).
  - by apply (Hx Hwx Hrx _ _ _ _ _ (flat_map encode_arg xs ++ post)).
Qed.

Lemma set_loop_unreadable a : fails_unreadable a.
Proof.
  unfold fails_unreadable.
  induction a as [ | | s | s | s | b | h | xs IH] using Arg_ind_nested;
    intros Hwf Hrd fuel depth acc data p post Hd Hdrop; try discriminate Hrd.
  1-3: cbn [ntok Nat.add encode_arg] in *;
       by rewrite (set_loop_read _ _ _ _ _ _ _ Hdrop).
  rewrite arg_wf_set in Hwf. rewrite set_readable_set in Hrd.
  rewrite encode_set_layout in Hdrop. cbn [ntok Nat.add].
  assert (Hd1 : depth + 1 <> 0) by lia. assert (Hd2 : 1 <= depth + 1) by lia.
  rewrite (set_loop_begin _ _ _ _ _ _ Hd1 Hdrop).
  apply (drop_prefix_skip data p [_]) in Hdrop. cbn [length] in Hdrop.
  replace (S (list_sum (map ntok xs) + fuel))%nat with (ntoks xs + S fuel)%nat
    by (unfold ntoks; lia).
  by apply (fails_unreadable_list xs IH Hwf Hrd _ _ _ _ _ (tag_of SET_END :: post)).
Qed.

Lemma tape_GetSetArgument_unreadable data p xs post :
  forallb arg_wf xs = true -> forallb set_readable xs = false ->
  drop p data = encode_arg (ASet xs) ++ post ->
  tape_GetSetArgument (mkTape data p) = Err AssertFailed.
Proof.
  intros Hwf Hrd Hdrop. unfold tape_GetSetArgument.
  rewrite encode_set_layout in Hdrop.
  pose proof (drop_prefix_bound _ _ [_] _ Hdrop) as Hlen.
  rewrite length_app in Hlen. cbn [length] in Hlen.
  rewrite (bind_Ok _ _ _ _ _ (Read_char_ok _ _ _ _ Hdrop)).
  unfold bind, get, tape_fuel. cbn [tape_data].
  apply (drop_prefix_skip data p [_]) in Hdrop. cbn [length] in Hdrop.
  pose proof (ntoks_le_length xs).
  replace (S (length data)) with (ntoks xs + S (length data - ntoks xs))%nat by lia.
  assert (H1 : 1 <= 1) by lia.
  apply (fails_unreadable_list xs) with (post := tag_of SET_END :: post); try done.
  apply Forall_forall. intros a _. apply set_loop_unreadable.
Qed.

(** *** A line without an argument list *)

Lemma tape_MoveToArgumentOffset_no_list data p0 off pre post (i : Z) :
  0 <= off ->
  forallb leaf_wf pre = true ->
  drop (Z.to_nat off) data = encode_args pre ++ tag_of LINE_END :: post ->
  tape_MoveToArgumentOffset off i (mkTape data p0) = Err AssertFailed.
Proof.
  intros Hoff Hpre Hdrop.
  unfold tape_MoveToArgumentOffset, tape_MoveTo, bind, get, tape_at, tape_fuel.
  cbn [tape_data readPtr].
  pose proof (drop_prefix_bound _ _ _ _ Hdrop) as Hlen0.
  pose proof (length_le_encode_args pre) as Hlp. cbn [length] in Hlen0.
  replace (S (length data)) with (length pre + S (length data - length pre))%nat by lia.
  rewrite (loop_prefix pre Hpre _ _ _ _ _ _ Hdrop).
  apply drop_prefix_skip in Hdrop.
  cbn [MoveToArgumentOffset_loop]. change (0 =? 1) with false. cbn [andb].
  by rewrite (bind_Ok _ _ _ _ _ (Read_char_ok _ _ _ _ Hdrop)).
Qed.

End TypedReads.

(** The lines of the samples carry their arguments. *)
Lemma s1_project_has_args :
  line_has_args Samples.s1_tape (mkLine 1 0 (IFCPROJECT Samples.schema) 17 43)
    [] Samples.s1_project_args.
Proof.
  split; [simpl; lia|]. split; [reflexivity|].
  by exists (tag_of LINE_END
             :: Samples.encode_line 2 "IFCGEOMETRICREPRESENTATIONCONTEXT" Samples.s1_context_args
             ++ Samples.encode_line 3 "IFCUNITASSIGNMENT" Samples.s1_units_args
             ++ Samples.encode_line 4 "IFCSIUNIT" Samples.s1_siunit_args).
Qed.

(** ** X9: reading argument [i] of a line *)

(** X9.  Let the record [lineID] be a line whose argument list is [args],
    with the arguments up to and including argument [i] fitting their
    fields.  Then [MoveToLineArgument] to [i] followed by the read for the
    kind of argument [i] returns what the tape encodes there: the handle of
    a REF, the bits of a REAL, the bytes of a STRING, LABEL or ENUM (and
    [GetTokenType] the tag of any other argument).  Arguments before [i]
    that are sets, nested or not, are passed over as one argument each; the
    cursor ends on the next argument. *)
Theorem read_line_argument (s : IfcLoader) (lineID : Z) (l : IfcLine)
    (pre args : list Arg) (i : nat) (a : Arg) :
  Loader.GetLine lineID s = Ok (l, s) ->
  line_has_args (tape_data (_tape s)) l pre args ->
  args !! i = Some a ->
  forallb arg_wf (take (S i) args) = true ->
  match a with
  | ARef r =>
      (Loader.MoveToLineArgument lineID (Z.of_nat i) ;; Loader.GetRefArgument) s
      = Ok (r, at_cursor s (arg_offset l pre args (S i)))
  | AReal b =>
      (Loader.MoveToLineArgument lineID (Z.of_nat i) ;; Loader.GetDoubleArgument) s
      = Ok (b, at_cursor s (arg_offset l pre args (S i)))
  | AString str | ALabel str | AEnum str =>
      (Loader.MoveToLineArgument lineID (Z.of_nat i) ;; Loader.GetStringArgument) s
      = Ok (str, at_cursor s (arg_offset l pre args (S i)))
  | _ =>
      (Loader.MoveToLineArgument lineID (Z.of_nat i) ;; Loader.GetTokenType) s
      = Ok (hd 0 (encode_arg a), at_cursor s (arg_offset l pre args i + 1))
  end.
Proof.
  intros Hline Hl Ha Hwf.
  assert (Hwa : arg_wf a = true).
  { apply (forallb_lookup _ _ i _ Hwf). rewrite lookup_take_lt by lia. done. }
  assert (Hwi : forallb arg_wf (take i args) = true)
    by (apply (forallb_take_take _ _ (S i)); [lia | done]).
  assert (Hmove : Loader.MoveToLineArgument lineID (Z.of_nat i) s
                  = Ok (tt, at_cursor s (arg_offset l pre args i))).
  { unfold Loader.MoveToLineArgument. rewrite (bind_Ok _ _ _ _ _ Hline).
    by apply MoveToArgumentOffset_arg with (a := a). }
  destruct (arg_offset_content _ _ _ _ _ _ Hl Ha) as [post Hc].
  rewrite (arg_offset_S _ _ _ _ _ Ha).
  set (p := arg_offset l pre args i) in *.
  assert (Hrest : tape_rest (_tape (at_cursor s p)) = encode_arg a ++ post) by exact Hc.
  destruct a as [ | | str | str | str | b | r | xs]; rewrite (bind_Ok _ _ _ _ _ Hmove);
    cbn [encode_arg arg_wf length] in *.
  - by rewrite (GetTokenType_here _ _ _ Hrest).
  - by rewrite (GetTokenType_here _ _ _ Hrest).
  - apply Z.ltb_lt in Hwa.
    rewrite (GetStringArgument_here _ _ _ _ Hwa Hrest). do 3 f_equal. cbn. lia.
  - apply Z.ltb_lt in Hwa.
    rewrite (GetStringArgument_here _ _ _ _ Hwa Hrest). do 3 f_equal. cbn. lia.
  - apply Z.ltb_lt in Hwa.
    rewrite (GetStringArgument_here _ _ _ _ Hwa Hrest). do 3 f_equal. cbn. lia.
  - apply andb_true_iff in Hwa as [H0 H1]. apply Z.leb_le in H0. apply Z.ltb_lt in H1.
    rewrite (GetDoubleArgument_payload _ _ _ _ (conj H0 H1) Hrest).
    do 3 f_equal; cbn; rewrite ?le_encode_length; lia.
  - apply andb_true_iff in Hwa as [H0 H1]. apply Z.leb_le in H0. apply Z.ltb_lt in H1.
    rewrite (GetRefArgument_payload _ _ _ _ (conj H0 H1) Hrest).
    do 3 f_equal; cbn; rewrite ?le_encode_length; lia.
  - by rewrite (GetTokenType_here _ _ _ Hrest).
Qed.

(** The unit assignment of the project of scenario S1 is its argument 8,
    after a set at argument 7. *)
Lemma read_line_argument_witness :
  (Loader.MoveToLineArgument 0 (Z.of_nat 8) ;; Loader.GetRefArgument) Samples.s1_loader
  = Ok (3, at_cursor Samples.s1_loader
             (arg_offset (mkLine 1 0 (IFCPROJECT Samples.schema) 17 43) []
                Samples.s1_project_args 9)).
Proof.
  exact (read_line_argument Samples.s1_loader 0
           (mkLine 1 0 (IFCPROJECT Samples.schema) 17 43) [] Samples.s1_project_args
           8 (ARef 3) eq_refl s1_project_has_args eq_refl eq_refl).
Defined.

(** ** X10: a line without an argument list *)

(** X10.  When the tokens from the line's [tapeOffset] reach LINE_END
    before any opening bracket, [MoveToArgumentOffset] runs into its
    [assert(false)], whatever the argument index. *)
Theorem MoveToArgumentOffset_without_list (s : IfcLoader) (l : IfcLine)
    (pre : list Arg) (post : list Z) (i : Z) :
  0 <= tapeOffset l ->
  forallb leaf_wf pre = true ->
  drop (Z.to_nat (tapeOffset l)) (tape_data (_tape s))
    = encode_args pre ++ tag_of LINE_END :: post ->
  Loader.MoveToArgumentOffset l i s = Err AssertFailed.
Proof.
  intros Hoff Hpre Hdrop. unfold Loader.MoveToArgumentOffset, on_tape.
  rewrite (tape_eta (_tape s)).
  by rewrite (tape_MoveToArgumentOffset_no_list _ _ _ pre post i Hoff Hpre Hdrop).
Qed.

(** The record of the one-argument sample, moved to the end of its line. *)
Lemma MoveToArgumentOffset_without_list_witness :
  Loader.MoveToArgumentOffset (mkLine 1 0 0 13 14) 0 Samples.one_arg_loader
  = Err AssertFailed.
Proof.
  apply (MoveToArgumentOffset_without_list Samples.one_arg_loader (mkLine 1 0 0 13 14)
           [] []).
  - simpl. lia.
  - reflexivity.
  - reflexivity.
Defined.

(** ** X11: sets [GetSetArgument] cannot read *)

(** X11.  With the cursor on a set that holds, at any depth, an ENUM, an
    EMPTY or an UNKNOWN token, [GetSetArgument] runs into its
    [assert(false)]: it returns offsets only for sets of REAL, REF, STRING
    and LABEL tokens and sets of these. *)
Theorem GetSetArgument_unreadable_element (s : IfcLoader) (xs : list Arg) (post : list Z) :
  forallb arg_wf xs = true ->
  set_readable (ASet xs) = false ->
  tape_rest (_tape s) = encode_arg (ASet xs) ++ post ->
  Loader.GetSetArgument s = Err AssertFailed.
Proof.
  intros Hwf Hrd Hdrop. unfold Loader.GetSetArgument, on_tape.
  rewrite (tape_eta (_tape s)).
  by rewrite (tape_GetSetArgument_unreadable _ _ xs post Hwf Hrd Hdrop).
Qed.

(** The set [(#2,($))] *)
Lemma GetSetArgument_unreadable_element_witness :
  Loader.GetSetArgument
    (mkLoader false (mkTape (encode_arg (ASet [ARef 2; ASet [AEmpty]])) 0)
       default_settings empty_meta)
  = Err AssertFailed.
Proof.
  apply (GetSetArgument_unreadable_element _ [ARef 2; ASet [AEmpty]] []).
  - reflexivity.
  - reflexivity.
  - reflexivity.
Defined.

(** ** X12: the reads do not look at the tag *)

(** X12.  [GetRefArgument], [GetDoubleArgument], [GetStringArgument],
    [GetStringViewArgument] and [GetSetArgument] skip the byte under the
    cursor without looking at it: whatever that byte is, they return the
    four bytes after it as a handle, the eight bytes as a REAL, the
    length-prefixed bytes as a string, and the offsets of the tokens up to
    the closing bracket that matches. *)
Theorem typed_reads_ignore_tag (s : IfcLoader) (c : Z) (post : list Z) :
  (forall r, 0 <= r < 2 ^ 32 ->
     tape_rest (_tape s) = c :: le_encode 4 r ++ post ->
     Loader.GetRefArgument s = Ok (r, at_cursor s (readPtr (_tape s) + 5)))
  /\ (forall b, 0 <= b < 2 ^ 64 ->
     tape_rest (_tape s) = c :: le_encode 8 b ++ post ->
     Loader.GetDoubleArgument s = Ok (b, at_cursor s (readPtr (_tape s) + 9)))
  /\ (forall str, Z.of_nat (length str) < 256 ->
     tape_rest (_tape s) = c :: Z.of_nat (length str) :: str ++ post ->
     Loader.GetStringArgument s
     = Ok (str, at_cursor s (readPtr (_tape s) + 2 + length str))
     /\ Loader.GetStringViewArgument s
        = Ok (str, at_cursor s (readPtr (_tape s) + 2 + length str)))
  /\ (forall xs, forallb arg_wf xs = true -> forallb set_readable xs = true ->
     tape_rest (_tape s) = c :: encode_args xs ++ tag_of SET_END :: post ->
     Loader.GetSetArgument s
     = Ok (map wrap32 (leaf_offsets_list (S (readPtr (_tape s))) xs),
           at_cursor s (readPtr (_tape s) + 2 + length (encode_args xs)))).
Proof.
  split; [|split; [|split]].
  - intros r Hr Hd. by apply (GetRefArgument_payload s c r post).
  - intros b Hb Hd. by apply (GetDoubleArgument_payload s c b post).
  - intros str Hl Hd. split.
    + by apply (GetStringArgument_here s c str post).
    + by apply (GetStringViewArgument_payload s c str post).
  - intros xs Hwf Hrd Hd. unfold Loader.GetSetArgument. apply on_tape_at.
    by apply (tape_GetSetArgument_payload _ _ c xs post).
Qed.

(** A REAL token read as a handle: its first four bytes come back. *)
Lemma typed_reads_ignore_tag_witness :
  Loader.GetRefArgument
    (mkLoader false (mkTape (tag_of REAL :: le_encode 4 7 ++ le_encode 4 0) 0)
       default_settings empty_meta)
  = Ok (7, at_cursor
             (mkLoader false (mkTape (tag_of REAL :: le_encode 4 7 ++ le_encode 4 0) 0)
                default_settings empty_meta) 5).
Proof.
  apply (proj1 (typed_reads_ignore_tag
                  (mkLoader false (mkTape (tag_of REAL :: le_encode 4 7 ++ le_encode 4 0) 0)
                     default_settings empty_meta)
                  (tag_of REAL) (le_encode 4 0)) 7).
  - lia.
  - reflexivity.
Defined.

(** ** The relationship passes *)

Section Passes.
Import Loader.
Variable sch : Schema.

(** A loop over the lines of a type, each adding to the metadata. *)
Lemma pass_loop {D : Type} (body : Z -> SE IfcLoader unit)
    (P : IfcLoader -> Z -> D -> Prop) (upd : IfcMetaData -> Z * D -> IfcMetaData) :
  (forall s id d, P s id d ->
     exists p, body id s = Ok (tt, with_meta (at_cursor s p) (upd (_metaData s) (id, d)))) ->
  (forall s p item id d,
     P s id d -> P (with_meta (at_cursor s p) (upd (_metaData s) item)) id d) ->
  forall ids ds s,
    Forall2 (P s) ids ds ->
    exists p,
      forM_ ids body s
      = Ok (tt, with_meta (at_cursor s p) (fold_left upd (zip ids ds) (_metaData s))).
Proof.
  intros Hstep Hstable. induction ids as [|id ids IH]; intros ds s Hall.
  - inversion Hall; subst. exists (readPtr (_tape s)). cbn [forM_ zip zip_with fold_left].
    unfold ret. do 2 f_equal. by destruct s as [? [] ? ?].
  - inversion Hall as [|? d ? ds' Hd Hds]; subst.
    destruct (Hstep s id d Hd) as [p1 H1].
    cbn [forM_]. rewrite (bind_Ok _ _ _ _ _ H1).
    set (s1 := with_meta (at_cursor s p1) (upd (_metaData s) (id, d))).
    assert (Hds1 : Forall2 (P s1) ids ds').
    { eapply Forall2_impl; [exact Hds|]. intros id' d' H'. by apply Hstable. }
    destruct (IH ds' s1 Hds1) as [p Hp].
    exists p. rewrite Hp. reflexivity.
Qed.

(** The additions to one field of the metadata, gathered. *)
Lemma fold_field {M X : Type} (getF : IfcMetaData -> M)
    (setF : IfcMetaData -> M -> IfcMetaData) (f : M -> X -> M) :
  (forall md m, getF (setF md m) = m) ->
  (forall md m m', setF (setF md m) m' = setF md m') ->
  (forall md, setF md (getF md) = md) ->
  forall items md,
    fold_left (fun md x => setF md (f (getF md) x)) items md
    = setF md (fold_left f items (getF md)).
Proof.
  intros Hget Hset Hsame. induction items as [|x items IH]; intros md; cbn [fold_left].
  - by rewrite Hsame.
  - by rewrite IH, Hget, Hset.
Qed.

(** A loop over the offsets of the REFs of a set. *)
Lemma refs_loop (upd : IfcMetaData -> Z -> IfcMetaData) data :
  forall os rs s,
    tape_data (_tape s) = data ->
    Forall2 (fun o r => element_at data o (ARef r)) os rs ->
    Forall is_u32 rs ->
    exists p,
      forM_ os (fun o =>
        let* r := GetRefArgumentAt o in
        let* md := get_meta in
        put_meta (upd md r)) s
      = Ok (tt, with_meta (at_cursor s p) (fold_left upd rs (_metaData s))).
Proof.
  induction os as [|o os IH]; intros rs s Hdata Hel Hrs.
  - inversion Hel; subst. exists (readPtr (_tape s)). simpl.
    unfold ret. do 2 f_equal. by destruct s as [? [] ? []].
  - inversion Hel as [|? r ? rs' Ho Hos]; subst. inversion Hrs as [|? ? Hr Hrs']; subst.
    cbn [forM_].
    destruct (IH rs' (with_meta (at_cursor s (Z.to_nat o + 5)) (upd (_metaData s) r))
                eq_refl Hos Hrs') as [p Hp].
    exists p. unfold bind at 1.
    unfold bind at 1. rewrite (GetRefArgumentAt_element s o r Hr Ho).
    unfold bind at 1, get_meta, put_meta. exact Hp.
Qed.

(** *** Voids *)

Lemma rel_voids_step s id d :
  rel_voids_line (tape_data (_tape s)) (_metaData s) id d ->
  exists p,
    rel_voids_body id s
    = Ok (tt, with_meta (at_cursor s p)
                (set_relVoids (_metaData s)
                   (rel_voids_effect (_relVoids (_metaData s)) (id, d)))).
Proof.
  intros (l & pre & args & Hline & Hl & Ha4 & Ha5 & Hu1 & Hu2 & Hwf).
  unfold rel_voids_body. rewrite (resolve_line _ _ _ _ Hline).
  assert (H1 : MoveToArgumentOffset l 4 s = Ok (tt, at_cursor s (arg_offset l pre args 4)))
    by exact (MoveToArgumentOffset_arg s l pre args 4 _ Hl Ha4 Hwf).
  rewrite (bind_Ok _ _ _ _ _ H1).
  destruct (arg_offset_content _ _ _ _ _ _ Hl Ha4) as [post4 Hc4].
  destruct (arg_offset_content _ _ _ _ _ _ Hl Ha5) as [post5 Hc5].
  rewrite (arg_offset_S _ _ _ _ _ Ha4) in Hc5.
  set (p4 := arg_offset l pre args 4) in *.
  rewrite (bind_Ok _ _ _ _ _ (GetRefArgument_here (at_cursor s p4) d.1 post4 Hu1 Hc4)).
  rewrite at_cursor_twice. cbn [at_cursor_ptr readPtr _tape at_cursor with_tape tape_at].
  rewrite (bind_Ok _ _ _ _ _ (GetRefArgument_here (at_cursor s (p4 + 5)) d.2 post5 Hu2 Hc5)).
  exists (p4 + 5 + 5)%nat. reflexivity.
Qed.

Lemma rel_voids_loop ids ds s :
  Forall2 (rel_voids_line (tape_data (_tape s)) (_metaData s)) ids ds ->
  exists p,
    forM_ ids rel_voids_body s
    = Ok (tt, with_meta (at_cursor s p)
                (set_relVoids (_metaData s)
                   (fold_left rel_voids_effect (zip ids ds) (_relVoids (_metaData s))))).
Proof.
  intros Hall.
  destruct (pass_loop rel_voids_body
              (fun s => rel_voids_line (tape_data (_tape s)) (_metaData s))
              (fun md item => set_relVoids md (rel_voids_effect (_relVoids md) item))
              rel_voids_step ltac:(intros ? ? ? ? ? H; exact H) ids ds s Hall) as [p Hp].
  exists p. rewrite Hp. do 3 f_equal.
  apply (fold_field _relVoids set_relVoids rel_voids_effect); try done.
  by intros [].
Qed.

(** *** Aggregates *)

Lemma rel_aggregates_step s id d :
  Z.of_nat (length (tape_data (_tape s))) < 2 ^ 32 ->
  rel_aggregates_line (tape_data (_tape s)) (_metaData s) id d ->
  exists p,
    rel_aggregates_body id s
    = Ok (tt, with_meta (at_cursor s p)
                (set_relAggregates (_metaData s)
                   (rel_aggregates_effect (_relAggregates (_metaData s)) (id, d)))).
Proof.
  intros Hlen (l & pre & args & Hline & Hl & Ha4 & Ha5 & Hu1 & Hu2 & Hwf).
  unfold rel_aggregates_body. rewrite (resolve_line _ _ _ _ Hline).
  assert (H1 : MoveToArgumentOffset l 4 s = Ok (tt, at_cursor s (arg_offset l pre args 4)))
    by exact (MoveToArgumentOffset_arg s l pre args 4 _ Hl Ha4 Hwf).
  rewrite (bind_Ok _ _ _ _ _ H1).
  destruct (arg_offset_content _ _ _ _ _ _ Hl Ha4) as [post4 Hc4].
  destruct (arg_offset_content _ _ _ _ _ _ Hl Ha5) as [post5 Hc5].
  rewrite (arg_offset_S _ _ _ _ _ Ha4) in Hc5.
  set (p4 := arg_offset l pre args 4) in *.
  rewrite (bind_Ok _ _ _ _ _ (GetRefArgument_here (at_cursor s p4) d.1 post4 Hu1 Hc4)).
  rewrite at_cursor_twice. cbn [at_cursor_ptr readPtr _tape at_cursor with_tape tape_at].
  destruct (GetSetArgument_refs (at_cursor s (p4 + 5)) d.2 post5 Hlen Hu2 Hc5)
    as (os & Hget & Hos).
  rewrite (bind_Ok _ _ _ _ _ Hget).
  destruct (refs_loop
              (fun md r => set_relAggregates md (map_push (_relAggregates md) d.1 r))
              (tape_data (_tape s)) os d.2
              (at_cursor (at_cursor s (p4 + 5))
                 (readPtr (_tape (at_cursor s (p4 + 5)))
                  + length (encode_arg (ASet (map ARef d.2)))))
              eq_refl Hos Hu2) as [p Hp].
  exists p. rewrite Hp. do 2 f_equal.
  rewrite (fold_field _relAggregates set_relAggregates (fun m r => map_push m d.1 r));
    try done.
  by intros [].
Qed.

Lemma rel_aggregates_loop ids ds s :
  Z.of_nat (length (tape_data (_tape s))) < 2 ^ 32 ->
  Forall2 (rel_aggregates_line (tape_data (_tape s)) (_metaData s)) ids ds ->
  exists p,
    forM_ ids rel_aggregates_body s
    = Ok (tt, with_meta (at_cursor s p)
                (set_relAggregates (_metaData s)
                   (fold_left rel_aggregates_effect (zip ids ds)
                      (_relAggregates (_metaData s))))).
Proof.
  intros Hlen Hall.
  destruct (pass_loop rel_aggregates_body
              (fun s id d => Z.of_nat (length (tape_data (_tape s))) < 2 ^ 32
                             /\ rel_aggregates_line (tape_data (_tape s)) (_metaData s) id d)
              (fun md item => set_relAggregates md
                                (rel_aggregates_effect (_relAggregates md) item))
              ltac:(intros ? ? ? [? ?]; by apply rel_aggregates_step)
              ltac:(intros ? ? ? ? ? H; exact H) ids ds s) as [p Hp].
  { eapply Forall2_impl; [exact Hall|]. by intros. }
  exists p. rewrite Hp. do 3 f_equal.
  apply (fold_field _relAggregates set_relAggregates rel_aggregates_effect); try done.
  by intros [].
Qed.

(** *** Materials *)

Lemma forallb_take_S {A : Type} (f : A -> bool) (l : list A) i a :
  l !! i = Some a -> forallb f (take i l) = true -> f a = true ->
  forallb f (take (S i) l) = true.
Proof.
  intros Ha Hi Hfa. rewrite (take_S_r _ _ _ Ha), forallb_app, Hi. cbn. by rewrite Hfa.
Qed.

Lemma transform_expressID_state ls ids : forall out (s s' : IfcLoader),
  transform_expressID ls ids s = Ok (out, s) ->
  transform_expressID ls ids s' = Ok (out, s').
Proof.
  induction ids as [|i ids IH]; intros out s s'; cbn [transform_expressID].
  - unfold ret. by intros [= <-].
  - unfold bind at 1. destruct (vec_at ls i s) as [[l s1]|] eqn:E; [|done].
    apply vec_at_inv in E as (Hi & Hl & ->).
    unfold bind at 1. destruct (transform_expressID ls ids s) as [[rest s2]|] eqn:E2; [|done].
    unfold ret. intros [= <- ->].
    rewrite (bind_Ok _ _ _ _ _ (vec_at_lookup ls i l s' Hi Hl)).
    by rewrite (bind_Ok _ _ _ _ _ (IH rest s s' E2)).
Qed.

Lemma GetExpressIDsWithType_state T ids s s' :
  lines (_metaData s') = lines (_metaData s) ->
  ifcTypeToLineID (_metaData s') = ifcTypeToLineID (_metaData s) ->
  GetExpressIDsWithType T s = Ok (ids, s) ->
  GetExpressIDsWithType T s' = Ok (ids, s').
Proof.
  intros Hl Ht. unfold GetExpressIDsWithType, bind, get. rewrite Hl, Ht.
  apply transform_expressID_state.
Qed.

Lemma rel_material_step s id d :
  Z.of_nat (length (tape_data (_tape s))) < 2 ^ 32 ->
  rel_material_line (tape_data (_tape s)) (_metaData s) id d ->
  exists p,
    rel_material_body id s
    = Ok (tt, with_meta (at_cursor s p)
                (set_relMaterials (_metaData s)
                   (rel_material_effect (_relMaterials (_metaData s)) (id, d)))).
Proof.
  intros Hlen (l & pre & args & Hline & Hl & Ha4 & Ha5 & Hu1 & Hu2 & Hwf).
  unfold rel_material_body. rewrite (resolve_line _ _ _ _ Hline).
  assert (Hwf5 : forallb arg_wf (take 5 args) = true).
  { apply (forallb_take_S _ _ _ _ Ha4 Hwf). by apply forallb_arg_wf_refs. }
  assert (H1 : MoveToArgumentOffset l 5 s = Ok (tt, at_cursor s (arg_offset l pre args 5)))
    by exact (MoveToArgumentOffset_arg s l pre args 5 _ Hl Ha5 Hwf5).
  rewrite (bind_Ok _ _ _ _ _ H1).
  destruct (arg_offset_content _ _ _ _ _ _ Hl Ha4) as [post4 Hc4].
  destruct (arg_offset_content _ _ _ _ _ _ Hl Ha5) as [post5 Hc5].
  set (p4 := arg_offset l pre args 4) in *. set (p5 := arg_offset l pre args 5) in *.
  rewrite (bind_Ok _ _ _ _ _ (GetRefArgument_here (at_cursor s p5) d.2 post5 Hu2 Hc5)).
  rewrite at_cursor_twice. cbn [at_cursor_ptr readPtr _tape at_cursor with_tape tape_at].
  assert (H2 : MoveToArgumentOffset l 4 (at_cursor s (p5 + 5)) = Ok (tt, at_cursor s p4))
    by exact (MoveToArgumentOffset_arg (at_cursor s (p5 + 5)) l pre args 4 _ Hl Ha4 Hwf).
  rewrite (bind_Ok _ _ _ _ _ H2).
  destruct (GetSetArgument_refs (at_cursor s p4) d.1 post4 Hlen Hu1 Hc4)
    as (os & Hget & Hos).
  rewrite (bind_Ok _ _ _ _ _ Hget).
  destruct (refs_loop
              (fun md r => set_relMaterials md (map_push (_relMaterials md) r (id, d.2)))
              (tape_data (_tape s)) os d.1
              (at_cursor (at_cursor s p4)
                 (readPtr (_tape (at_cursor s p4))
                  + length (encode_arg (ASet (map ARef d.1)))))
              eq_refl Hos Hu1) as [p Hp].
  exists p. rewrite Hp. do 2 f_equal.
  rewrite (fold_field _relMaterials set_relMaterials
             (fun m r => map_push m r (id, d.2))); try done.
  by intros [].
Qed.

Lemma push_all_map {A B : Type} (k : Z) (g : A -> B) (xs : list A) (m : gmap Z (list B)) :
  fold_left (fun m x => map_push m k (g x)) xs m = push_all k (map g xs) m.
Proof.
  unfold push_all. revert m. induction xs as [|x xs IH]; intros m; [done|].
  cbn [fold_left map]. by rewrite IH.
Qed.

Lemma material_definition_step s id d :
  Z.of_nat (length (tape_data (_tape s))) < 2 ^ 32 ->
  material_definition_line (tape_data (_tape s)) (_metaData s) id d ->
  exists p,
    material_definition_body id s
    = Ok (tt, with_meta (at_cursor s p)
                (set_materialDefinitions (_metaData s)
                   (material_definition_effect (_materialDefinitions (_metaData s))
                      (id, d)))).
Proof.
  intros Hlen (l & pre & args & Hline & Hl & Ha2 & Ha3 & Hu1 & Hu2 & Hwf).
  unfold material_definition_body. rewrite (resolve_line _ _ _ _ Hline).
  assert (Hwf3 : forallb arg_wf (take 3 args) = true).
  { apply (forallb_take_S _ _ _ _ Ha2 Hwf). by apply forallb_arg_wf_refs. }
  assert (H1 : MoveToArgumentOffset l 2 s = Ok (tt, at_cursor s (arg_offset l pre args 2)))
    by exact (MoveToArgumentOffset_arg s l pre args 2 _ Hl Ha2 Hwf).
  rewrite (bind_Ok _ _ _ _ _ H1).
  destruct (arg_offset_content _ _ _ _ _ _ Hl Ha2) as [post2 Hc2].
  destruct (arg_offset_content _ _ _ _ _ _ Hl Ha3) as [post3 Hc3].
  set (p2 := arg_offset l pre args 2) in *. set (p3 := arg_offset l pre args 3) in *.
  destruct (GetSetArgument_refs (at_cursor s p2) d.1 post2 Hlen Hu1 Hc2)
    as (os & Hget & Hos).
  rewrite (bind_Ok _ _ _ _ _ Hget).
  rewrite at_cursor_twice.
  set (q := (readPtr (_tape (at_cursor s p2))
             + length (encode_arg (ASet (map ARef d.1))))%nat).
  assert (H2 : MoveToArgumentOffset l 3 (at_cursor s q) = Ok (tt, at_cursor s p3))
    by exact (MoveToArgumentOffset_arg (at_cursor s q) l pre args 3 _ Hl Ha3 Hwf3).
  rewrite (bind_Ok _ _ _ _ _ H2).
  rewrite (bind_Ok _ _ _ _ _ (GetRefArgument_here (at_cursor s p3) d.2 post3 Hu2 Hc3)).
  destruct (refs_loop
              (fun md r => set_materialDefinitions md
                             (map_push (_materialDefinitions md) d.2 (id, r)))
              (tape_data (_tape s)) os d.1
              (at_cursor (at_cursor s p3) (readPtr (_tape (at_cursor s p3)) + 5))
              eq_refl Hos Hu1) as [p Hp].
  exists p. rewrite Hp. do 2 f_equal.
  rewrite (fold_field _materialDefinitions set_materialDefinitions
             (fun m r => map_push m d.2 (id, r))); try done; [|by intros []].
  unfold material_definition_effect. cbn [fst snd]. by rewrite push_all_map.
Qed.

Lemma rel_materials_loops ids1 ds1 ids2 ds2 s :
  Z.of_nat (length (tape_data (_tape s))) < 2 ^ 32 ->
  GetExpressIDsWithType (IFCRELASSOCIATESMATERIAL sch) s = Ok (ids1, s) ->
  GetExpressIDsWithType (IFCMATERIALDEFINITIONREPRESENTATION sch) s = Ok (ids2, s) ->
  Forall2 (rel_material_line (tape_data (_tape s)) (_metaData s)) ids1 ds1 ->
  Forall2 (material_definition_line (tape_data (_tape s)) (_metaData s)) ids2 ds2 ->
  exists p,
    PopulateRelMaterialsMap sch s
    = Ok (tt, with_meta (at_cursor s p)
                (set_materialDefinitions
                   (set_relMaterials (_metaData s)
                      (fold_left rel_material_effect (zip ids1 ds1)
                         (_relMaterials (_metaData s))))
                   (fold_left material_definition_effect (zip ids2 ds2)
                      (_materialDefinitions (_metaData s))))).
Proof.
  intros Hlen Hids1 Hids2 Hall1 Hall2. unfold PopulateRelMaterialsMap.
  rewrite (bind_Ok _ _ _ _ _ Hids1).
  destruct (pass_loop rel_material_body
              (fun s id d => Z.of_nat (length (tape_data (_tape s))) < 2 ^ 32
                             /\ rel_material_line (tape_data (_tape s)) (_metaData s) id d)
              (fun md item => set_relMaterials md
                                (rel_material_effect (_relMaterials md) item))
              ltac:(intros ? ? ? [? ?]; by apply rel_material_step)
              ltac:(intros ? ? ? ? ? H; exact H) ids1 ds1 s) as [p1 Hp1].
  { eapply Forall2_impl; [exact Hall1|]. by intros. }
  change (forM_ ids1 _) with (forM_ ids1 rel_material_body).
  rewrite (bind_Ok _ _ _ _ _ Hp1).
  rewrite (fold_field _relMaterials set_relMaterials rel_material_effect);
    try done; [|by intros []].
  set (s1 := with_meta (at_cursor s p1) _).
  rewrite (bind_Ok _ _ _ _ _ (GetExpressIDsWithType_state _ ids2 s s1 eq_refl eq_refl Hids2)).
  destruct (pass_loop material_definition_body
              (fun s id d => Z.of_nat (length (tape_data (_tape s))) < 2 ^ 32
                             /\ material_definition_line (tape_data (_tape s))
                                  (_metaData s) id d)
              (fun md item => set_materialDefinitions md
                                (material_definition_effect (_materialDefinitions md) item))
              ltac:(intros ? ? ? [? ?]; by apply material_definition_step)
              ltac:(intros ? ? ? ? ? H; exact H) ids2 ds2 s1) as [p Hp].
  { eapply Forall2_impl; [exact Hall2|]. by intros. }
  change (forM_ ids2 _) with (forM_ ids2 material_definition_body).
  exists p. rewrite Hp.
  rewrite (fold_field _materialDefinitions set_materialDefinitions
             material_definition_effect); [reflexivity | done | done | by intros []].
Qed.

End Passes.

(** ** X13: the voids pass *)

(** X13.  Let [ids] be the handles of the IFCRELVOIDSELEMENT lines, each
    line holding REFs at its arguments 4 and 5.  Then [PopulateRelVoidsMap]
    returns, and [_relVoids] is what it was with, line after line, the
    handle at argument 5 (the opening) appended to the entry of the handle
    at argument 4 (the building element); nothing else of the metadata
    changes. *)
Theorem PopulateRelVoidsMap_pairs (sch : Schema) (s : IfcLoader)
    (ids : list Z) (ds : list (Z * Z)) :
  Loader.GetExpressIDsWithType (IFCRELVOIDSELEMENT sch) s = Ok (ids, s) ->
  Forall2 (rel_voids_line (tape_data (_tape s)) (_metaData s)) ids ds ->
  exists p,
    Loader.PopulateRelVoidsMap sch s
    = Ok (tt, with_meta (at_cursor s p)
                (set_relVoids (_metaData s)
                   (fold_left rel_voids_effect (zip ids ds) (_relVoids (_metaData s))))).
Proof.
  intros Hids Hall. unfold Loader.PopulateRelVoidsMap.
  rewrite (bind_Ok _ _ _ _ _ Hids). by apply rel_voids_loop.
Qed.

(** ** X14: the aggregates pass *)

(** X14.  On a tape shorter than 4 GB, let [ids] be the handles of the
    IFCRELAGGREGATES lines, each line holding a REF at its argument 4 and a
    set of REFs at its argument 5.  Then [PopulateRelAggregatesMap] returns,
    and [_relAggregates] is what it was with, line after line and part
    after part, the handles of the set appended to the entry of the handle
    at argument 4; nothing else of the metadata changes. *)
Theorem PopulateRelAggregatesMap_parts (sch : Schema) (s : IfcLoader)
    (ids : list Z) (ds : list (Z * list Z)) :
  Z.of_nat (length (tape_data (_tape s))) < 2 ^ 32 ->
  Loader.GetExpressIDsWithType (IFCRELAGGREGATES sch) s = Ok (ids, s) ->
  Forall2 (rel_aggregates_line (tape_data (_tape s)) (_metaData s)) ids ds ->
  exists p,
    Loader.PopulateRelAggregatesMap sch s
    = Ok (tt, with_meta (at_cursor s p)
                (set_relAggregates (_metaData s)
                   (fold_left rel_aggregates_effect (zip ids ds)
                      (_relAggregates (_metaData s))))).
Proof.
  intros Hlen Hids Hall. unfold Loader.PopulateRelAggregatesMap.
  rewrite (bind_Ok _ _ _ _ _ Hids). by apply rel_aggregates_loop.
Qed.

(** ** X15: the materials pass *)

(** X15.  On a tape shorter than 4 GB, let [ids1] be the handles of the
    IFCRELASSOCIATESMATERIAL lines, each holding a set of REFs (the objects)
    at argument 4 and a REF (the material) at argument 5, and [ids2] those
    of the IFCMATERIALDEFINITIONREPRESENTATION lines, each holding a set of
    REFs (the representations) at argument 2 and a REF (the material) at
    argument 3.  Then [PopulateRelMaterialsMap] returns; [_relMaterials]
    gains, for each object of each line, the pair (line handle, material)
    in the entry of the object, and [_materialDefinitions] gains, for each
    representation of each line, the pair (line handle, representation) in
    the entry of the material; nothing else of the metadata changes. *)
Theorem PopulateRelMaterialsMap_pairs (sch : Schema) (s : IfcLoader)
    (ids1 : list Z) (ds1 : list (list Z * Z)) (ids2 : list Z) (ds2 : list (list Z * Z)) :
  Z.of_nat (length (tape_data (_tape s))) < 2 ^ 32 ->
  Loader.GetExpressIDsWithType (IFCRELASSOCIATESMATERIAL sch) s = Ok (ids1, s) ->
  Loader.GetExpressIDsWithType (IFCMATERIALDEFINITIONREPRESENTATION sch) s = Ok (ids2, s) ->
  Forall2 (rel_material_line (tape_data (_tape s)) (_metaData s)) ids1 ds1 ->
  Forall2 (material_definition_line (tape_data (_tape s)) (_metaData s)) ids2 ds2 ->
  exists p,
    Loader.PopulateRelMaterialsMap sch s
    = Ok (tt, with_meta (at_cursor s p)
                (set_materialDefinitions
                   (set_relMaterials (_metaData s)
                      (fold_left rel_material_effect (zip ids1 ds1)
                         (_relMaterials (_metaData s))))
                   (fold_left material_definition_effect (zip ids2 ds2)
                      (_materialDefinitions (_metaData s))))).
Proof. apply rel_materials_loops. Qed.

(** The lines of the relationship sample. *)
Lemma rel_sample_voids :
  rel_voids_line RelSamples.rel_tape (_metaData RelSamples.rel_loader) 5 (1, 2).
Proof.
  eexists _, (RelSamples.rel_pre 5 "IFCRELVOIDSELEMENT"), RelSamples.voids_args.
  split; [reflexivity|]. split.
  { split; [simpl; lia|]. split; [reflexivity|].
    by exists (tag_of LINE_END
      :: Samples.encode_line 6 "IFCRELAGGREGATES" RelSamples.aggregates_args
      ++ Samples.encode_line 7 "IFCRELASSOCIATESMATERIAL" RelSamples.material_args
      ++ Samples.encode_line 8 "IFCMATERIALDEFINITIONREPRESENTATION"
           RelSamples.definition_args). }
  repeat split; try reflexivity; cbn; lia.
Qed.

Lemma rel_sample_aggregates :
  rel_aggregates_line RelSamples.rel_tape (_metaData RelSamples.rel_loader) 6 (1, [2; 3]).
Proof.
  eexists _, (RelSamples.rel_pre 6 "IFCRELAGGREGATES"), RelSamples.aggregates_args.
  split; [reflexivity|]. split.
  { split; [simpl; lia|]. split; [reflexivity|].
    by exists (tag_of LINE_END
      :: Samples.encode_line 7 "IFCRELASSOCIATESMATERIAL" RelSamples.material_args
      ++ Samples.encode_line 8 "IFCMATERIALDEFINITIONREPRESENTATION"
           RelSamples.definition_args). }
  split; [reflexivity|]. split; [reflexivity|].
  split; [unfold is_u32; cbn; lia|].
  split; [repeat constructor; unfold is_u32; lia | reflexivity].
Qed.

Lemma rel_sample_material :
  rel_material_line RelSamples.rel_tape (_metaData RelSamples.rel_loader) 7 ([1; 3], 4).
Proof.
  eexists _, (RelSamples.rel_pre 7 "IFCRELASSOCIATESMATERIAL"), RelSamples.material_args.
  split; [reflexivity|]. split.
  { split; [simpl; lia|]. split; [reflexivity|].
    by exists (tag_of LINE_END
      :: Samples.encode_line 8 "IFCMATERIALDEFINITIONREPRESENTATION"
           RelSamples.definition_args). }
  split; [reflexivity|]. split; [reflexivity|].
  split; [repeat constructor; unfold is_u32; lia|].
  split; [unfold is_u32; cbn; lia | reflexivity].
Qed.

Lemma rel_sample_definition :
  material_definition_line RelSamples.rel_tape (_metaData RelSamples.rel_loader) 8
    ([9; 10], 4).
Proof.
  eexists _, (RelSamples.rel_pre 8 "IFCMATERIALDEFINITIONREPRESENTATION"),
    RelSamples.definition_args.
  split; [reflexivity|]. split.
  { split; [simpl; lia|]. split; [reflexivity|]. by exists [tag_of LINE_END]. }
  split; [reflexivity|]. split; [reflexivity|].
  split; [repeat constructor; unfold is_u32; lia|].
  split; [unfold is_u32; cbn; lia | reflexivity].
Qed.

Lemma rel_sample_small : Z.of_nat (length RelSamples.rel_tape) < 2 ^ 32.
Proof. vm_compute. reflexivity. Qed.

Lemma PopulateRelVoidsMap_pairs_witness :
  exists p,
    Loader.PopulateRelVoidsMap Samples.schema RelSamples.rel_loader
    = Ok (tt, with_meta (at_cursor RelSamples.rel_loader p)
                (set_relVoids (_metaData RelSamples.rel_loader) {[ 1 := [2] ]})).
Proof.
  apply (PopulateRelVoidsMap_pairs Samples.schema RelSamples.rel_loader [5] [(1, 2)]).
  - reflexivity.
  - constructor; [exact rel_sample_voids | constructor].
Defined.

Lemma PopulateRelAggregatesMap_parts_witness :
  exists p,
    Loader.PopulateRelAggregatesMap Samples.schema RelSamples.rel_loader
    = Ok (tt, with_meta (at_cursor RelSamples.rel_loader p)
                (set_relAggregates (_metaData RelSamples.rel_loader) {[ 1 := [2; 3] ]})).
Proof.
  apply (PopulateRelAggregatesMap_parts Samples.schema RelSamples.rel_loader
           [6] [(1, [2; 3])]).
  - exact rel_sample_small.
  - reflexivity.
  - constructor; [exact rel_sample_aggregates | constructor].
Defined.

Lemma PopulateRelMaterialsMap_pairs_witness :
  exists p,
    Loader.PopulateRelMaterialsMap Samples.schema RelSamples.rel_loader
    = Ok (tt, with_meta (at_cursor RelSamples.rel_loader p)
                (set_materialDefinitions
                   (set_relMaterials (_metaData RelSamples.rel_loader)
                      {[ 1 := [(7, 4)]; 3 := [(7, 4)] ]})
                   {[ 4 := [(8, 9); (8, 10)] ]})).
Proof.
  apply (PopulateRelMaterialsMap_pairs Samples.schema RelSamples.rel_loader
           [7] [([1; 3], 4)] [8] [([9; 10], 4)]).
  - exact rel_sample_small.
  - reflexivity.
  - reflexivity.
  - constructor; [exact rel_sample_material | constructor].
  - constructor; [exact rel_sample_definition | constructor].
Defined.

(** ** The text of [DumpAsIFC] *)

Section DumpText.
Import Loader.
Variable show_double : Z -> Z -> string.

Lemma string_app_assoc (a b c : string) : ((a +:+ b) +:+ c = a +:+ b +:+ c)%string.
Proof.
  induction a as [|x a IH]; [reflexivity|].
  change (String x ((a +:+ b) +:+ c) = String x (a +:+ b +:+ c))%string. by f_equal.
Qed.

Lemma string_app_nil_r (a : string) : (a +:+ "" = a)%string.
Proof.
  induction a as [|x a IH]; [reflexivity|].
  change (String x (a +:+ "") = String x a)%string. by f_equal.
Qed.

Lemma extends_refl file : extends file file.
Proof. exists ""%string. by rewrite string_app_nil_r. Qed.

Lemma extends_app file more file' : extends (file +:+ more) file' -> extends file file'.
Proof. intros [m ->]. exists (more +:+ m)%string. by rewrite string_app_assoc. Qed.

Lemma extends_trans a b c : extends a b -> extends b c -> extends a c.
Proof. intros [m ->] Hc. by eapply extends_app. Qed.

Lemma Read_bytes_data n t bs t' :
  Read_bytes n t = Ok (bs, t') -> tape_data t' = tape_data t.
Proof. unfold Read_bytes. destruct (decide _); [|done]. by intros [= _ <-]. Qed.

Lemma Read_le_data n t v t' :
  (let* bs := Read_bytes n in ret (le_decode bs)) t = Ok (v, t') ->
  tape_data t' = tape_data t.
Proof.
  unfold bind, ret. destruct (Read_bytes n t) as [[bs t1]|] eqn:E; [|done].
  intros [= _ <-]. by eapply Read_bytes_data.
Qed.

Lemma ReadStringView_data t v t' :
  ReadStringView t = Ok (v, t') -> tape_data t' = tape_data t.
Proof.
  unfold ReadStringView. unfold bind at 1.
  destruct (Read_uint8 t) as [[len t1]|] eqn:E; [|done].
  intros H. apply Read_bytes_data in H. apply Read_le_data in E. congruence.
Qed.

(** The token loop only adds text, and leaves the bytes of the tape. *)
Lemma DumpAsIFC_tokens_extends fuel precision :
  forall file newLine insideSet prev t file' t',
    DumpAsIFC_tokens show_double fuel precision file newLine insideSet prev t
      = Ok (file', t') ->
    extends file file' /\ tape_data t' = tape_data t.
Proof.
  induction fuel as [|fuel IH]; intros file newLine insideSet prev t file' t'; [done|].
  cbn [DumpAsIFC_tokens]. unfold bind at 1, tape_AtEnd.
  destruct (bool_decide _).
  { intros [= <- <-]. split; [apply extends_refl | done]. }
  unfold bind at 1. destruct (Read_char t) as [[c t1]|] eqn:Ec; [|done].
  apply Read_le_data in Ec.
  match goal with
  | |- context [if ?b then (file +:+ ",")%string else file] =>
      set (file1 := if b then (file +:+ ",")%string else file);
      assert (H1 : extends file file1)
        by (unfold file1; destruct b; [by exists ","%string | apply extends_refl])
  end.
  destruct (c =? tag_of LINE_END).
  { intros [= <- <-]. split; [|done]. eapply extends_trans; [exact H1|]. by eexists. }
  assert (Hnext : forall more ns ins,
            DumpAsIFC_tokens show_double fuel precision (file1 +:+ more) ns ins c t1
              = Ok (file', t') ->
            extends file file' /\ tape_data t' = tape_data t).
  { intros more ns ins H. apply IH in H as [He Hd]. split; [|congruence].
    eapply extends_trans; [exact H1|]. by eapply extends_app. }
  assert (Hsame : forall ns ins,
            DumpAsIFC_tokens show_double fuel precision file1 ns ins c t1 = Ok (file', t') ->
            extends file file' /\ tape_data t' = tape_data t).
  { intros ns ins H. apply IH in H as [He Hd]. split; [|congruence].
    by eapply extends_trans. }
  assert (Hread : forall more ns ins t2,
            tape_data t2 = tape_data t1 ->
            DumpAsIFC_tokens show_double fuel precision (file1 +:+ more) ns ins c t2
              = Ok (file', t') ->
            extends file file' /\ tape_data t' = tape_data t).
  { intros more ns ins t2 H2 H. apply IH in H as [He Hd]. split; [|congruence].
    eapply extends_trans; [exact H1|]. by eapply extends_app. }
  destruct (tokenType c) as [[]|]; try (by apply Hnext); try (by apply Hsame).
  - unfold bind at 1. destruct (ReadStringView t1) as [[v t2]|] eqn:E; [|done].
    apply ReadStringView_data in E. by apply Hread.
  - unfold bind at 1. destruct (ReadStringView t1) as [[v t2]|] eqn:E; [|done].
    apply ReadStringView_data in E. by apply Hread.
  - unfold bind at 1. destruct (ReadStringView t1) as [[v t2]|] eqn:E; [|done].
    apply ReadStringView_data in E. by apply Hread.
  - unfold bind at 1. destruct (Read_double t1) as [[v t2]|] eqn:E; [|done].
    apply Read_le_data in E. by apply Hread.
  - unfold bind at 1. destruct (Read_uint32 t1) as [[v t2]|] eqn:E; [|done].
    apply Read_le_data in E. destruct newLine; rewrite ?string_app_assoc; by apply Hread.
Qed.

Lemma DumpAsIFC_lines_extends precision ls :
  forall file t file' t',
    DumpAsIFC_lines show_double precision ls file t = Ok (file', t') ->
    extends file file' /\ tape_data t' = tape_data t.
Proof.
  induction ls as [|l ls IH]; intros file t file' t'; cbn [DumpAsIFC_lines].
  - intros [= <- <-]. split; [apply extends_refl | done].
  - unfold bind at 1, tape_MoveTo. unfold bind at 1, get. unfold bind at 1.
    destruct (DumpAsIFC_tokens _ _ _ _ _ _ _ _) as [[file1 t1]|] eqn:E; [|done].
    apply DumpAsIFC_tokens_extends in E as [He Hd]. cbn [tape_at tape_data] in Hd.
    intros H. apply IH in H as [He' Hd']. split; [by eapply extends_trans | congruence].
Qed.

Lemma DumpAsIFC_framed s text s' :
  DumpAsIFC show_double s = Ok (text, s') ->
  exists body,
    text = (dump_header +:+ body +:+ dump_footer)%string
    /\ _metaData s' = _metaData s
    /\ tape_data (_tape s') = tape_data (_tape s).
Proof.
  unfold DumpAsIFC. cbv zeta. unfold bind at 1, get_meta. unfold bind at 1, on_tape.
  destruct (DumpAsIFC_lines _ _ _ _ _) as [[file1 t1]|] eqn:E; [|done].
  apply DumpAsIFC_lines_extends in E as [[body ->] Hd].
  unfold ret. intros [= <- <-]. exists body. split; [|by destruct s].
  change ("" +:+ ?x)%string with x.
  rewrite !string_app_assoc. reflexivity.
Qed.

Lemma DumpAsIFC_no_lines s :
  lines (_metaData s) = [] ->
  DumpAsIFC show_double s = Ok ((dump_header +:+ dump_footer)%string, s).
Proof.
  intros Hl. unfold DumpAsIFC. cbv zeta. unfold bind at 1, get_meta. rewrite Hl.
  unfold bind at 1, on_tape. cbn [DumpAsIFC_lines]. unfold ret.
  by destruct s as [? [] ? ?].
Qed.

End DumpText.

(** ** X16: the frame of the text of [DumpAsIFC] *)

(** X16.  Whatever the model holds, the text [DumpAsIFC] returns is the
    same seven header lines, then the text of the lines, then [ENDSEC;] and
    [END-ISO-10303-21;]; the call leaves the metadata and the bytes of the
    tape as they were (it moves the cursor).  For a model without lines the
    text is the header and the footer alone.  The third header line is
    [FILE_DESCRIPTION(('no description), '2;1');]: its first string is
    never closed by a quote. *)
Theorem DumpAsIFC_text_frame (show_double : Z -> Z -> string) (s : IfcLoader) :
  (lines (_metaData s) = [] ->
   Loader.DumpAsIFC show_double s = Ok ((dump_header +:+ dump_footer)%string, s))
  /\ (forall text s',
        Loader.DumpAsIFC show_double s = Ok (text, s') ->
        exists body,
          text = (dump_header +:+ body +:+ dump_footer)%string
          /\ _metaData s' = _metaData s
          /\ tape_data (_tape s') = tape_data (_tape s))
  /\ StepText.split_lines (dump_header +:+ dump_footer) = StepText.empty_dump_lines
  /\ map StepText.quotes_closed StepText.empty_dump_lines
     = [true; true; false; true; true; true; true; true; true].
Proof.
  split; [apply DumpAsIFC_no_lines|]. split; [apply DumpAsIFC_framed|].
  split; vm_compute; reflexivity.
Qed.

Lemma DumpAsIFC_text_frame_witness :
  Loader.DumpAsIFC Samples.no_doubles (new_loader default_settings)
  = Ok ((dump_header +:+ dump_footer)%string, new_loader default_settings).
Proof.
  apply (proj1 (DumpAsIFC_text_frame Samples.no_doubles (new_loader default_settings))).
  reflexivity.
Defined.

(** ** [DumpAsIFC] on lines as the write path lays them out *)

Section DumpLines.
Import Loader.
Variable show_double : Z -> Z -> string.
Variable precision : Z.

Lemma render_arg_set prev xs :
  render_arg show_double precision prev (ASet xs)
  = (comma_after prev +:+ "(" +:+ render_args show_double precision (tag_of SET_BEGIN) xs +:+ ")")%string.
Proof. reflexivity. Qed.

Lemma not_at_end data p c post :
  drop p data = c :: post -> bool_decide (length data <= readPtr (mkTape data p))%nat = false.
Proof.
  intros H. apply bool_decide_eq_false. cbn [readPtr]. intros Hle.
  rewrite drop_ge in H by done. discriminate.
Qed.

(** One token is read. *)
Lemma tokens_read fuel file newLine insideSet prev data p c post :
  drop p data = c :: post ->
  DumpAsIFC_tokens show_double (S fuel) precision file newLine insideSet prev (mkTape data p)
  = (let file :=
       if negb (c =? tag_of SET_END) && negb (c =? tag_of LINE_END)
          && insideSet && negb (prev =? tag_of SET_BEGIN)
          && negb (prev =? tag_of LABEL) && negb (prev =? tag_of LINE_END)
       then (file +:+ ",")%string else file in
     if c =? tag_of LINE_END then ret (file +:+ ";" +:+ endl)%string
     else
       let next (file : string) (insideSet : bool) :=
         DumpAsIFC_tokens show_double fuel precision file false insideSet c in
       match tokenType c with
       | Some UNKNOWN => next (file +:+ "*")%string insideSet
       | Some EMPTY => next (file +:+ "$")%string insideSet
       | Some SET_BEGIN => next (file +:+ "(")%string true
       | Some SET_END => next (file +:+ ")")%string insideSet
       | Some STRING =>
           let* view := ReadStringView in
           next (file +:+ "'" +:+ string_of_bytes view +:+ "'")%string insideSet
       | Some ENUM =>
           let* view := ReadStringView in
           next (file +:+ "." +:+ string_of_bytes view +:+ ".")%string insideSet
       | Some LABEL =>
           let* view := ReadStringView in
           next (file +:+ string_of_bytes view)%string insideSet
       | Some REF =>
           let* ref := Read_uint32 in
           let file := (file +:+ "#" +:+ show_uint32 ref)%string in
           next (if newLine then (file +:+ "=")%string else file) insideSet
       | Some REAL =>
           let* d := Read_double in
           next (file +:+ show_double precision d)%string insideSet
       | _ => next file insideSet
       end) (mkTape data (p + 1)).
Proof.
  intros H. cbn [DumpAsIFC_tokens]. unfold bind at 1, tape_AtEnd. cbn [tape_data].
  rewrite (not_at_end _ _ _ _ H).
  by rewrite (bind_Ok _ _ _ _ _ (Read_char_ok _ _ _ _ H)).
Qed.

Lemma comma_file (b : bool) (file more : string) :
  ((if b then file +:+ "," else file) +:+ more
   = file +:+ (if b then "," else "") +:+ more)%string.
Proof. destruct b; [by rewrite string_app_assoc | done]. Qed.

(** An argument that is not a set, inside a set: its text is added. *)
Lemma tokens_leaf a fuel file prev data p post :
  is_set a = false -> arg_wf a = true ->
  drop p data = encode_arg a ++ post ->
  DumpAsIFC_tokens show_double (S fuel) precision file false true prev (mkTape data p)
  = DumpAsIFC_tokens show_double fuel precision (file +:+ render_arg show_double precision prev a) false true (last_tag a)
      (mkTape data (p + length (encode_arg a))).
Proof.
  intros Hset Hwf Hdrop.
  destruct a as [ | | s | s | s | b | h | xs]; try discriminate;
    cbn [encode_arg] in Hdrop;
    rewrite (tokens_read _ _ _ _ _ _ _ _ _ Hdrop);
    apply (drop_prefix_skip data p [_]) in Hdrop; cbn [length] in Hdrop;
    cbv beta zeta;
    cbn [tokenType tag_of Z.eqb Pos.eqb negb andb last_tag encode_arg hd render_arg arg_wf]
      in *;
    fold (comma_after prev); unfold comma_after;
    rewrite ?comma_file.
  - do 2 f_equal.
  - do 2 f_equal.
  - apply Z.ltb_lt in Hwf.
    rewrite (bind_Ok _ _ _ _ _ (ReadStringView_ok _ _ _ _ Hwf Hdrop)).
    rewrite comma_file. do 2 f_equal. cbn [length]. lia.
  - apply Z.ltb_lt in Hwf.
    rewrite (bind_Ok _ _ _ _ _ (ReadStringView_ok _ _ _ _ Hwf Hdrop)).
    rewrite comma_file. do 2 f_equal. cbn [length]. lia.
  - apply Z.ltb_lt in Hwf.
    rewrite (bind_Ok _ _ _ _ _ (ReadStringView_ok _ _ _ _ Hwf Hdrop)).
    rewrite comma_file. do 2 f_equal. cbn [length]. lia.
  - apply andb_true_iff in Hwf as [H0 H1]. apply Z.leb_le in H0. apply Z.ltb_lt in H1.
    rewrite (bind_Ok _ _ _ _ _ (Read_double_ok _ _ _ _ (conj H0 H1) Hdrop)).
    rewrite comma_file. do 2 f_equal. cbn [length]. rewrite le_encode_length. lia.
  - apply andb_true_iff in Hwf as [H0 H1]. apply Z.leb_le in H0. apply Z.ltb_lt in H1.
    rewrite (bind_Ok _ _ _ _ _ (Read_uint32_ok _ _ _ _ (conj H0 H1) Hdrop)).
    rewrite comma_file. do 2 f_equal. cbn [length]. rewrite le_encode_length. lia.
Qed.

(** Brackets. *)
Lemma tokens_set_begin fuel file newLine insideSet prev data p post :
  drop p data = tag_of SET_BEGIN :: post ->
  DumpAsIFC_tokens show_double (S fuel) precision file newLine insideSet prev (mkTape data p)
  = DumpAsIFC_tokens show_double fuel precision
      (file +:+ (if insideSet then comma_after prev else "") +:+ "(")%string
      false true (tag_of SET_BEGIN) (mkTape data (p + 1)).
Proof.
  intros Hdrop. rewrite (tokens_read _ _ _ _ _ _ _ _ _ Hdrop). cbv beta zeta.
  cbn [tokenType tag_of Z.eqb Pos.eqb negb andb].
  rewrite comma_file. unfold comma_after. by destruct insideSet.
Qed.

Lemma tokens_set_end fuel file newLine insideSet prev data p post :
  drop p data = tag_of SET_END :: post ->
  DumpAsIFC_tokens show_double (S fuel) precision file newLine insideSet prev (mkTape data p)
  = DumpAsIFC_tokens show_double fuel precision (file +:+ ")")%string
      false insideSet (tag_of SET_END) (mkTape data (p + 1)).
Proof.
  intros Hdrop. by rewrite (tokens_read _ _ _ _ _ _ _ _ _ Hdrop).
Qed.

Lemma tokens_line_end fuel file newLine insideSet prev data p post :
  drop p data = tag_of LINE_END :: post ->
  DumpAsIFC_tokens show_double (S fuel) precision file newLine insideSet prev (mkTape data p)
  = Ok ((file +:+ ";" +:+ endl)%string, mkTape data (p + 1)).
Proof.
  intros Hdrop. rewrite (tokens_read _ _ _ _ _ _ _ _ _ Hdrop). cbv beta zeta.
  by cbn [tokenType tag_of Z.eqb Pos.eqb negb andb].
Qed.

Lemma default_last_cons {A : Type} (d a : A) (l : list A) :
  default d (last (a :: l)) = default a (last l).
Proof.
  revert d a. induction l as [|b l IH]; intros d a; [done|].
  change (last (a :: b :: l)) with (last (b :: l)). by rewrite (IH d b), (IH a b).
Qed.

Lemma dumps_list xs :
  Forall (dumps show_double precision) xs ->
  forallb arg_wf xs = true ->
  forall fuel file prev data p post,
    drop p data = encode_args xs ++ post ->
    DumpAsIFC_tokens show_double (ntoks xs + fuel) precision file false true prev
      (mkTape data p)
    = DumpAsIFC_tokens show_double fuel precision
        (file +:+ render_args show_double precision prev xs) false true
        (default prev (last (map last_tag xs)))
        (mkTape data (p + length (encode_args xs))).
Proof.
  unfold ntoks, encode_args.
  induction 1 as [|x xs Hx _ IH]; intros Hwf fuel file prev data p post Hdrop.
  - cbn. rewrite string_app_nil_r. do 2 f_equal. lia.
  - cbn [forallb] in Hwf. apply andb_true_iff in Hwf as [Hwx Hwxs].
    cbn [map list_sum fold_right flat_map render_args] in *.
    rewrite <- app_assoc in Hdrop. rewrite <- Nat.add_assoc.
    rewrite (Hx Hwx _ _ _ _ _ _ Hdrop).
    apply drop_prefix_skip in Hdrop.
    rewrite (IH Hwxs _ _ _ _ _ _ Hdrop).
    rewrite string_app_assoc, length_app, Nat.add_assoc.
    by rewrite (default_last_cons prev).
Qed.

Lemma tokens_arg a : dumps show_double precision a.
Proof.
  unfold dumps.
  induction a as [ | | s | s | s | b | h | xs IH] using Arg_ind_nested;
    intros Hwf fuel file prev data p post Hdrop;
    try (cbn [ntok Nat.add];
         match type of Hdrop with
         | drop _ _ = encode_arg ?a ++ _ =>
             by rewrite (tokens_leaf a _ _ _ _ _ _ eq_refl Hwf Hdrop)
         end).
  rewrite arg_wf_set in Hwf. rewrite encode_set_layout in Hdrop.
  rewrite encode_set_length, render_arg_set. cbn [ntok Nat.add last_tag].
  rewrite (tokens_set_begin _ _ _ _ _ _ _ _ Hdrop).
  apply (drop_prefix_skip data p [_]) in Hdrop. cbn [length] in Hdrop.
  replace (S (list_sum (map ntok xs) + fuel))%nat with (ntoks xs + S fuel)%nat
    by (unfold ntoks; lia).
  rewrite (dumps_list xs IH Hwf _ _ _ _ _ _ Hdrop).
  apply drop_prefix_skip in Hdrop.
  rewrite (tokens_set_end _ _ _ _ _ _ _ _ Hdrop).
  rewrite !string_app_assoc. do 2 f_equal. lia.
Qed.

Lemma tokens_args xs :
  forallb arg_wf xs = true ->
  forall fuel file prev data p post,
    drop p data = encode_args xs ++ post ->
    DumpAsIFC_tokens show_double (ntoks xs + fuel) precision file false true prev
      (mkTape data p)
    = DumpAsIFC_tokens show_double fuel precision
        (file +:+ render_args show_double precision prev xs) false true
        (default prev (last (map last_tag xs)))
        (mkTape data (p + length (encode_args xs))).
Proof.
  apply dumps_list. apply Forall_forall. intros a _. apply tokens_arg.
Qed.

(** One written line, from its REF to its LINE_END. *)
Lemma tokens_written_line w file data p post :
  written_wf w = true ->
  drop p data = encode_written w ++ post ->
  DumpAsIFC_tokens show_double (S (length data)) precision file true false (tag_of EMPTY)
    (mkTape data p)
  = Ok ((file +:+ render_line show_double precision w)%string,
        mkTape data (p + length (encode_written w))).
Proof.
  destruct w as [id name args]. unfold written_wf, encode_written, render_line.
  cbn [written_id written_name written_args arg_wf].
  intros Hwf Hdrop.
  apply andb_true_iff in Hwf as [Hwf Hargs]. apply andb_true_iff in Hwf as [Hid Hname].
  apply andb_true_iff in Hid as [H0 H1]. apply Z.leb_le in H0. apply Z.ltb_lt in H1.
  apply Z.ltb_lt in Hname.
  pose proof (drop_prefix_bound _ _ _ _ Hdrop) as Hlen.
  rewrite !length_app, encode_set_length in Hlen. cbn [encode_arg length] in Hlen.
  rewrite le_encode_length in Hlen.
  pose proof (ntoks_le_length args) as Hn.
  replace (S (length data))
    with (S (S (S (ntoks args + S (S (length data - 4 - ntoks args)))))) by lia.
  (* the REF of the handle *)
  cbn [encode_arg] in Hdrop. rewrite <- !app_assoc in Hdrop. cbn [app] in Hdrop.
  rewrite (tokens_read _ _ _ _ _ _ _ _ _ Hdrop). cbv beta zeta.
  cbn [tokenType tag_of Z.eqb Pos.eqb negb andb].
  apply (drop_prefix_skip data p [_]) in Hdrop. cbn [length] in Hdrop.
  rewrite (bind_Ok _ _ _ _ _ (Read_uint32_ok _ _ _ _ (conj H0 H1) Hdrop)).
  apply drop_prefix_skip in Hdrop. rewrite le_encode_length in Hdrop.
  (* the LABEL of the type name *)
  rewrite (tokens_read _ _ _ _ _ _ _ _ _ Hdrop). cbv beta zeta.
  cbn [tokenType tag_of Z.eqb Pos.eqb negb andb].
  apply (drop_prefix_skip data _ [_]) in Hdrop. cbn [length] in Hdrop.
  rewrite (bind_Ok _ _ _ _ _ (ReadStringView_ok _ _ _ _ Hname Hdrop)).
  apply (drop_prefix_skip data _ (_ :: name)) in Hdrop. cbn [length] in Hdrop.
  replace (p + 1 + 4 + 1 + S (length name))%nat
    with (p + 1 + 4 + 1 + 1 + length name)%nat in Hdrop by lia.
  (* the argument list *)
  rewrite <- app_assoc in Hdrop. cbn [app] in Hdrop.
  change (flat_map encode_arg args) with (encode_args args) in Hdrop.
  rewrite (tokens_set_begin _ _ _ _ _ _ _ _ Hdrop).
  apply (drop_prefix_skip data _ [_]) in Hdrop. cbn [length] in Hdrop.
  rewrite (tokens_args args Hargs _ _ _ _ _ _ Hdrop).
  apply drop_prefix_skip in Hdrop.
  rewrite (tokens_set_end _ _ _ _ _ _ _ _ Hdrop).
  apply (drop_prefix_skip data _ [_]) in Hdrop. cbn [length] in Hdrop.
  rewrite (tokens_line_end _ _ _ _ _ _ _ _ Hdrop).
  rewrite !string_app_assoc. change ("" +:+ ?x)%string with x.
  do 3 f_equal. rewrite !length_app, encode_set_length. cbn [encode_arg length].
  rewrite le_encode_length. lia.
Qed.

Lemma DumpAsIFC_lines_written :
  forall ls ws file t,
    Forall2 (line_written_at (tape_data t)) ls ws ->
    exists p,
      DumpAsIFC_lines show_double precision ls file t
      = Ok ((file +:+ render_lines show_double precision ws)%string, mkTape (tape_data t) p).
Proof.
  induction ls as [|l ls IH]; intros ws file t Hall.
  - inversion Hall; subst. exists (readPtr t). cbn [DumpAsIFC_lines render_lines].
    rewrite string_app_nil_r. unfold ret. by destruct t.
  - inversion Hall as [|? w ? ws' (Hoff & Hwf & post & Hdrop) Hws]; subst.
    cbn [DumpAsIFC_lines render_lines].
    unfold bind at 1, tape_MoveTo. unfold bind at 1, get. unfold tape_fuel, tape_at.
    cbn [tape_data].
    rewrite (bind_Ok _ _ _ _ _ (tokens_written_line w file _ _ post Hwf Hdrop)).
    destruct (IH ws' (file +:+ render_line show_double precision w)%string
                (mkTape (tape_data t) (Z.to_nat (tapeOffset l) + length (encode_written w)))
                Hws) as [p Hp].
    exists p. rewrite Hp. by rewrite string_app_assoc.
Qed.

End DumpLines.

(** ** X17: the text of written lines *)

(** X17.  On a model whose line records each start at a line laid out as
    the write path lays it out (the REF of the handle, the LABEL of the type
    name, the argument list, LINE_END), [DumpAsIFC] returns the header, then
    for each record in the order of the line table the text
    [#handle=NAME(arguments);] and a line break, then the footer.  Inside
    the argument list, at every depth, a comma stands between two
    arguments unless the first of them is a LABEL; strings are put between
    quotes as they are, enumerations between dots. *)
Theorem DumpAsIFC_written_lines (show_double : Z -> Z -> string) (s : IfcLoader)
    (ws : list WrittenLine) :
  Forall2 (line_written_at (tape_data (_tape s))) (lines (_metaData s)) ws ->
  exists p,
    Loader.DumpAsIFC show_double s
    = Ok ((dump_header +:+ render_lines show_double Loader.dump_precision ws
           +:+ dump_footer)%string,
          at_cursor s p).
Proof.
  intros Hall.
  destruct (DumpAsIFC_lines_written show_double Loader.dump_precision
              (lines (_metaData s)) ws dump_header (_tape s) Hall) as [p Hp].
  exists p.
  change (Loader.DumpAsIFC show_double s)
    with ((let* md := get_meta in
           let* file := on_tape (Loader.DumpAsIFC_lines show_double Loader.dump_precision
                                   (lines md) dump_header) in
           ret (file +:+ dump_footer)%string) s).
  unfold bind at 1, get_meta. unfold bind at 1, on_tape.
  rewrite Hp. unfold ret. by rewrite string_app_assoc.
Qed.

Lemma DumpAsIFC_written_lines_witness :
  StepText.split_lines
    (render_lines Samples.no_doubles Loader.dump_precision styled_written)
  = [ "#10=IFCEXTRUDEDAREASOLID($);"; "#20=IFCSTYLEDITEM(#10,(#30,#31),$);";
      "#21=IFCSTYLEDITEM($,(#32),$);"; "" ]%string
  /\ exists p,
    Loader.DumpAsIFC Samples.no_doubles Samples.styled_loader
    = Ok ((dump_header
           +:+ render_lines Samples.no_doubles Loader.dump_precision styled_written
           +:+ dump_footer)%string,
          at_cursor Samples.styled_loader p).
Proof.
  split; [vm_compute; reflexivity|].
  apply (DumpAsIFC_written_lines Samples.no_doubles Samples.styled_loader styled_written).
  constructor; [|constructor; [|constructor; [|constructor]]].
  - split; [simpl; lia|]. split; [reflexivity|].
    by exists (Samples.encode_line 20 "IFCSTYLEDITEM" Samples.styled_args_20
               ++ Samples.encode_line 21 "IFCSTYLEDITEM" Samples.styled_args_21).
  - split; [simpl; lia|]. split; [reflexivity|].
    by exists (Samples.encode_line 21 "IFCSTYLEDITEM" Samples.styled_args_21).
  - split; [simpl; lia|]. split; [reflexivity|]. by exists [].
Defined.

(** ** X18: no project, or several *)

(** X18.  On a model whose type index is consistent, when the number of
    IFCPROJECT lines is not exactly one, [ReadLinearScalingFactor] returns
    at once and changes nothing: the scaling factor stays what it was. *)
Theorem ReadLinearScalingFactor_without_single_project (sch : Schema) (s : IfcLoader) :
  type_index_ok (_metaData s) ->
  length (List.filter (fun l => ifcType l =? IFCPROJECT sch) (lines (_metaData s))) <> 1%nat ->
  Loader.ReadLinearScalingFactor sch s = Ok (tt, s).
Proof.
  intros Hok Hn. unfold Loader.ReadLinearScalingFactor.
  assert (Hget : Loader.GetExpressIDsWithType (IFCPROJECT sch) s
                 = Ok (map expressID
                         (List.filter (fun l => ifcType l =? IFCPROJECT sch)
                            (lines (_metaData s))), s)).
  { unfold Loader.GetExpressIDsWithType, bind, get. rewrite (Hok (IFCPROJECT sch)).
    exact (transform_expressID_lineIDs (IFCPROJECT sch) s (lines (_metaData s)) []). }
  rewrite (bind_Ok _ _ _ _ _ Hget).
  destruct (List.filter _ _) as [|l1 [|l2 ls]]; cbn [map length] in *; done.
Qed.

(** Two projects: the writes of handles 1 and 50 with the type code of
    IFCPROJECT. *)
Lemma ReadLinearScalingFactor_without_single_project_witness :
  Loader.ReadLinearScalingFactor
    (mkSchema 7 448429030 1401173127 160246688 3958052878 2655215786 2022407955)
    WriteStates.after_1_50
  = Ok (tt, WriteStates.after_1_50).
Proof.
  apply ReadLinearScalingFactor_without_single_project.
  - assert (H : write_all [(1, 7, 0, 10); (50, 7, 10, 20)] (new_loader default_settings)
                = Ok (tt, WriteStates.after_1_50)) by (vm_compute; reflexivity).
    exact (proj1 (write_all_keeps (new_loader default_settings) _ _
                    (conj empty_meta_type_index_ok empty_meta_handle_map_ok) H)).
  - vm_compute. discriminate.
Defined.

(** ** X19: loading a file without relationships *)

Section LoadFileSpec.
Import Loader.
Variable sch : Schema.







End LoadFileSpec.



(** ** X20: a line written and copied back *)



(** ** [WriteLine]: heap and tree lemmas *)

Module JsFacts.
Import Js.
Local Open Scope nat_scope.
Local Open Scope js_scope.
#[local] Set Warnings "-clear-no-such-hyp".

Lemma bind_Returned {A B : Type} (m : M A) (k : A -> M B) s a s' :
  m s = Returned (a, s') -> bind m k s = k a s'.
Proof. intros H. unfold bind. by rewrite H. Qed.

(** Induction on trees that reaches inside objects and arrays. *)
Lemma tree_ind_nested (P : tree -> Prop) :
  (forall v, P (Other v)) ->
  (forall l props, Forall (fun p => P p.2) props -> P (Line l props)) ->
  (forall l elems, Forall P elems -> P (Arr l elems)) ->
  forall t, P t.
Proof.
  intros HO HL HA. fix IH 1. intros [v | l props | l elems].
  - apply HO.
  - apply HL. induction props as [|[k c] props IHp]; constructor; [exact (IH c) | exact IHp].
  - apply HA. induction elems as [|c elems IHe]; constructor; [exact (IH c) | exact IHe].
Qed.

Lemma all_map {A : Type} (f : A -> Prop) (xs : list A) :
  all (map f xs) <-> Forall f xs.
Proof.
  induction xs as [|x xs IH]; simpl.
  - split; [constructor | done].
  - rewrite Forall_cons. unfold all in IH. by rewrite IH.
Qed.

Lemma stored_Line h l props :
  stored h (Line l props) <->
  h !! l = Some (JObject (stored_props props)) /\ Forall (fun p => stored h p.2) props.
Proof. cbn [stored]. by rewrite all_map. Qed.

Lemma stored_Arr h l elems :
  stored h (Arr l elems) <->
  h !! l = Some (JArray (map val elems)) /\ Forall (stored h) elems.
Proof. cbn [stored]. by rewrite all_map. Qed.

Lemma wf_Line G h e l props :
  wf G h e (Line l props) <->
  NoDup (map fst props)
  /\ (exists x, In ("expressID"%string, Other x) props /\ is_undefined x = false)
  /\ Forall (fun p => wf G h false p.2) props.
Proof. cbn [wf]. by rewrite all_map. Qed.

Lemma wf_Arr G h e l elems :
  wf G h e (Arr l elems) <->
  e = false /\ elems <> [] /\ Forall (wf G h true) elems.
Proof. cbn [wf]. by rewrite all_map. Qed.

Lemma depth_Line l props n :
  depth (Line l props) <= S n <-> Forall (fun p => depth p.2 <= n) props.
Proof.
  cbn [depth]. rewrite <- Nat.succ_le_mono, list_max_le, Forall_map. done.
Qed.

Lemma depth_Arr l elems n :
  depth (Arr l elems) <= n <-> Forall (fun c => depth c <= n) elems.
Proof. cbn [depth]. by rewrite list_max_le, Forall_map. Qed.

(** *** Frames *)

Lemma frame_refl C h : frame C h h.
Proof. by split. Qed.

Lemma frame_trans C h1 h2 h3 : frame C h1 h2 -> frame C h2 h3 -> frame C h1 h3.
Proof.
  intros [L1 F1] [L2 F2]. split; [lia|].
  intros l Hl Hlt. rewrite F2 by (done || lia). by apply F1.
Qed.

Lemma frame_mono C C' h h' :
  (forall l, l ∈ C -> l ∈ C') -> frame C h h' -> frame C' h h'.
Proof. intros HC [L F]. split; [done|]. intros l Hl Hlt. apply F; [|done]. intros ?. by apply Hl, HC. Qed.

Lemma frame_alloc C h o : frame C h (h ++ [o]).
Proof.
  split; [rewrite length_app; lia|].
  intros l _ Hlt. by rewrite lookup_app_l.
Qed.

Lemma frame_insert C l (h : list object) o : l ∈ C -> frame C h (<[l := o]> h).
Proof.
  intros Hin. split; [by rewrite length_insert|].
  intros x Hx _. apply list_lookup_insert_ne. intros ->. done.
Qed.

Lemma frame_lookup C h h' l o :
  frame C h h' -> l ∉ C -> h !! l = Some o -> h' !! l = Some o.
Proof.
  intros [_ F] Hl Ho. rewrite F; [done | done | by eapply lookup_lt_Some].
Qed.

(** *** Trees under a frame *)

Lemma elem_of_concat_map {A B : Type} (f : A -> list B) (xs : list A) (x : B) :
  x ∈ concat (map f xs) <-> exists y, y ∈ xs /\ x ∈ f y.
Proof.
  induction xs as [|a xs IH]; simpl.
  - split; [by intros ?%elem_of_nil | by intros (? & ?%elem_of_nil & _)].
  - rewrite elem_of_app, IH. split.
    + intros [H | (y & Hy & H)]; [exists a | exists y]; split; try done; set_solver.
    + intros (y & [-> | Hy]%elem_of_cons & H); [by left | right; by exists y].
Qed.

Lemma stored_frame C h h' t :
  frame C h h' -> (forall x, x ∈ cells t -> x ∉ C) -> stored h t -> stored h' t.
Proof.
  intros HF. induction t as [v | l props IH | l elems IH] using tree_ind_nested; [done | |].
  - rewrite !stored_Line. intros Hd [Hl Hs]. split.
    + eapply frame_lookup; [done | | done]. apply Hd. cbn [cells]. set_solver.
    + rewrite Forall_forall in IH, Hs. apply Forall_forall. intros p Hp.
      apply IH; [done | | by apply Hs].
      intros x Hx. apply Hd. cbn [cells]. apply elem_of_cons. right.
      apply elem_of_concat_map. by exists p.
  - rewrite !stored_Arr. intros Hd [Hl Hs]. split.
    + eapply frame_lookup; [done | | done]. apply Hd. cbn [cells]. set_solver.
    + rewrite Forall_forall in IH, Hs. apply Forall_forall. intros p Hp.
      apply IH; [done | | by apply Hs].
      intros x Hx. apply Hd. cbn [cells]. apply elem_of_cons. right.
      apply elem_of_concat_map. by exists p.
Qed.

Lemma plain_frame C G h h' e v :
  frame C h h' -> (forall x, x ∈ C -> x ∈ G) ->
  plain h e v = true -> outside G v -> plain h' e v = true.
Proof.
  intros HF HC Hp Ho. destruct v as [ | | b | z | s | l]; try done.
  unfold plain in *. destruct (h !! l) as [o|] eqn:Hl; [|done].
  rewrite (frame_lookup C h h' l o); [done | done | | done].
  intros Hin. by apply Ho, HC.
Qed.

Lemma wf_frame C G h h' t :
  frame C h h' -> (forall x, x ∈ C -> x ∈ G) ->
  forall e, wf G h e t -> wf G h' e t.
Proof.
  intros HF HC. induction t as [v | l props IH | l elems IH] using tree_ind_nested; intros e.
  - intros [Hp Ho]. split; [by eapply plain_frame | done].
  - rewrite !wf_Line. intros (Hk & He & Hs). split; [done|]. split; [done|].
    rewrite Forall_forall in IH, Hs. apply Forall_forall. intros p Hp.
    by apply IH, Hs.
  - rewrite !wf_Arr. intros (He & Hn & Hs). split; [done|]. split; [done|].
    rewrite Forall_forall in IH, Hs. apply Forall_forall. intros p Hp.
    by apply IH, Hs.
Qed.

Lemma stored_lt h t x : stored h t -> x ∈ cells t -> x < length h.
Proof.
  induction t as [v | l props IH | l elems IH] using tree_ind_nested.
  - by intros _ ?%elem_of_nil.
  - rewrite stored_Line. intros [Hl Hs]. cbn [cells].
    intros [-> | Hx]%elem_of_cons; [by eapply lookup_lt_Some|].
    apply elem_of_concat_map in Hx as (p & Hp & Hx).
    rewrite Forall_forall in IH, Hs. by apply (IH p Hp); [apply Hs|].
  - rewrite stored_Arr. intros [Hl Hs]. cbn [cells].
    intros [-> | Hx]%elem_of_cons; [by eapply lookup_lt_Some|].
    apply elem_of_concat_map in Hx as (p & Hp & Hx).
    rewrite Forall_forall in IH, Hs. by apply (IH p Hp); [apply Hs|].
Qed.

(** *** Properties by name *)

Lemma assoc_app_r k (ps qs : list (string * value)) :
  k ∉ map fst ps -> assoc k (ps ++ qs) = assoc k qs.
Proof.
  induction ps as [|[k' v] ps IH]; simpl; [done|].
  intros Hk. destruct (String.eqb_spec k' k) as [-> | _]; [set_solver|].
  apply IH. set_solver.
Qed.

Lemma assoc_head k v (qs : list (string * value)) : assoc k ((k, v) :: qs) = Some v.
Proof. simpl. by rewrite String.eqb_refl. Qed.

Lemma assoc_set_app_r k x (ps qs : list (string * value)) :
  k ∉ map fst ps -> assoc_set k x (ps ++ qs) = ps ++ assoc_set k x qs.
Proof.
  induction ps as [|[k' v] ps IH]; simpl; [done|].
  intros Hk. destruct (String.eqb_spec k' k) as [-> | _]; [set_solver|].
  f_equal. apply IH. set_solver.
Qed.

Lemma assoc_set_head k v x (qs : list (string * value)) :
  assoc_set k x ((k, v) :: qs) = (k, x) :: qs.
Proof. simpl. by rewrite String.eqb_refl. Qed.

Lemma assoc_In k v (ps : list (string * value)) :
  NoDup (map fst ps) -> In (k, v) ps -> assoc k ps = Some v.
Proof.
  induction ps as [|[k' v'] ps IH]; simpl; [done|].
  intros Hnd [[= -> ->] | Hin].
  - by rewrite String.eqb_refl.
  - apply NoDup_cons in Hnd as [Hk Hnd].
    destruct (String.eqb_spec k' k) as [-> | _]; [|by apply IH].
    exfalso. apply Hk. apply list_elem_of_In, in_map_iff. by exists (k, v).
Qed.

(** *** The heap operations on known cells *)

Lemma get_prop_object h w l ps k :
  h !! l = Some (JObject ps) ->
  get_prop (VRef l) k (mkState h w) = Returned (default VUndefined (assoc k ps), mkState h w).
Proof. intros H. unfold get_prop. cbn [heap]. by rewrite H. Qed.

Lemma get_prop_array h w l es k :
  h !! l = Some (JArray es) ->
  get_prop (VRef l) k (mkState h w) = Returned (VUndefined, mkState h w).
Proof. intros H. unfold get_prop. cbn [heap]. by rewrite H. Qed.

Lemma set_prop_object h w l ps k x :
  h !! l = Some (JObject ps) ->
  set_prop (VRef l) k x (mkState h w)
  = Returned (tt, mkState (<[l := JObject (assoc_set k x ps)]> h) w).
Proof. intros H. unfold set_prop. cbn [heap written]. by rewrite H. Qed.

Lemma object_keys_object h w l ps :
  h !! l = Some (JObject ps) ->
  object_keys (VRef l) (mkState h w) = Returned (map fst ps, mkState h w).
Proof. intros H. unfold object_keys. cbn [heap]. by rewrite H. Qed.

Lemma array_elems_array h w l es :
  h !! l = Some (JArray es) ->
  array_elems (VRef l) (mkState h w) = Returned (Some es, mkState h w).
Proof. intros H. unfold array_elems. cbn [heap]. by rewrite H. Qed.

Lemma get_index_array h w l es i x :
  h !! l = Some (JArray es) -> es !! i = Some x ->
  get_index (VRef l) i (mkState h w) = Returned (x, mkState h w).
Proof. intros H Hi. unfold get_index. cbn [heap]. by rewrite H, Hi. Qed.

Lemma set_index_array h w l es i x :
  h !! l = Some (JArray es) ->
  set_index (VRef l) i x (mkState h w)
  = Returned (tt, mkState (<[l := JArray (<[i := x]> es)]> h) w).
Proof. intros H. unfold set_index. cbn [heap written]. by rewrite H. Qed.

Lemma call_ToTape_object ToTape h w l ps :
  h !! l = Some (JObject ps) ->
  call_ToTape ToTape (VRef l) (mkState h w) = Returned (ToTape ps, mkState h w).
Proof. intros H. unfold call_ToTape. cbn [heap]. by rewrite H. Qed.

(** A plain array element: [.expressID] reads undefined. *)
Lemma get_prop_plain_elem h w v :
  plain h true v = true ->
  get_prop v "expressID" (mkState h w) = Returned (VUndefined, mkState h w).
Proof.
  destruct v as [ | | b | z | s | l]; try done.
  unfold plain, get_prop. cbn [heap].
  destruct (h !! l) as [[ps | es]|]; [|done..].
  by intros ->%negb_false_iff%negb_false_iff || (destruct (default VUndefined (assoc "expressID" ps)); done).
Qed.

(** A plain property: neither test of the loop body holds. *)
Lemma plain_property h w v :
  plain h false v = true ->
  (exists cv, (if truthy v then get_prop v "expressID" else ret VUndefined) (mkState h w)
              = Returned (cv, mkState h w)
              /\ truthy v && negb (is_undefined cv) = false)
  /\ (exists es, array_elems v (mkState h w) = Returned (es, mkState h w)
                 /\ (es = None \/ es = Some [])).
Proof.
  assert (Hno : forall u, (forall l, u <> VRef l) ->
            exists es, array_elems u (mkState h w) = Returned (es, mkState h w)
                       /\ (es = None \/ es = Some [])).
  { intros u Hu. exists None. split; [|by left]. destruct u; try done. by destruct (Hu l). }
  destruct v as [ | | b | z | s | l]; cbn [plain negb truthy].
  1-5: intros _; split; [ | by apply Hno].
  1-5: exists VUndefined; split;
    [ first [done | by match goal with |- context [if ?c then _ else _] => destruct c end]
    | first [done | by rewrite andb_false_r] ].
  unfold get_prop, array_elems, ret. cbn [heap].
  destruct (h !! l) as [[ps | es]|]; [| |done].
  - intros Hu. split; [|exists None; by split; [|left]].
    exists (default VUndefined (assoc "expressID" ps)). split; [done|]. by rewrite Hu.
  - intros Hu. split; [by exists VUndefined|]. exists (Some es). split; [done|]. right.
    apply bool_decide_eq_true in Hu. by subst.
Qed.

(** *** What the nodes have become, under a frame *)

Lemma became_elem_frame C n h h' v' c :
  frame C h h' -> (forall x, x ∈ C -> x < n) ->
  became_elem n h v' c -> became_elem n h' v' c.
Proof.
  intros HF HC. destruct c as [v | l props | l elems]; [done | | done].
  intros (r & -> & Hr & Hl). exists r. split; [done|]. split; [done|].
  eapply frame_lookup; [done | | done]. intros Hin. apply HC in Hin. lia.
Qed.

Lemma became_frame C n h h' p' p :
  frame C h h' -> (forall x, x ∈ C -> x < n) -> (forall x, x ∈ cells p.2 -> x ∉ C) ->
  became n h p' p -> became n h' p' p.
Proof.
  intros HF HC Hd [Hk Hb]. split; [done|].
  destruct p as [k [v | l props | a elems]]; cbn [snd] in *.
  - done.
  - by eapply (became_elem_frame C n h h' _ (Line l props)).
  - destruct Hb as (-> & vs' & Ha & Hvs). split; [done|]. exists vs'. split.
    + eapply frame_lookup; [done | | done]. apply Hd. cbn [cells]. set_solver.
    + eapply Forall2_impl; [done|]. intros v' c. by apply (became_elem_frame C).
Qed.

Lemma carried_stored props e :
  NoDup (map fst props) -> In ("expressID"%string, Other e) props -> carried props = e.
Proof.
  intros Hnd Hin. unfold carried.
  rewrite (assoc_In "expressID" e); [done | |].
  - unfold stored_props. rewrite map_map. done.
  - unfold stored_props. apply in_map_iff. by exists ("expressID"%string, Other e).
Qed.

Lemma became_keys n h ps' props :
  Forall2 (became n h) ps' props -> map fst ps' = map fst props.
Proof. induction 1 as [|p' p ps' props [Hk _] _ IH]; simpl; [done|]. by rewrite Hk, IH. Qed.

Lemma became_plain n h ps' props k v :
  Forall2 (became n h) ps' props -> In (k, Other v) props -> In (k, v) ps'.
Proof.
  induction 1 as [|[k' v'] p ps' props [Hk Hb] _ IH]; simpl; [done|].
  intros [-> | Hin]; [left | right; by apply IH].
  cbn in Hk, Hb. by subst.
Qed.

Lemma carried_after n h ps' props e :
  Forall2 (became n h) ps' props ->
  NoDup (map fst props) -> In ("expressID"%string, Other e) props ->
  assoc "expressID" ps' = Some e.
Proof.
  intros Hb Hnd Hin. apply assoc_In.
  - by rewrite (became_keys n h ps' props).
  - by eapply became_plain.
Qed.

(** *** The two loops of [WriteLine] *)

Section Loops.
Variable ToTape : list (string * value) -> list value.

Lemma WriteLine_S fuel' lineObject :
  WriteLine ToTape (S fuel') lineObject
  = (let* keys := object_keys lineObject in
     forM_ keys (prop_body ToTape fuel' lineObject) ;;
     let* ID := get_prop lineObject "expressID" in
     let* type := get_prop lineObject "type" in
     let* arguments := call_ToTape ToTape lineObject in
     WriteRawLineData (mkRaw ID type arguments)).
Proof. reflexivity. Qed.

(** A nested line object: it is written, and still carries its
    [expressID] afterwards. *)
Lemma nested_line fuel' G e lc pc h w :
  line_written ToTape fuel' G ->
  stored h (Line lc pc) -> wf G h e (Line lc pc) -> NoDup (cells (Line lc pc)) ->
  (forall x, x ∈ cells (Line lc pc) -> x ∈ G) ->
  (forall x, x ∈ G -> x < length h) ->
  depth (Line lc pc) <= fuel' ->
  is_undefined (carried pc) = false
  /\ (forall w', get_prop (VRef lc) "expressID" (mkState h w') = Returned (carried pc, mkState h w'))
  /\ exists h' ws,
      WriteLine ToTape fuel' (VRef lc) (mkState h w) = Returned (tt, mkState h' (w ++ ws))
      /\ (forall w', get_prop (VRef lc) "expressID" (mkState h' w')
                     = Returned (carried pc, mkState h' w'))
      /\ frame (cells (Line lc pc)) h h'
      /\ map ID ws = writes (Line lc pc).
Proof.
  intros HW Hs Hwf Hnd HG Hlt Hd.
  pose proof Hwf as (Hk & (x & Hin & Hx) & _)%wf_Line.
  pose proof Hs as [Hl _]%stored_Line.
  pose proof (carried_stored pc x Hk Hin) as Hc.
  split; [by rewrite Hc|]. split.
  { intros w'. by rewrite (get_prop_object h w' lc _ _ Hl). }
  destruct (HW e lc pc h w Hs Hwf Hnd HG Hlt Hd) as (h' & ps' & ws & Hrun & Hl' & Hb & HF & Hws).
  exists h', (ws ++ [raw_line ToTape (carried pc) ps']).
  split; [done|]. split; [|split; [done|]].
  - intros w'. rewrite (get_prop_object h' w' lc _ _ Hl').
    by rewrite (carried_after _ _ _ _ x Hb Hk Hin), Hc.
  - rewrite map_app, Hws. done.
Qed.

Lemma elems_loop fuel' G n l k a rootps :
  line_written ToTape fuel' G ->
  l ∈ G -> a ∈ G -> l <> a -> (forall x, x ∈ G -> x < n) ->
  assoc k rootps = Some (VRef a) ->
  forall todo done' h w,
    n <= length h ->
    h !! l = Some (JObject rootps) ->
    h !! a = Some (JArray (done' ++ map val todo)) ->
    Forall (fun c => stored h c /\ wf G h true c /\ depth c <= fuel'
                     /\ (forall x, x ∈ cells c -> x ∈ G)) todo ->
    NoDup (concat (map cells todo)) ->
    l ∉ concat (map cells todo) -> a ∉ concat (map cells todo) ->
    exists h' new' ws,
      forM_ (seq (length done') (length todo)) (elem_body ToTape fuel' (VRef l) k (VRef a))
        (mkState h w) = Returned (tt, mkState h' (w ++ ws))
      /\ h' !! a = Some (JArray (done' ++ new'))
      /\ Forall2 (became_elem n h') new' todo
      /\ frame (a :: concat (map cells todo)) h h'
      /\ map ID ws = concat (map writes todo).
Proof.
  intros HW HlG HaG Hla HGn Hk.
  induction todo as [|c todo IH]; intros done' h w Hn Hl Ha Hall Hnd Hlc Hac.
  { exists h, [], []. cbn. rewrite app_nil_r. repeat split; try done; constructor. }
  apply Forall_cons in Hall as [(Hs & Hwf & Hd & HcG) Hall].
  cbn [map concat] in Hnd, Hlc, Hac.
  apply NoDup_app in Hnd as (Hndc & Hdisj & Hnd).
  apply not_elem_of_app in Hlc as [Hlc Hlt], Hac as [Hac Hat].
  assert (Hi : (done' ++ map val (c :: todo)) !! length done' = Some (val c)).
  { cbn [map]. by rewrite list_lookup_middle. }
  cbn [length seq forM_].
  destruct c as [v | lc pc | lc pc].
  - (* a plain element is passed over *)
    destruct Hwf as [Hp Ho]. cbn [val] in *.
    destruct (IH (done' ++ [v]) h w) as (h' & new' & ws & Hrun & Ha' & Hb & HF & Hws);
      try done.
    { by rewrite <- app_assoc. }
    exists h', (v :: new'), ws.
    rewrite length_app, Nat.add_1_r in Hrun. rewrite <- app_assoc in Ha'.
    split; [|split; [done|split; [by constructor|split; [done|done]]]].
    unfold bind at 1. unfold elem_body at 1.
    rewrite (bind_Returned _ _ _ _ _ (get_index_array h w a _ _ _ Ha Hi)).
    rewrite (bind_Returned _ _ _ _ _ (get_prop_plain_elem h w v Hp)).
    cbn [is_undefined negb ret]. exact Hrun.
  - (* a line object is written, then replaced *)
    cbn [val] in *.
    assert (HGh : forall x, x ∈ G -> x < length h) by (intros x Hx; apply HGn in Hx; lia).
    assert (HtG : forall x, x ∈ concat (map cells todo) -> x ∈ G).
    { intros x (c' & Hc' & Hx)%elem_of_concat_map.
      rewrite Forall_forall in Hall. by apply (Hall c' Hc'). }
    destruct (nested_line fuel' G true lc pc h w HW Hs Hwf Hndc HcG HGh Hd)
      as (Hu & Hget & h1 & ws1 & Hrun1 & Hget1 & HF1 & Hws1).
    pose proof (frame_lookup _ _ _ _ _ HF1 Hlc Hl) as Hl1.
    pose proof (frame_lookup _ _ _ _ _ HF1 Hac Ha) as Ha1.
    pose proof (proj1 HF1) as Hlen1.
    set (r := length h1) in *.
    set (h2 := h1 ++ [ref_object (carried pc)]).
    set (es := done' ++ map val (Line lc pc :: todo)) in *.
    set (h3 := <[a := JArray (<[length done' := VRef r]> es)]> h2).
    assert (Ha2 : h2 !! a = Some (JArray es)).
    { unfold h2. rewrite lookup_app_l; [done | by eapply lookup_lt_Some]. }
    assert (Hr2 : h2 !! r = Some (ref_object (carried pc))).
    { unfold h2, r. by rewrite list_lookup_middle. }
    assert (Har : a <> r).
    { apply lookup_lt_Some in Ha. lia. }
    assert (HF3 : frame (a :: cells (Line lc pc)) h h3).
    { eapply frame_trans; [eapply frame_mono; [|exact HF1]; set_solver|].
      eapply frame_trans; [apply frame_alloc|]. apply frame_insert. set_solver. }
    assert (Ha3 : h3 !! a = Some (JArray ((done' ++ [VRef r]) ++ map val todo))).
    { unfold h3. rewrite list_lookup_insert_eq by (by eapply lookup_lt_Some).
      do 2 f_equal. unfold es. cbn [map val].
      rewrite insert_app_r_alt, Nat.sub_diag by lia. cbn. by rewrite <- app_assoc. }
    assert (Hr3 : h3 !! r = Some (ref_object (carried pc))).
    { unfold h3. by rewrite list_lookup_insert_ne. }
    assert (Hl3 : h3 !! l = Some (JObject rootps)).
    { eapply frame_lookup; [exact HF3 | | done]. set_solver. }
    assert (Hall3 : Forall (fun c => stored h3 c /\ wf G h3 true c /\ depth c <= fuel'
                                     /\ (forall x, x ∈ cells c -> x ∈ G)) todo).
    { rewrite Forall_forall in Hall. apply Forall_forall. intros c' Hc'.
      destruct (Hall c' Hc') as (Hs' & Hwf' & Hd' & HG').
      split; [|split; [|done]].
      - eapply stored_frame; [exact HF3 | | done].
        intros x Hx [-> | Hin]%elem_of_cons.
        + apply Hat, elem_of_concat_map. by exists c'.
        + apply (Hdisj x Hin), elem_of_concat_map. by exists c'.
      - eapply wf_frame; [exact HF3 | | done].
        intros x [-> | Hin]%elem_of_cons; [done | by apply HcG]. }
    destruct (IH (done' ++ [VRef r]) h3 (w ++ ws1))
      as (h' & new' & ws & Hrun & Ha' & Hb & HF & Hws); try done.
    { pose proof (proj1 HF3). lia. }
    exists h', (VRef r :: new'), (ws1 ++ ws).
    rewrite length_app, Nat.add_1_r in Hrun. rewrite <- !app_assoc in Ha', Hrun.
    split; [|split; [done|split; [|split]]].
    + unfold bind at 1. unfold elem_body at 1.
      rewrite (bind_Returned _ _ _ _ _ (get_index_array h w a _ _ _ Ha Hi)).
      rewrite (bind_Returned _ _ _ _ _ (Hget w)). rewrite Hu. cbn [negb].
      rewrite (bind_Returned _ _ _ _ _ Hrun1).
      rewrite (bind_Returned _ _ _ _ _ (get_prop_object h1 _ l _ k Hl1)). rewrite Hk. cbn [default].
      rewrite (bind_Returned _ _ _ _ _ (get_index_array h1 _ a _ _ _ Ha1 Hi)).
      rewrite (bind_Returned _ _ _ _ _ (Hget1 _)).
      unfold bind at 1, alloc at 1. cbn [heap written]. fold r. fold h2.
      rewrite (set_index_array h2 _ a es _ _ Ha2). fold h3. exact Hrun.
    + constructor; [|done]. exists r. split; [done|]. split; [lia|].
      eapply frame_lookup; [exact HF | | done].
      intros [-> | Hin]%elem_of_cons; [done|]. apply HtG, HGn in Hin. lia.
    + eapply frame_trans; (eapply frame_mono; [|done]); cbn [map concat]; set_solver.
    + cbn [map concat]. by rewrite map_app, Hws1, Hws.
  - by apply wf_Arr in Hwf as [[=] _].
Qed.

Lemma props_loop fuel' G n l :
  line_written ToTape fuel' G ->
  l ∈ G -> (forall x, x ∈ G -> x < n) ->
  forall todo done' h w,
    n <= length h ->
    h !! l = Some (JObject (done' ++ stored_props todo)) ->
    NoDup (map fst done' ++ map fst todo) ->
    Forall (fun p => stored h p.2 /\ wf G h false p.2 /\ depth p.2 <= fuel'
                     /\ (forall x, x ∈ cells p.2 -> x ∈ G)) todo ->
    NoDup (concat (map (fun p => cells p.2) todo)) ->
    l ∉ concat (map (fun p => cells p.2) todo) ->
    exists h' new' ws,
      forM_ (map fst todo) (prop_body ToTape fuel' (VRef l)) (mkState h w)
      = Returned (tt, mkState h' (w ++ ws))
      /\ h' !! l = Some (JObject (done' ++ new'))
      /\ Forall2 (became n h') new' todo
      /\ frame (l :: concat (map (fun p => cells p.2) todo)) h h'
      /\ map ID ws = concat (map (fun p => writes p.2) todo).
Proof.
  intros HW HlG HGn.
  induction todo as [|[k c] todo IH]; intros done' h w Hn Hl Hkeys Hall Hnd Hlc.
  { exists h, [], []. cbn. rewrite app_nil_r. repeat split; try done; constructor. }
  apply Forall_cons in Hall as [(Hs & Hwf & Hd & HcG) Hall].
  cbn [map concat fst snd stored_props] in Hnd, Hlc, Hl, Hs, Hwf, Hd, HcG, Hkeys.
  fold (stored_props todo) in Hl.
  apply NoDup_app in Hnd as (Hndc & Hdisj & Hnd).
  apply not_elem_of_app in Hlc as [Hlc Hlt].
  assert (Hkd : k ∉ map fst done').
  { apply NoDup_app in Hkeys as (_ & Hk & _). intros Hin. apply (Hk k Hin). by left. }
  assert (Hkeys' : forall x, NoDup (map fst (done' ++ [(k, x)]) ++ map fst todo)).
  { intros x. rewrite map_app, <- app_assoc. done. }
  assert (HGh : forall x, x ∈ G -> x < length h) by (intros x Hx; apply HGn in Hx; lia).
  assert (HtG : forall x, x ∈ concat (map (fun p => cells p.2) todo) -> x ∈ G).
  { intros x (p & Hp & Hx)%elem_of_concat_map.
    rewrite Forall_forall in Hall. by apply (Hall p Hp). }
  assert (Hrest : forall h3, frame (l :: cells c) h h3 ->
            Forall (fun p => stored h3 p.2 /\ wf G h3 false p.2 /\ depth p.2 <= fuel'
                             /\ (forall x, x ∈ cells p.2 -> x ∈ G)) todo).
  { intros h3 HF3. rewrite Forall_forall in Hall. apply Forall_forall. intros p Hp.
    destruct (Hall p Hp) as (Hs' & Hwf' & Hd' & HG').
    split; [|split; [|done]].
    - eapply stored_frame; [exact HF3 | | done].
      intros x Hx [-> | Hin]%elem_of_cons.
      + apply Hlt, elem_of_concat_map. by exists p.
      + apply (Hdisj x Hin), elem_of_concat_map. by exists p.
    - eapply wf_frame; [exact HF3 | | done].
      intros x [-> | Hin]%elem_of_cons; [done | by apply HcG]. }
  assert (Hget : get_prop (VRef l) k (mkState h w) = Returned (val c, mkState h w)).
  { rewrite (get_prop_object h w l _ k Hl). by rewrite assoc_app_r, assoc_head. }
  cbn [map fst forM_].
  destruct c as [v | lc pc | a elems].
  - (* a plain property is passed over *)
    destruct Hwf as [Hp Ho]. cbn [val] in *.
    destruct (plain_property h w v Hp) as [(cv & Hcv & Hfalse) (es & Hes & Hor)].
    destruct (IH (done' ++ [(k, v)]) h w) as (h' & new' & ws & Hrun & Hl' & Hb & HF & Hws);
      try done.
    { by rewrite <- app_assoc. }
    exists h', ((k, v) :: new'), ws. rewrite <- app_assoc in Hl'.
    split; [|split; [done|split; [by constructor|split; [done|done]]]].
    unfold bind at 1. unfold prop_body at 1.
    rewrite (bind_Returned _ _ _ _ _ Hget).
    rewrite (bind_Returned _ _ _ _ _ Hcv). rewrite Hfalse.
    rewrite (bind_Returned _ _ _ _ _ Hes).
    destruct Hor as [-> | ->]; exact Hrun.
  - (* a nested line object is written, then replaced *)
    cbn [val] in *.
    destruct (nested_line fuel' G false lc pc h w HW Hs Hwf Hndc HcG HGh Hd)
      as (Hu & Hgete & h1 & ws1 & Hrun1 & Hget1 & HF1 & Hws1).
    pose proof (frame_lookup _ _ _ _ _ HF1 Hlc Hl) as Hl1.
    pose proof (proj1 HF1) as Hlen1.
    set (r := length h1) in *.
    set (h2 := h1 ++ [ref_object (carried pc)]).
    set (ps := done' ++ (k, VRef lc) :: stored_props todo) in *.
    set (h3 := <[l := JObject (assoc_set k (VRef r) ps)]> h2).
    assert (Hl2 : h2 !! l = Some (JObject ps)).
    { unfold h2. rewrite lookup_app_l; [done | by eapply lookup_lt_Some]. }
    assert (Hr2 : h2 !! r = Some (ref_object (carried pc))).
    { unfold h2, r. by rewrite list_lookup_middle. }
    assert (Hlr : l <> r).
    { apply lookup_lt_Some in Hl. lia. }
    assert (HF3 : frame (l :: cells (Line lc pc)) h h3).
    { eapply frame_trans; [eapply frame_mono; [|exact HF1]; set_solver|].
      eapply frame_trans; [apply frame_alloc|]. apply frame_insert. set_solver. }
    assert (Hl3 : h3 !! l = Some (JObject ((done' ++ [(k, VRef r)]) ++ stored_props todo))).
    { unfold h3. rewrite list_lookup_insert_eq by (by eapply lookup_lt_Some).
      do 2 f_equal. unfold ps.
      rewrite assoc_set_app_r, assoc_set_head by done. by rewrite <- app_assoc. }
    assert (Hr3 : h3 !! r = Some (ref_object (carried pc))).
    { unfold h3. by rewrite list_lookup_insert_ne. }
    destruct (IH (done' ++ [(k, VRef r)]) h3 (w ++ ws1))
      as (h' & new' & ws & Hrun & Hl' & Hb & HF & Hws); try done.
    { pose proof (proj1 HF3). lia. }
    { by apply Hrest. }
    exists h', ((k, VRef r) :: new'), (ws1 ++ ws).
    rewrite <- !app_assoc in Hl', Hrun.
    split; [|split; [done|split; [|split]]].
    + unfold bind at 1. unfold prop_body at 1.
      rewrite (bind_Returned _ _ _ _ _ Hget). cbn [truthy].
      rewrite (bind_Returned _ _ _ _ _ (Hgete w)). rewrite Hu. cbn [negb andb].
      rewrite (bind_Returned _ _ _ _ _ Hrun1).
      rewrite (bind_Returned _ _ _ _ _ (Hget1 _)).
      unfold bind at 1, alloc at 1. cbn [heap written]. fold r. fold h2.
      rewrite (set_prop_object h2 _ l ps _ _ Hl2). fold h3. exact Hrun.
    + constructor; [|done]. split; [done|]. cbn [snd became_elem fst].
      exists r. split; [done|]. split; [lia|].
      eapply frame_lookup; [exact HF | | done].
      intros [-> | Hin]%elem_of_cons; [done|]. apply HtG, HGn in Hin. lia.
    + eapply frame_trans; (eapply frame_mono; [|done]); cbn [map concat snd]; set_solver.
    + cbn [map concat snd]. by rewrite map_app, Hws1, Hws.
  - (* an array of elements *)
    cbn [val] in *.
    pose proof Hs as [Ha Hse]%stored_Arr.
    pose proof Hwf as (_ & Hne & Hwe)%wf_Arr.
    pose proof Hd as Hde%depth_Arr.
    cbn [cells] in Hndc, Hlc, HcG, Hdisj.
    apply NoDup_cons in Hndc as [Hae Hnde].
    apply not_elem_of_cons in Hlc as [Hla Hle].
    assert (HaG : a ∈ G) by (apply HcG; set_solver).
    assert (Hk : assoc k (done' ++ (k, VRef a) :: stored_props todo) = Some (VRef a))
      by (by rewrite assoc_app_r, assoc_head).
    assert (Halle : Forall (fun c => stored h c /\ wf G h true c /\ depth c <= fuel'
                                     /\ (forall x, x ∈ cells c -> x ∈ G)) elems).
    { rewrite Forall_forall in Hse, Hwe, Hde. apply Forall_forall. intros c Hc.
      split; [by apply Hse|]. split; [by apply Hwe|]. split; [by apply Hde|].
      intros x Hx. apply HcG. apply elem_of_cons. right.
      apply elem_of_concat_map. by exists c. }
    destruct (elems_loop fuel' G n l k a _ HW HlG HaG Hla HGn Hk elems [] h w
                Hn Hl Ha Halle Hnde Hle Hae)
      as (h1 & newe & wse & Hrune & Ha1 & Hbe & HFe & Hwse).
    cbn [length app] in Hrune, Ha1.
    assert (Hl1 : h1 !! l = Some (JObject (done' ++ (k, VRef a) :: stored_props todo))).
    { eapply frame_lookup; [exact HFe | | done].
      intros [-> | Hin]%elem_of_cons; [done | by apply Hle]. }
    destruct (IH (done' ++ [(k, VRef a)]) h1 (w ++ wse))
      as (h' & new' & ws & Hrun & Hl' & Hb & HF & Hws); try done.
    { pose proof (proj1 HFe). lia. }
    { by rewrite <- app_assoc. }
    { apply Hrest. eapply frame_mono; [|exact HFe]. cbn [cells]. set_solver. }
    exists h', ((k, VRef a) :: new'), (wse ++ ws).
    rewrite <- !app_assoc in Hl', Hrun.
    assert (HC : forall x, x ∈ l :: concat (map (fun p => cells p.2) todo) -> x < n).
    { intros x [-> | Hin]%elem_of_cons; apply HGn; [done | by apply HtG]. }
    split; [|split; [done|split; [|split]]].
    + unfold bind at 1. unfold prop_body at 1.
      rewrite (bind_Returned _ _ _ _ _ Hget). cbn [truthy].
      rewrite (bind_Returned _ _ _ _ _ (get_prop_array h w a _ _ Ha)).
      cbn [is_undefined negb andb].
      rewrite (bind_Returned _ _ _ _ _ (array_elems_array h w a _ Ha)).
      destruct elems as [|c0 elems0]; [done|].
      cbn [map]. cbn [length]. rewrite length_map.
      cbn [length] in Hrune. rewrite Hrune. exact Hrun.
    + constructor; [|done]. split; [done|]. cbn [snd fst].
      split; [done|]. exists newe. split.
      * eapply frame_lookup; [exact HF | | done].
        intros [-> | Hin]%elem_of_cons; [done|].
        apply (Hdisj a); [set_solver | done].
      * eapply Forall2_impl; [exact Hbe|]. intros v' c.
        by apply (became_elem_frame (l :: concat (map (fun p => cells p.2) todo))).
    + eapply frame_trans; (eapply frame_mono; [|done]); cbn [map concat snd cells];
        set_solver.
    + cbn [map concat snd writes]. by rewrite map_app, Hwse, Hws.
Qed.

Lemma stored_props_keys props : map fst (stored_props props) = map fst props.
Proof. unfold stored_props. rewrite map_map. done. Qed.

(** Every line object is written, to any depth the fuel covers. *)
Lemma WriteLine_writes fuel : forall G, line_written ToTape fuel G.
Proof.
  induction fuel as [|fuel IHf]; intros G e lc pc h w Hs Hwf Hnd HG HGh Hd.
  { cbn [depth] in Hd. lia. }
  pose proof Hs as [Hl Hsp]%stored_Line.
  pose proof Hwf as (Hk & (x & Hin & Hx) & Hwp)%wf_Line.
  apply depth_Line in Hd. cbn [cells] in Hnd, HG.
  apply NoDup_cons in Hnd as [Hlc Hndp].
  assert (HlG : lc ∈ G) by (apply HG; set_solver).
  assert (Hall : Forall (fun p => stored h p.2 /\ wf G h false p.2 /\ depth p.2 <= fuel
                                  /\ (forall x, x ∈ cells p.2 -> x ∈ G)) pc).
  { rewrite Forall_forall in Hsp, Hwp, Hd. apply Forall_forall. intros p Hp.
    split; [by apply Hsp|]. split; [by apply Hwp|]. split; [by apply Hd|].
    intros y Hy. apply HG. apply elem_of_cons. right.
    apply elem_of_concat_map. by exists p. }
  destruct (props_loop fuel G (length h) lc (IHf G) HlG HGh pc [] h w
              (le_n _) Hl Hk Hall Hndp Hlc)
    as (h' & new' & ws & Hrun & Hl' & Hb & HF & Hws).
  cbn [app] in Hl'.
  exists h', new', ws. split; [|done].
  rewrite WriteLine_S.
  rewrite (bind_Returned _ _ _ _ _ (object_keys_object h w lc _ Hl)).
  rewrite stored_props_keys. rewrite (bind_Returned _ _ _ _ _ Hrun).
  rewrite (bind_Returned _ _ _ _ _ (get_prop_object h' _ lc _ "expressID" Hl')).
  rewrite (bind_Returned _ _ _ _ _ (get_prop_object h' _ lc _ "type" Hl')).
  rewrite (bind_Returned _ _ _ _ _ (call_ToTape_object ToTape h' _ lc _ Hl')).
  unfold WriteRawLineData. cbn [heap written].
  rewrite (carried_after _ _ _ _ x Hb Hk Hin), (carried_stored pc x Hk Hin).
  by rewrite <- app_assoc.
Qed.

(** A nested line object is not what the property held before. *)
Lemma became_changed n h' ps' props k lc pc :
  Forall2 (became n h') ps' props ->
  In (k, Line lc pc) props -> lc < n ->
  ps' <> stored_props props.
Proof.
  induction 1 as [|[k' v'] p ps' props [Hk Hb] _ IH]; [done|].
  intros [-> | Hin] Hlt; cbn [stored_props map fst snd val].
  - cbn [snd became_elem] in Hb. destruct Hb as (r & -> & Hr & _).
    intros [= _ -> _]. lia.
  - intros [= _ _ Heq]. by apply IH.
Qed.

End Loops.

(** The sample wall is held by the sample heap, as a tree. *)
Lemma wall_stored : stored JsSamples.wall_heap JsSamples.wall.
Proof. cbn. repeat split. Qed.

Lemma wall_nodup : NoDup (cells JsSamples.wall).
Proof. compute_done. Qed.

Lemma wall_wf : wf (cells JsSamples.wall) JsSamples.wall_heap false JsSamples.wall.
Proof.
  cbn [wf JsSamples.wall JsSamples.line map snd all foldr plain outside fst].
  repeat match goal with
  | |- _ /\ _ => split
  | |- NoDup _ => compute_done
  | |- _ ∉ _ => compute_done
  | |- exists e, In _ _ /\ _ => eexists; split; [left; reflexivity | reflexivity]
  | |- True => exact I
  | |- _ = _ => reflexivity
  | |- _ <> _ => discriminate
  end.
Qed.

End JsFacts.

(** ** X21: [WriteLine] rewrites the caller's object *)

(** X21.  Let the caller's [lineObject] be an object at [l] whose
    properties are plain values, nested line objects (objects carrying an
    [expressID]) and non-empty arrays of these, nested to any depth, no
    object or array being reached twice.  Then [WriteLine] returns, and:
    the object at [l] itself has been rewritten, each property that was a
    nested line object now holding a new object [{type: 5, value:
    expressID}], each array property being the same array with its
    elements that were line objects replaced alike, all other values as
    they were; the nested line objects were handed to the wasm module
    before the line itself, depth first in the order of the properties,
    and the line is handed over last, with the arguments [ToTape] computes
    from the rewritten object; cells outside the tree are untouched.  If
    some property was a nested line object, the caller's object is no
    longer what it was. *)
Theorem WriteLine_in_place (ToTape : list (string * Js.value) -> list Js.value)
    (l : nat) (props : list (string * Js.tree)) (h : list Js.object)
    (w : list Js.RawLineData) (fuel : nat) :
  Js.stored h (Js.Line l props) ->
  Js.wf (Js.cells (Js.Line l props)) h false (Js.Line l props) ->
  NoDup (Js.cells (Js.Line l props)) ->
  (Js.depth (Js.Line l props) <= fuel)%nat ->
  exists h' props' nested,
    Js.WriteLine ToTape fuel (Js.VRef l) (Js.mkState h w)
    = Js.Returned (tt, Js.mkState h'
                         (w ++ nested ++ [Js.raw_line ToTape (Js.carried props) props']))
    /\ h' !! l = Some (Js.JObject props')
    /\ Forall2 (Js.became (length h) h') props' props
    /\ map Js.ID nested = concat (map (fun p => Js.writes p.2) props)
    /\ Js.frame (Js.cells (Js.Line l props)) h h'
    /\ (forall k lc pc, In (k, Js.Line lc pc) props -> h' !! l <> h !! l).
Proof.
  intros Hs Hwf Hnd Hd.
  assert (HGh : forall x, x ∈ Js.cells (Js.Line l props) -> (x < length h)%nat)
    by (intros x; by apply JsFacts.stored_lt).
  destruct (JsFacts.WriteLine_writes ToTape fuel _ false l props h w Hs Hwf Hnd
              (fun x H => H) HGh Hd) as (h' & ps' & ws & Hrun & Hl' & Hb & HF & Hws).
  exists h', ps', ws.
  split; [done|]. split; [done|]. split; [done|]. split; [done|]. split; [done|].
  intros k lc pc Hin Heq.
  apply JsFacts.stored_Line in Hs as [Hl Hsp].
  rewrite Hl', Hl in Heq. injection Heq as Heq.
  apply (JsFacts.became_changed _ _ _ _ k lc pc Hb Hin); [|done].
  apply HGh. cbn [Js.cells]. apply elem_of_cons. right.
  apply JsFacts.elem_of_concat_map. exists (k, Js.Line lc pc).
  split; [by apply list_elem_of_In | cbn [snd Js.cells]; apply elem_of_cons; by left].
Qed.

Lemma WriteLine_in_place_witness :
  exists h' props' nested,
    Js.WriteLine JsSamples.ToTape 3 (Js.VRef 0) (Js.mkState JsSamples.wall_heap [])
    = Js.Returned (tt, Js.mkState h'
                         ([] ++ nested ++ [Js.raw_line JsSamples.ToTape (Js.VNum 1) props']))
    /\ h' !! 0%nat = Some (Js.JObject props')
    /\ Forall2 (Js.became (length JsSamples.wall_heap) h') props'
         [ ("expressID", Js.Other (Js.VNum 1)); ("type", Js.Other (Js.VNum 100));
           ("Name", Js.Other (Js.VRef 1));
           ("Placement", JsSamples.line 2 2 200 [("RelativeTo", JsSamples.line 3 3 200 [])]);
           ("Items", Js.Arr 4 [JsSamples.line 5 4 300 []; Js.Other (Js.VNum 7);
                               JsSamples.line 6 5 300 []]) ]%string
    /\ map Js.ID nested = [Js.VNum 3; Js.VNum 2; Js.VNum 4; Js.VNum 5]
    /\ Js.frame [0; 2; 3; 4; 5; 6]%nat JsSamples.wall_heap h'
    /\ (forall k lc pc,
          In (k, Js.Line lc pc)
            [ ("expressID", Js.Other (Js.VNum 1)); ("type", Js.Other (Js.VNum 100));
              ("Name", Js.Other (Js.VRef 1));
              ("Placement",
               JsSamples.line 2 2 200 [("RelativeTo", JsSamples.line 3 3 200 [])]);
              ("Items", Js.Arr 4 [JsSamples.line 5 4 300 []; Js.Other (Js.VNum 7);
                                  JsSamples.line 6 5 300 []]) ]%string ->
          h' !! 0%nat <> JsSamples.wall_heap !! 0%nat).
Proof.
  exact (WriteLine_in_place JsSamples.ToTape 0 _ JsSamples.wall_heap [] 3
           JsFacts.wall_stored JsFacts.wall_wf JsFacts.wall_nodup (le_n 3)).
Defined.

(** ** [FlattenLine] and [getSubArray] *)

Module JsMore.
Import Js.
Local Open Scope nat_scope.
Local Open Scope js_scope.

Lemma assoc_key (k : string) (props : list (string * value)) :
  k ∈ map fst props -> exists v, assoc k props = Some v /\ In (k, v) props.
Proof.
  induction props as [|[k' v'] props IH]; cbn [map fst assoc].
  - by intros ?%elem_of_nil.
  - intros Hin. destruct (String.eqb_spec k' k) as [-> | Hne].
    + exists v'. split; [done | by left].
    + apply elem_of_cons in Hin as [-> | Hin]; [done|].
      destruct (IH Hin) as (v & Hv & Hi). exists v. split; [done | by right].
Qed.

Section Flatten.
Variable GetLine_flat : value -> M value.

(** The body of the loop of [FlattenLine] leaves a property that is no REF
    and no array of REFs alone, and makes no call. *)
Lemma flatten_passes_over h w l props k v :
  h !! l = Some (JObject props) -> assoc k props = Some v -> no_ref h v = true ->
  (let* property := get_prop (VRef l) k in
   let* type := (if truthy property then get_prop property "type" else ret VUndefined) in
   if truthy property && is_five type then
     let* value := get_prop property "value" in
     let* flat := GetLine_flat value in
     set_prop (VRef l) k flat
   else
     let* elems := array_elems property in
     match elems with
     | Some (e :: es) =>
         let* first := get_index property 0 in
         let* type := get_prop first "type" in
         if is_five type then
           forM_ (seq 0 (length (e :: es))) (fun i =>
             let* array := get_prop (VRef l) k in
             let* element := get_index property i in
             let* value := get_prop element "value" in
             let* flat := GetLine_flat value in
             set_index array i flat)
         else ret tt
     | _ => ret tt
     end) (mkState h w)
  = Returned (tt, mkState h w).
Proof.
  intros Hl Hk Hv.
  rewrite (JsFacts.bind_Returned _ _ _ _ _ (JsFacts.get_prop_object h w l _ k Hl)).
  rewrite Hk. change (default VUndefined (Some v)) with v.
  destruct v as [ | | b | z | s | lv]; cbn [truthy no_ref] in *.
  1-2: reflexivity.
  1-3: by match goal with |- context [if ?c then _ else _] => destruct c end.
  cbn [truthy].
  destruct (h !! lv) as [[ps | es]|] eqn:Hlv; [| |done].
  - rewrite (JsFacts.bind_Returned _ _ _ _ _ (JsFacts.get_prop_object h w lv _ "type" Hlv)).
    apply negb_true_iff in Hv. rewrite Hv. cbn [andb].
    assert (Hnone : array_elems (VRef lv) (mkState h w) = Returned (None, mkState h w))
      by (unfold array_elems; cbn [heap]; by rewrite Hlv).
    by rewrite (JsFacts.bind_Returned _ _ _ _ _ Hnone).
  - rewrite (JsFacts.bind_Returned _ _ _ _ _ (JsFacts.get_prop_array h w lv _ "type" Hlv)).
    cbn [is_five andb].
    rewrite (JsFacts.bind_Returned _ _ _ _ _ (JsFacts.array_elems_array h w lv es Hlv)).
    destruct es as [|first es]; [done|].
    rewrite (JsFacts.bind_Returned _ _ _ _ _
               (JsFacts.get_index_array h w lv _ 0 first Hlv eq_refl)).
    destruct first as [ | | b | z | s | lf]; try done.
    cbn [not_a_ref] in Hv.
    destruct (h !! lf) as [[ps | es']|] eqn:Hlf; [| | done].
    2: by rewrite (JsFacts.bind_Returned _ _ _ _ _ (JsFacts.get_prop_array h w lf _ "type" Hlf)).
    rewrite (JsFacts.bind_Returned _ _ _ _ _ (JsFacts.get_prop_object h w lf _ "type" Hlf)).
    apply negb_true_iff in Hv. by rewrite Hv.
Qed.

Lemma FlattenLine_with_no_refs h w l props :
  h !! l = Some (JObject props) ->
  forallb (fun p => no_ref h p.2) props = true ->
  FlattenLine_with GetLine_flat (VRef l) (mkState h w) = Returned (tt, mkState h w).
Proof.
  intros Hl Hall. unfold FlattenLine_with.
  rewrite (JsFacts.bind_Returned _ _ _ _ _ (JsFacts.object_keys_object h w l _ Hl)).
  assert (Hkeys : forall k, k ∈ map fst props -> k ∈ map fst props) by done.
  revert Hkeys. generalize (map fst props) at 1 3. intros keys.
  induction keys as [|k keys IH]; intros Hkeys; [done|].
  cbn [forM_]. destruct (assoc_key k props) as (v & Hv & Hin); [apply Hkeys; by left|].
  rewrite forallb_forall in Hall. specialize (Hall (k, v) Hin). cbn [snd] in Hall.
  rewrite (JsFacts.bind_Returned _ _ _ _ _ (flatten_passes_over h w l props k v Hl Hv Hall)).
  apply IH. intros k' Hk'. apply Hkeys. by right.
Qed.

End Flatten.

Lemma quot_nonneg (a : Z) : (0 <= a)%Z -> (Z.quot a 4 = a / 4)%Z.
Proof. intros H. by rewrite Z.quot_div_nonneg by lia. Qed.

(** With a start and a size that are not negative, the limits of
    [subarray] are the start, in elements, and the size after it, both cut
    at the end of the array. *)
Lemma getSubArray_take_drop {A : Type} (heap : list A) (ptr size : Z) :
  (0 <= ptr)%Z -> (0 <= size)%Z ->
  getSubArray heap ptr size = take (Z.to_nat size) (drop (Z.to_nat (ptr / 4)) heap).
Proof.
  intros Hp Hs. unfold getSubArray, subarray, clamp_index.
  rewrite !quot_nonneg by lia.
  replace ((ptr + 4 * size) / 4)%Z with (ptr / 4 + size)%Z
    by (rewrite Z.mul_comm, Z.div_add by lia; lia).
  assert (0 <= ptr / 4)%Z by (apply Z.div_pos; lia).
  destruct (Z.ltb_spec (ptr / 4) 0) as [?|_]; [lia|].
  destruct (Z.ltb_spec (ptr / 4 + size) 0) as [?|_]; [lia|].
  set (len := length heap).
  destruct (Z.le_gt_cases (ptr / 4) (Z.of_nat len)) as [Hin | Hout].
  - rewrite (Z.min_l (ptr / 4)) by lia.
    destruct (Z.le_gt_cases (ptr / 4 + size) (Z.of_nat len)) as [Hfit | Hcut].
    + rewrite Z.min_l by lia. f_equal. lia.
    + rewrite Z.min_r by lia.
      rewrite !take_ge; [done | |]; rewrite length_drop; fold len; lia.
  - rewrite (Z.min_r (ptr / 4)) by lia.
    rewrite !drop_ge by (fold len; lia). by rewrite !take_nil.
Qed.

End JsMore.

(** ** X22: what [FlattenLine] leaves alone *)

(** X22.  [FlattenLine] replaces a property only when it is an object
    whose [type] is 5, or a non-empty array whose first element has [type]
    5.  On a line none of whose properties is such (an array that holds a
    REF only after its first element included), it returns with the heap
    unchanged and never calls [GetLine], to whatever depth the recursion
    may go. *)
Theorem FlattenLine_without_refs
    (GetRawLineData : Js.value -> Js.M Js.value)
    (FromRawLineData : Js.value -> Js.value -> Js.M Js.value)
    (fuel : nat) (h : list Js.object) (w : list Js.RawLineData)
    (l : nat) (props : list (string * Js.value)) :
  h !! l = Some (Js.JObject props) ->
  forallb (fun p => Js.no_ref h p.2) props = true ->
  Js.FlattenLine GetRawLineData FromRawLineData fuel (Js.VRef l) (Js.mkState h w)
  = Js.Returned (tt, Js.mkState h w).
Proof. intros Hl Hall. by apply (JsMore.FlattenLine_with_no_refs _ h w l props). Qed.

Lemma FlattenLine_without_refs_witness :
  JsSamples.read_heap !! 0%nat
    = Some (Js.JObject
              [("expressID", Js.VNum 7); ("type", Js.VNum 100); ("Name", Js.VRef 1);
               ("Tag", Js.VNull); ("Parts", Js.VRef 2); ("None", Js.VRef 4)]) /\
  Js.FlattenLine JsSamples.no_line (fun _ _ => JsSamples.no_line Js.VNull) 3
    (Js.VRef 0) (Js.mkState JsSamples.read_heap [])
  = Js.Returned (tt, Js.mkState JsSamples.read_heap []).
Proof.
  split; [reflexivity|].
  exact (FlattenLine_without_refs JsSamples.no_line (fun _ _ => JsSamples.no_line Js.VNull)
           3 JsSamples.read_heap [] 0 _ eq_refl eq_refl).
Defined.

(** ** X23: the elements [getSubArray] returns *)

(** X23.  For a start and a size that are not negative, element [i] of
    what [getSubArray] (and so [GetVertexArray] and [GetIndexArray])
    returns is element [ptr / 4 + i] of the heap, the quotient rounded
    down, for every [i] below [size], and there is none from [size] on:
    the parameter named [sizeBytes] counts elements, and a range that
    leaves the heap is cut short, not refused. *)
Theorem getSubArray_elements {A : Type} (heap : list A) (ptr size : Z) (i : nat) :
  0 <= ptr -> 0 <= size ->
  Js.getSubArray heap ptr size !! i
  = if bool_decide (Z.of_nat i < size)
    then heap !! (Z.to_nat (ptr / 4) + i)%nat else None.
Proof.
  intros Hp Hs. rewrite JsMore.getSubArray_take_drop by done.
  case_bool_decide as Hi.
  - rewrite lookup_take_lt by lia. apply lookup_drop.
  - apply lookup_take_ge. lia.
Qed.

Lemma getSubArray_elements_witness :
  0 <= 6 /\ 0 <= 3 /\
  Js.getSubArray [10; 11; 12; 13; 14] 6 3 !! 1%nat
  = if bool_decide (Z.of_nat 1 < 3)
    then [10; 11; 12; 13; 14] !! (Z.to_nat (6 / 4) + 1)%nat else None.
Proof.
  split; [lia|]. split; [lia|].
  apply (getSubArray_elements [10; 11; 12; 13; 14] 6 3 1); lia.
Defined.
